(** * The a2a-server task engine: durable store and task executor

    A shallow embedding of
    - [GCSTaskStore] (persistence/gcs.ts, both revisions kept in the
      repository: the one with the per-context message log and the one
      with the index-first write order and [NoOpTaskStore]),
    - [CoderAgentExecutor] (agent/executor.ts): [cancelTask] and [execute],
    - the history route of the HTTP application (http/app.ts), and
    - the session logic of the terminal client (utils/client-cli.ts).

    Asynchronous code is written as explicit state passing.  Every [await]
    of the source is a point where the environment answers: it resolves or
    rejects the awaited promise, and other handlers of the event loop (the
    socket's close listener, a concurrent cancel request) may run first. *)

From stdpp Require Import gmap strings list pretty.

Set Default Proof Using "Type".

(** ** Data shared by the store and the executor *)

(** The lifecycle states of a task: the six states of the specification's
    data model, written as the SDK's [TaskState] strings. *)
Inductive TaskState :=
  | submitted | working | input_required | completed | canceled | failed.

#[global] Instance TaskState_eq_dec : EqDecision TaskState.
Proof. solve_decision. Defined.

(** The text a state has in a template literal. *)
Definition stateName (s : TaskState) : string :=
  match s with
  | submitted => "submitted"
  | working => "working"
  | input_required => "input-required"
  | completed => "completed"
  | canceled => "canceled"
  | failed => "failed"
  end.

Inductive Role := user | agent.

(** Members of the [CoderAgentEvent] enumeration the engine refers to
    (types.ts is not among the sources). *)
Inductive CoderAgentEvent :=
  | StateChangeEvent | StateAgentSettingsEvent | OtherAgentEvent.

#[global] Instance CoderAgentEvent_eq_dec : EqDecision CoderAgentEvent.
Proof. solve_decision. Defined.

Record AgentSettings := mkAgentSettings {
  kind : CoderAgentEvent;
  workspacePath : string
}.

(** An A2A [Message].  [msg_taskId] and [msg_contextId] are optional in the
    SDK's type; [coderAgent] is [metadata?.coderAgent]. *)
Record Message := mkMessage {
  messageId : string;
  role : Role;
  text : string;
  msg_taskId : option string;
  msg_contextId : option string;
  coderAgent : option AgentSettings
}.

(** [metadata.__persistedState] as [toSDKTask] writes it; this is what
    [getPersistedState] of types.ts, which is not among the sources, hands
    back, if the metadata has it. *)
Record PersistedState := mkPersistedState {
  _agentSettings : AgentSettings;
  _taskState : TaskState
}.

(** The SDK's [Task]: what the store persists. *)
Record SDKTask := mkSDKTask {
  sdk_id : string;
  sdk_contextId : string;
  sdk_state : TaskState;
  sdk_persistedState : option PersistedState;
  sdk_history : option (list Message)
}.

(** JavaScript truthiness of a string: only the empty string is falsy. *)
Definition truthy (s : string) : bool := negb (bool_decide (s = "")).

(** [uuidv4()]: the [n]-th identifier the generator hands out. *)
Definition uuidv4 (n : nat) : string := "uuid-" +:+ pretty n.

(** A settled promise. *)
Inductive Result (A : Type) :=
  | Ok (a : A)
  | Err (msg : string).
Arguments Ok {A} a.
Arguments Err {A} msg.

(** ** The bucket and the local file system *)

(** A write request the store has sent to the bucket. *)
Inductive Op :=
  | PutIndex (path : string) (contextId : string)
  | PutTask (path : string) (task : SDKTask)
  | PutWorkspace (path : string) (entries : list string)
  | PutHistory (path : string) (messages : list Message).

(** The bucket holds four kinds of object, each under its own paths.
    [faults] is the backend's schedule: one entry per request still to
    come, [true] where the request is rejected; past its end every request
    succeeds.  [dirs] is the local file system, a directory to its
    entries; [cwdCached] says whether Node has already read the path of
    the working directory, which it then keeps. *)
Record World := mkWorld {
  bucketInitialized : option string;
  indexFiles : gmap string string;
  taskFiles : gmap string SDKTask;
  workspaceFiles : gmap string (list string);
  historyFiles : gmap string (list Message);
  faults : list bool;
  cwd : string;
  tmpdir : string;
  dirs : gmap string (list string);
  tarCreates : bool;
  uuids : nat;
  requests : list Op;
  cwdCached : bool
}.

(** What [setTargetDir] is called with: the narrowed settings (first
    revision), or whatever object sits under [__persistedState] (second
    revision, which casts it). *)
Inductive TargetDirArg :=
  | ArgSettings (s : AgentSettings)
  | ArgPersisted (p : option PersistedState).

(** State and error monad of the store's asynchronous methods. *)
Definition M (A : Type) : Type := World → World * Result A.

Definition ret {A} (a : A) : M A := λ w, (w, Ok a).
Definition throw {A} (msg : string) : M A := λ w, (w, Err msg).
Definition bind {A B} (m : M A) (k : A → M B) : M B :=
  λ w, match m w with
       | (w', Ok a) => k a w'
       | (w', Err e) => (w', Err e)
       end.
(** [try { m } catch { h }] where the handler ignores the error. *)
Definition tryCatch {A} (m : M A) (h : M A) : M A :=
  λ w, match m w with
       | (w', Ok a) => (w', Ok a)
       | (w', Err _) => h w'
       end.

Notation "'await' x ← m ; k" := (bind m (λ x, k))
  (at level 10, x name, m at level 100, k at level 200,
   format "'[v' 'await'  x  ←  m ; '/' k ']'").

Definition gcsError (path : string) : string :=
  "GCS request failed: " +:+ path.

Definition ensureBucketInitialized : M unit :=
  λ w, match bucketInitialized w with
       | None => (w, Ok ())
       | Some e => (w, Err e)
       end.

(** A request to the bucket takes the next entry of the schedule. *)
Definition request (path : string) : M unit :=
  λ w, match faults w with
       | [] => (w, Ok ())
       | rejected :: rest =>
           (mkWorld (bucketInitialized w) (indexFiles w) (taskFiles w)
              (workspaceFiles w) (historyFiles w) rest (cwd w) (tmpdir w)
              (dirs w) (tarCreates w) (uuids w) (requests w) (cwdCached w),
            if rejected : bool then Err (gcsError path) else Ok ())
       end.

Definition logRequest (o : Op) (w : World) : World :=
  mkWorld (bucketInitialized w) (indexFiles w) (taskFiles w)
    (workspaceFiles w) (historyFiles w) (faults w) (cwd w) (tmpdir w)
    (dirs w) (tarCreates w) (uuids w) (requests w ++ [o]) (cwdCached w).

Definition saveIndexFile (path contextId : string) : M unit :=
  await _ ← request path;
  λ w, (logRequest (PutIndex path contextId)
          (mkWorld (bucketInitialized w) (<[path := contextId]> (indexFiles w))
             (taskFiles w) (workspaceFiles w) (historyFiles w) (faults w)
             (cwd w) (tmpdir w) (dirs w) (tarCreates w) (uuids w) (requests w) (cwdCached w)),
        Ok ()).

Definition saveTaskFile (path : string) (task : SDKTask) : M unit :=
  await _ ← request path;
  λ w, (logRequest (PutTask path task)
          (mkWorld (bucketInitialized w) (indexFiles w)
             (<[path := task]> (taskFiles w)) (workspaceFiles w)
             (historyFiles w) (faults w) (cwd w) (tmpdir w) (dirs w)
             (tarCreates w) (uuids w) (requests w) (cwdCached w)),
        Ok ()).

Definition uploadWorkspace (path : string) (entries : list string) : M unit :=
  await _ ← request path;
  λ w, (logRequest (PutWorkspace path entries)
          (mkWorld (bucketInitialized w) (indexFiles w) (taskFiles w)
             (<[path := entries]> (workspaceFiles w)) (historyFiles w)
             (faults w) (cwd w) (tmpdir w) (dirs w) (tarCreates w)
             (uuids w) (requests w) (cwdCached w)),
        Ok ()).

Definition saveHistoryFile (path : string) (messages : list Message) : M unit :=
  await _ ← request path;
  λ w, (logRequest (PutHistory path messages)
          (mkWorld (bucketInitialized w) (indexFiles w) (taskFiles w)
             (workspaceFiles w) (<[path := messages]> (historyFiles w))
             (faults w) (cwd w) (tmpdir w) (dirs w) (tarCreates w)
             (uuids w) (requests w) (cwdCached w)),
        Ok ()).

(** [file.exists()] and [file.download()] on one kind of object.  A
    download of an object that is not there rejects. *)
Definition fileExists {V} (files : World → gmap string V) (path : string)
    : M bool :=
  await _ ← request path;
  λ w, (w, Ok (bool_decide (is_Some (files w !! path)))).

Definition download {V} (files : World → gmap string V) (path : string)
    : M V :=
  await _ ← request path;
  λ w, match files w !! path with
       | Some v => (w, Ok v)
       | None => (w, Err ("No such object: " +:+ path))
       end.

(** What [process.cwd()] throws when the directory is gone. *)
Definition cwdGone : string := "ENOENT: no such file or directory, uv_cwd".

(** [process.cwd()].  Node reads the path of the working directory once
    and answers from its cache afterwards; the read fails when the
    directory is gone. *)
Definition getCwd : M string :=
  λ w, if cwdCached w then (w, Ok (cwd w))
       else if bool_decide (is_Some (dirs w !! cwd w)) then
         (mkWorld (bucketInitialized w) (indexFiles w) (taskFiles w)
            (workspaceFiles w) (historyFiles w) (faults w) (cwd w)
            (tmpdir w) (dirs w) (tarCreates w) (uuids w) (requests w) true,
          Ok (cwd w))
       else (w, Err cwdGone).

(** [fse.pathExists], [fsPromises.readdir], [fse.ensureDir]. *)

Definition pathExists (dir : string) : M bool :=
  λ w, (w, Ok (bool_decide (is_Some (dirs w !! dir)))).

Definition readdir (dir : string) : M (list string) :=
  λ w, match dirs w !! dir with
       | Some es => (w, Ok es)
       | None => (w, Err ("ENOENT: " +:+ dir))
       end.

Definition setDir (dir : string) (es : list string) (w : World) : World :=
  mkWorld (bucketInitialized w) (indexFiles w) (taskFiles w)
    (workspaceFiles w) (historyFiles w) (faults w) (cwd w) (tmpdir w)
    (<[dir := es]> (dirs w)) (tarCreates w) (uuids w) (requests w)
    (cwdCached w).

Definition ensureDir (dir : string) : M unit :=
  λ w, match dirs w !! dir with
       | Some _ => (w, Ok ())
       | None => (setDir dir [] w, Ok ())
       end.

(** [tar.x({ file, cwd: dir })]: the archived entries are unpacked into
    [dir], next to what is already there. *)
Definition tarExtract (dir : string) (entries : list string) : M unit :=
  λ w, (setDir dir (list_union (default [] (dirs w !! dir)) entries) w, Ok ()).

(** [join(tmpdir(), getTmpArchiveFilename(taskId))]; the name draws a
    fresh uuid. *)
Definition getTmpArchiveFilename (taskId : string) : M string :=
  λ w, (mkWorld (bucketInitialized w) (indexFiles w) (taskFiles w)
          (workspaceFiles w) (historyFiles w) (faults w) (cwd w)
          (tmpdir w) (dirs w) (tarCreates w) (S (uuids w)) (requests w)
          (cwdCached w),
        Ok (tmpdir w +:+ "/task-" +:+ taskId +:+ "-workspace-"
              +:+ uuidv4 (uuids w) +:+ ".tar.gz")).

(** [tar.c] resolves; whether it left an archive behind is the world's
    [tarCreates]. *)
Definition tarCreate : M bool := λ w, (w, Ok (tarCreates w)).

(** ** GCSTaskStore, the revision with the context message log
    (unnamed/part_001, lines 1-249) *)

Module GCSTaskStoreA.
Section Store.
(** [setTargetDir] of config/config.ts, which is not among the sources:
    the workspace root a task's settings stand for. *)
Variable setTargetDir : TargetDirArg → string.

Definition getTaskPath (contextId taskId fileName : string) : string :=
  "contexts/" +:+ contextId +:+ "/" +:+ taskId +:+ "/" +:+ fileName.

Definition getIndexPath (taskId : string) : string :=
  "tasks/" +:+ taskId +:+ "/contextId.txt".

Definition getContextHistoryPath (contextId : string) : string :=
  "contexts/" +:+ contextId +:+ "/context_history.json".

(** [bucket.upload(tmpArchiveFile, ...)]: the local archive has to be
    there for the upload to start. *)
Definition upload (created : bool) (tmpArchiveFile destination : string)
    (entries : list string) : M unit :=
  if created then uploadWorkspace destination entries
  else throw ("ENOENT: " +:+ tmpArchiveFile).

(** Step 2 of [save]. The [finally] removes the temporary archive,
    which the world does not keep track of. *)
Definition saveWorkspace (contextId taskId workDir : string) : M unit :=
  await present ← pathExists workDir;
  if present : bool then
    await entries ← readdir workDir;
    if bool_decide (0 < length entries) then
      await tmpArchiveFile ← getTmpArchiveFilename taskId;
      await created ← tarCreate;
      upload created tmpArchiveFile
        (getTaskPath contextId taskId "workspace.tar.gz") entries
    else ret ()
  else ret ().

(** The [try] block that reads the existing log: any failure leaves
    [history] empty. *)
Definition readHistory (historyPath : string) : M (list Message) :=
  tryCatch
    (await present ← fileExists historyFiles historyPath;
     if present : bool then download historyFiles historyPath else ret [])
    (ret []).

Definition newMessages (history taskHistory : list Message) : list Message :=
  let existingMessageIds := messageId <$> history in
  filter (λ m, messageId m ∉ existingMessageIds) taskHistory.

(** Step 4 of [save]. *)
Definition appendHistory (contextId : string) (task : SDKTask) : M unit :=
  let historyPath := getContextHistoryPath contextId in
  await history ← readHistory historyPath;
  match sdk_history task with
  | Some (m :: ms) =>
      let new := newMessages history (m :: ms) in
      if bool_decide (0 < length new)
      then saveHistoryFile historyPath (history ++ new)
      else ret ()
  | _ => ret ()
  end.

Definition save (task : SDKTask) : M unit :=
  await _ ← ensureBucketInitialized;
  let taskId := sdk_id task in
  let contextId := sdk_contextId task in
  if negb (truthy contextId) then
    throw ("Task " +:+ taskId +:+ " is missing a contextId.")
  else
    await workDir ← getCwd;
    await _ ← saveTaskFile (getTaskPath contextId taskId "task.json") task;
    await _ ← saveWorkspace contextId taskId workDir;
    await _ ← saveIndexFile (getIndexPath taskId) contextId;
    appendHistory contextId task.

(** Step 3 of [load]. *)
Definition restoreWorkspace (contextId taskId workDir : string) : M unit :=
  await _ ← ensureDir workDir;
  let workspacePath := getTaskPath contextId taskId "workspace.tar.gz" in
  await workspaceExists ← fileExists workspaceFiles workspacePath;
  if workspaceExists : bool then
    await _ ← getTmpArchiveFilename taskId;
    await entries ← download workspaceFiles workspacePath;
    tarExtract workDir entries
  else ret ().

Definition load (taskId : string) : M (option SDKTask) :=
  await _ ← ensureBucketInitialized;
  let indexPath := getIndexPath taskId in
  await indexExists ← fileExists indexFiles indexPath;
  if negb indexExists then ret None
  else
    await contextId ← download indexFiles indexPath;
    let taskJsonPath := getTaskPath contextId taskId "task.json" in
    await taskJsonExists ← fileExists taskFiles taskJsonPath;
    if negb taskJsonExists then ret None
    else
      await sdkTask ← download taskFiles taskJsonPath;
      match sdk_persistedState sdkTask with
      | None =>
          throw ("Loaded metadata for task " +:+ taskId
                   +:+ " is missing internal persisted state.")
      | Some persistedState =>
          let workDir :=
            setTargetDir (ArgSettings (_agentSettings persistedState)) in
          await _ ← restoreWorkspace contextId taskId workDir;
          ret (Some sdkTask)
      end.

Definition getContextHistory (contextId : string) : M (list Message) :=
  await _ ← ensureBucketInitialized;
  let historyPath := getContextHistoryPath contextId in
  await present ← fileExists historyFiles historyPath;
  if negb present then ret []
  else download historyFiles historyPath.
End Store.
End GCSTaskStoreA.

(** ** GCSTaskStore, the revision that writes the index first
    (unnamed/part_001, lines 251-559) *)

Module GCSTaskStoreB.
Section Store.
Variable setTargetDir : TargetDirArg → string.

Definition getContextIdIndexPath (taskId : string) : string :=
  "tasks/" +:+ taskId +:+ "/contextId.txt".

Definition getTaskObjectPath (contextId taskId : string) : string :=
  "contexts/" +:+ contextId +:+ "/" +:+ taskId +:+ "/task.json".

Definition getWorkspaceObjectPath (contextId taskId : string) : string :=
  "contexts/" +:+ contextId +:+ "/" +:+ taskId +:+ "/workspace.tar.gz".

(** Step 3 of [save]: the archive is streamed to the bucket once
    [tar.c] is seen to have produced it. *)
Definition saveWorkspace (taskId workDir workspaceObjectPath : string)
    : M unit :=
  await present ← pathExists workDir;
  if present : bool then
    await entries ← readdir workDir;
    if bool_decide (0 < length entries) then
      await tmpArchiveFile ← getTmpArchiveFilename taskId;
      await created ← tarCreate;
      if negb created then
        throw ("tar.c command failed to create " +:+ tmpArchiveFile)
      else uploadWorkspace workspaceObjectPath entries
    else ret ()
  else ret ().

(** The surrounding [try]/[catch] logs and throws the error again. *)
Definition save (task : SDKTask) : M unit :=
  await _ ← ensureBucketInitialized;
  let taskId := sdk_id task in
  let contextId := sdk_contextId task in
  if negb (truthy contextId) then
    throw ("Task " +:+ taskId +:+ " is missing contextId.")
  else
    await workDir ← getCwd;
    let contextIdIndexPath := getContextIdIndexPath taskId in
    let taskObjectPath := getTaskObjectPath contextId taskId in
    let workspaceObjectPath := getWorkspaceObjectPath contextId taskId in
    await _ ← saveIndexFile contextIdIndexPath contextId;
    await _ ← saveTaskFile taskObjectPath task;
    saveWorkspace taskId workDir workspaceObjectPath.

Definition restoreWorkspace (contextId taskId workDir : string) : M unit :=
  await _ ← ensureDir workDir;
  let workspaceObjectPath := getWorkspaceObjectPath contextId taskId in
  await workspaceExists ← fileExists workspaceFiles workspaceObjectPath;
  if workspaceExists : bool then
    await _ ← getTmpArchiveFilename taskId;
    await entries ← download workspaceFiles workspaceObjectPath;
    tarExtract workDir entries
  else ret ().

Definition load (taskId : string) : M (option SDKTask) :=
  await _ ← ensureBucketInitialized;
  let contextIdIndexPath := getContextIdIndexPath taskId in
  await indexExists ← fileExists indexFiles contextIdIndexPath;
  if negb indexExists then ret None
  else
    await contextId ← download indexFiles contextIdIndexPath;
    let taskObjectPath := getTaskObjectPath contextId taskId in
    await taskExists ← fileExists taskFiles taskObjectPath;
    if negb taskExists then
      throw ("Inconsistent state: Task object not found for task "
               +:+ taskId)
    else
      await task ← download taskFiles taskObjectPath;
      let workDir := setTargetDir (ArgPersisted (sdk_persistedState task)) in
      await _ ← restoreWorkspace contextId taskId workDir;
      ret (Some task).
End Store.
End GCSTaskStoreB.

(** [NoOpTaskStore]: saves are dropped, loads go to the wrapped store. *)
Module NoOpTaskStore.
Definition save (task : SDKTask) : M unit := ret ().

Definition load (realLoad : string → M (option SDKTask)) (taskId : string)
    : M (option SDKTask) :=
  realLoad taskId.
End NoOpTaskStore.

(** ** Events, thrown values and the ambient state of the executor *)

(** A [status-update] event as it is handed to an event bus. *)
Record StatusUpdate := mkStatusUpdate {
  ev_taskId : string;
  ev_contextId : string;
  ev_state : TaskState;
  ev_message : option Message;
  ev_final : bool
}.

(** What a [catch] clause receives: an [Error] with its message, or some
    other value. *)
Inductive Thrown :=
  | ErrorObject (message : string)
  | OtherValue.

(** How a call returns to its caller. *)
Inductive Completion :=
  | Returned
  | Threw (e : Thrown).

(** What lives outside the task objects: the events published so far,
    each with the bus it went to, the uuids drawn, and the snapshots
    handed to [taskStore.save]. *)
Record Sys := mkSys {
  published : list (nat * StatusUpdate);
  nextUuid : nat;
  saved : list SDKTask
}.

Definition publish (bus : nat) (ev : StatusUpdate) (s : Sys) : Sys :=
  mkSys (published s ++ [(bus, ev)]) (nextUuid s) (saved s).

Definition drawUuid (s : Sys) : string * Sys :=
  (uuidv4 (nextUuid s), mkSys (published s) (S (nextUuid s)) (saved s)).

Definition recordSave (t : SDKTask) (s : Sys) : Sys :=
  mkSys (published s) (nextUuid s) (saved s ++ [t]).

(** The message object the executor builds for a status update. *)
Definition agentMessage (messageId text taskId : string) : Message :=
  mkMessage messageId agent text (Some taskId) None None.

(** ** Tool calls *)

Record ToolCallRequestInfo := mkToolCallRequestInfo {
  callId : string;
  toolName : string;
  toolArgs : string
}.

Inductive ToolStatus :=
  | tool_pending | tool_success | tool_error | tool_cancelled.

#[global] Instance ToolStatus_eq_dec : EqDecision ToolStatus.
Proof. solve_decision. Defined.

(** How a scheduled call settles. *)
Inductive Settled := settled_success | settled_error | settled_cancelled.

Definition settledStatus (s : Settled) : ToolStatus :=
  match s with
  | settled_success => tool_success
  | settled_error => tool_error
  | settled_cancelled => tool_cancelled
  end.

Record ToolCall := mkToolCall {
  tc_request : ToolCallRequestInfo;
  tc_status : ToolStatus;
  tc_reason : option string
}.

(** Events of the model stream ([ServerGeminiStreamEvent]); only
    [ToolCallRequest] is told apart by the executor. *)
Inductive GeminiEvent :=
  | ToolCallRequest (value : ToolCallRequestInfo)
  | Content (value : string)
  | OtherEvent (type : string).

(** Roles of the model session's history. *)
Inductive ModelRole := role_model | role_user.

(** ** The runtime task *)

(** agent/task.ts is not among the sources; the methods the executor
    calls are modelled from the specification's description of the Task. *)
Module Task.

(** Modelled from the spec: the [Task] class is missing.  The fields are
    those of the specification's data model ([id], [contextId], state,
    [history], [pendingTools], [agentSettings]), the bus the executor
    sets, the messages handed to the acceptance channel, the tool
    results handed on, and the history of the model session. *)
Record t := mk {
  id : string;
  contextId : string;
  taskState : TaskState;
  agentSettings : AgentSettings;
  eventBus : option nat;
  pendingTools : list ToolCall;
  history : list Message;
  acceptedMessages : list Message;
  toolResponses : list ToolCall;
  modelHistory : list (ModelRole * string)
}.

Definition setEventBus (bus : option nat) (tk : t) : t :=
  mk (id tk) (contextId tk) (taskState tk) (agentSettings tk) bus
     (pendingTools tk) (history tk) (acceptedMessages tk) (toolResponses tk)
     (modelHistory tk).

Definition setTaskState (s : TaskState) (tk : t) : t :=
  mk (id tk) (contextId tk) s (agentSettings tk) (eventBus tk)
     (pendingTools tk) (history tk) (acceptedMessages tk) (toolResponses tk)
     (modelHistory tk).

Definition setPendingTools (tools : list ToolCall) (tk : t) : t :=
  mk (id tk) (contextId tk) (taskState tk) (agentSettings tk) (eventBus tk)
     tools (history tk) (acceptedMessages tk) (toolResponses tk)
     (modelHistory tk).

Definition setToolResponses (tools : list ToolCall) (tk : t) : t :=
  mk (id tk) (contextId tk) (taskState tk) (agentSettings tk) (eventBus tk)
     (pendingTools tk) (history tk) (acceptedMessages tk) tools
     (modelHistory tk).

Definition setAcceptedMessages (ms : list Message) (tk : t) : t :=
  mk (id tk) (contextId tk) (taskState tk) (agentSettings tk) (eventBus tk)
     (pendingTools tk) (history tk) ms (toolResponses tk) (modelHistory tk).

Definition setModelHistory (h : list (ModelRole * string)) (tk : t) : t :=
  mk (id tk) (contextId tk) (taskState tk) (agentSettings tk) (eventBus tk)
     (pendingTools tk) (history tk) (acceptedMessages tk) (toolResponses tk) h.

(** Modelled from the spec: [Task.create] is missing; "allocates a fresh
    Task in state submitted". *)
Definition create (taskId contextId : string) (settings : AgentSettings)
    (bus : option nat) : t :=
  mk taskId contextId submitted settings bus [] [] [] [] [].

(** Modelled from the spec: [getHistory] is missing; the task's "ordered
    sequence of messages". *)
Definition getHistory (tk : t) : list Message := history tk.

(** Publishing goes to the bus the task currently holds, if any. *)
Definition publishUpdate (ev : StatusUpdate) (tk : t) (s : Sys) : Sys :=
  match eventBus tk with
  | Some bus => publish bus ev s
  | None => s
  end.

(** Modelled from the spec: [setTaskStateAndPublishUpdate] is missing;
    it makes the transition and publishes a status update carrying
    "a task id, context id, lifecycle state, optional message, and a
    final flag". *)
Definition setTaskStateAndPublishUpdate (newState : TaskState)
    (messageText : option string) (final : bool) (tk : t) (s : Sys)
    : t * Sys :=
  let tk' := setTaskState newState tk in
  match messageText with
  | Some text =>
      let '(mid, s1) := drawUuid s in
      (tk', publishUpdate
             (mkStatusUpdate (id tk) (contextId tk) newState
                (Some (agentMessage mid text (id tk))) final) tk' s1)
  | None =>
      (tk', publishUpdate
             (mkStatusUpdate (id tk) (contextId tk) newState None final) tk' s)
  end.

Definition cancelTool (reason : string) (tc : ToolCall) : ToolCall :=
  match tc_status tc with
  | tool_pending => mkToolCall (tc_request tc) tool_cancelled (Some reason)
  | _ => tc
  end.

(** Modelled from the spec: [cancelPendingTools] is missing; "cancel all
    still-pending tool calls with a reason". *)
Definition cancelPendingTools (reason : string) (tk : t) : t :=
  setPendingTools (cancelTool reason <$> pendingTools tk) tk.

(** Modelled from the spec: [acceptUserMessage] is missing; the new
    message enters the task's "message-acceptance channel" and the task
    reports that it is working (Scenario A: "one working status then one
    input-required status"); the stream it opens is the environment's. *)
Definition acceptUserMessage (userMessage : Message) (tk : t) (s : Sys)
    : t * Sys :=
  setTaskStateAndPublishUpdate working None false
    (setAcceptedMessages (acceptedMessages tk ++ [userMessage]) tk) s.

Definition eventText (ev : GeminiEvent) : string :=
  match ev with
  | ToolCallRequest v => toolName v
  | Content v => v
  | OtherEvent ty => ty
  end.

(** Modelled from the spec: [acceptAgentMessage] is missing; "content /
    status events are applied immediately to the Task's published
    status (forwarded to the event sink)", as an update that does not
    end the invocation's burst. *)
Definition acceptAgentMessage (ev : GeminiEvent) (tk : t) (s : Sys)
    : t * Sys :=
  let '(mid, s1) := drawUuid s in
  (tk, publishUpdate
        (mkStatusUpdate (id tk) (contextId tk) (taskState tk)
           (Some (agentMessage mid (eventText ev) (id tk))) false) tk s1).

(** Modelled from the spec: [scheduleToolCalls] is missing; "schedule
    all requested tool calls". *)
Definition scheduleToolCalls (requests : list ToolCallRequestInfo) (tk : t)
    : t :=
  setPendingTools
    (pendingTools tk ++ ((λ r, mkToolCall r tool_pending None) <$> requests))
    tk.

Definition settleTool (settle : ToolCallRequestInfo → Settled)
    (tc : ToolCall) : ToolCall :=
  match tc_status tc with
  | tool_pending =>
      mkToolCall (tc_request tc) (settledStatus (settle (tc_request tc)))
        (tc_reason tc)
  | _ => tc
  end.

(** Modelled from the spec: [waitForPendingTools] is missing; "wait for
    them to settle: each call reaches success, error, or cancelled". *)
Definition waitForPendingTools (settle : ToolCallRequestInfo → Settled)
    (tk : t) : t :=
  setPendingTools (settleTool settle <$> pendingTools tk) tk.

Definition isSettled (tc : ToolCall) : bool :=
  negb (bool_decide (tc_status tc = tool_pending)).

(** Modelled from the spec: [getAndClearCompletedTools] is missing; the
    settled calls leave the set of in-flight tool calls. *)
Definition getAndClearCompletedTools (tk : t) : list ToolCall * t :=
  (List.filter isSettled (pendingTools tk),
   setPendingTools
     (List.filter (λ tc, negb (isSettled tc)) (pendingTools tk)) tk).

(** Modelled from the spec: [addToolResponsesToHistory] is missing;
    "record the results into history". *)
Definition addToolResponsesToHistory (tools : list ToolCall) (tk : t) : t :=
  setToolResponses (toolResponses tk ++ tools) tk.

(** Modelled from the spec: [sendCompletedToolsToLlm] is missing; "feed
    all settled results back to the model as a new turn"; the stream it
    opens is the environment's. *)
Definition sendCompletedToolsToLlm (tools : list ToolCall) (tk : t) : t :=
  setToolResponses (toolResponses tk ++ tools) tk.

(** [geminiClient.addHistory], as [reconstruct] calls it. *)
Definition addHistory (entry : ModelRole * string) (tk : t) : t :=
  setModelHistory (modelHistory tk ++ [entry]) tk.

End Task.

(** ** The environment of one [execute] call *)

(** A cancel request for the same task that is served while the loop is
    suspended: the bus it came with, and what [taskStore.save] does to it. *)
Record CancelRequest := mkCancelRequest {
  cancelBus : nat;
  cancelSave : option Thrown
}.

(** What other handlers of the event loop do while a promise is pending. *)
Record Interrupt := mkInterrupt {
  socketCloses : bool;
  cancelRequest : option CancelRequest
}.

Definition quiet : Interrupt := mkInterrupt false None.

(** An awaited call of a collaborator: what happens meanwhile, and whether
    the promise rejects. *)
Record Await := mkAwait {
  interrupt : Interrupt;
  rejects : option Thrown
}.

(** An asynchronous generator of model events, one constructor per pull.
    [accept] answers the [acceptAgentMessage] call the main loop makes for
    an event that is not a tool call request. *)
Inductive Stream :=
  | StreamEnd (i : Interrupt)
  | StreamThrows (i : Interrupt) (e : Thrown)
  | StreamYield (i : Interrupt) (event : GeminiEvent) (accept : Await)
      (rest : Stream).

(** One pass of the [while] loop: the stream to consume, then the answers
    to [scheduleToolCalls] and [waitForPendingTools]. *)
Record Turn := mkTurn {
  events : Stream;
  schedule : Await;
  wait : Await;
  settle : ToolCallRequestInfo → Settled
}.

(** A turn in which nothing happens: the stream ends at once. *)
Definition idleTurn : Turn :=
  mkTurn (StreamEnd quiet) (mkAwait quiet None) (mkAwait quiet None)
    (λ _, settled_success).

Record Env := mkEnv {
  requestStore : bool;
  config : option Thrown;
  save : option Thrown;
  closedEarly : bool;
  firstTurn : Turn;
  laterTurns : list Turn
}.

Record RequestContext := mkRequestContext {
  userMessage : Message;
  task : option SDKTask
}.

(** [error instanceof Error ? error.message : fallback] *)
Definition messageOf (fallback : string) (e : Thrown) : string :=
  match e with
  | ErrorObject message => message
  | OtherValue => fallback
  end.

(** Modelled from the spec: [pushTaskStateFailed] of
    utils/executor_utils.ts is missing; "every failure results in a
    human-readable status message attached to a failed ... terminal
    event". *)
Definition pushTaskStateFailed (e : Thrown) (bus : nat)
    (taskId contextId : string) (s : Sys) : Sys :=
  let '(mid, s1) := drawUuid s in
  publish bus
    (mkStatusUpdate taskId contextId failed
       (Some (agentMessage mid (messageOf "Agent execution error" e) taskId))
       true) s1.

(** ** CoderAgentExecutor (agent/executor.ts) *)

Module CoderAgentExecutor.

(** The executor: its two private collections, whether it was given a
    task store, and the ambient state. *)
Record t := mk {
  tasks : gmap string Task.t;
  executingTasks : gset string;
  taskStore : bool;
  sys : Sys
}.

Definition toSDKTask (tk : Task.t) : SDKTask :=
  mkSDKTask (Task.id tk) (Task.contextId tk) (Task.taskState tk)
    (Some (mkPersistedState (Task.agentSettings tk) (Task.taskState tk)))
    (Some (Task.getHistory tk)).

Definition getTask (taskId : string) (ex : t) : option Task.t :=
  tasks ex !! taskId.

Definition modelEntry (m : Message) : ModelRole * string :=
  (match role m with agent => role_model | user => role_user end, text m).

(** [reconstruct]: the rebuilt task, or what it throws. *)
Definition reconstruct (sdkTask : SDKTask) (bus : nat)
    (config : option Thrown) (ex : t) : t * (Task.t + Thrown) :=
  match sdk_persistedState sdkTask with
  | None =>
      (ex, inr (ErrorObject ("Cannot reconstruct task " +:+ sdk_id sdkTask
                   +:+ ": missing persisted state in metadata.")))
  | Some persistedState =>
      match config with
      | Some e => (ex, inr e)
      | None =>
          let runtimeTask :=
            Task.create (sdk_id sdkTask) (sdk_contextId sdkTask)
              (_agentSettings persistedState) (Some bus) in
          let runtimeTask :=
            Task.setTaskState (_taskState persistedState) runtimeTask in
          let runtimeTask :=
            foldl (λ tk m, Task.addHistory (modelEntry m) tk) runtimeTask
              (default [] (sdk_history sdkTask)) in
          (mk (<[sdk_id sdkTask := runtimeTask]> (tasks ex))
             (executingTasks ex) (taskStore ex) (sys ex),
           inl runtimeTask)
      end
  end.

Definition createTask (taskId contextId : string)
    (agentSettings : AgentSettings) (bus : nat)
    (config save : option Thrown) (ex : t) : t * (Task.t + Thrown) :=
  match config with
  | Some e => (ex, inr e)
  | None =>
      let runtimeTask :=
        Task.create taskId contextId agentSettings (Some bus) in
      let ex1 :=
        mk (<[taskId := runtimeTask]> (tasks ex)) (executingTasks ex)
          (taskStore ex) (sys ex) in
      if taskStore ex then
        match save with
        | Some e => (ex1, inr e)
        | None =>
            (mk (tasks ex1) (executingTasks ex1) (taskStore ex1)
               (recordSave (toSDKTask runtimeTask) (sys ex1)),
             inl runtimeTask)
        end
      else (ex1, inl runtimeTask)
  end.

(** [cancelTask] once the task object is in hand: the branch for a task
    that is already canceled or failed, and the [try]/[catch]. *)
Definition cancelKnown (taskStore : bool) (save : option Thrown)
    (taskId : string) (bus : nat) (tk : Task.t) (s : Sys) : Task.t * Sys :=
  if bool_decide (Task.taskState tk = canceled ∨ Task.taskState tk = failed)
  then
    let '(mid, s1) := drawUuid s in
    (tk, publish bus
           (mkStatusUpdate taskId (Task.contextId tk) (Task.taskState tk)
              (Some (agentMessage mid
                       ("Task " +:+ taskId +:+ " is already "
                          +:+ stateName (Task.taskState tk) +:+ ".")
                       taskId))
              true) s1)
  else
    let tk1 := Task.cancelPendingTools "Task canceled by user request." tk in
    let '(tk2, s2) :=
      Task.setTaskStateAndPublishUpdate canceled
        (Some "Task canceled by user request.") true tk1 s in
    if taskStore then
      match save with
      | None => (tk2, recordSave (toSDKTask tk2) s2)
      | Some e =>
          let errorMessage := messageOf "Unknown error" e in
          let '(mid, s3) := drawUuid s2 in
          (tk2, publish bus
                  (mkStatusUpdate taskId (Task.contextId tk2) failed
                     (Some (agentMessage mid
                              ("Failed to process cancellation for task "
                                 +:+ taskId +:+ ": " +:+ errorMessage)
                              taskId))
                     true) s3)
      end
    else (tk2, s2).

Definition cancelTask (save : option Thrown) (taskId : string) (bus : nat)
    (ex : t) : t * Completion :=
  match tasks ex !! taskId with
  | None =>
      let '(contextId, s1) := drawUuid (sys ex) in
      let '(mid, s2) := drawUuid s1 in
      (mk (tasks ex) (executingTasks ex) (taskStore ex)
         (publish bus
            (mkStatusUpdate taskId contextId failed
               (Some (agentMessage mid
                        ("Task " +:+ taskId +:+ " not found.") taskId))
               true) s2),
       Returned)
  | Some tk =>
      let '(tk', s') :=
        cancelKnown (taskStore ex) save taskId bus tk (sys ex) in
      (mk (<[taskId := tk']> (tasks ex)) (executingTasks ex) (taskStore ex) s',
       Returned)
  end.

(** [a || b] on identifiers, [b] being evaluated only when needed. *)
Definition orElse (a : option string) (b : Sys → string * Sys)
    : Sys → string * Sys :=
  λ s, match a with
       | Some v => if truthy v then (v, s) else b s
       | None => b s
       end.

(** The first lines of [execute]: [taskId], then [contextId]. *)
Definition resolveIds (rc : RequestContext) (s : Sys)
    : string * string * Sys :=
  let '(taskId, s1) :=
    orElse (sdk_id <$> task rc)
      (orElse (msg_taskId (userMessage rc)) drawUuid) s in
  let '(contextId, s2) :=
    orElse (msg_contextId (userMessage rc))
      (orElse (sdk_contextId <$> task rc) drawUuid) s1 in
  (taskId, contextId, s2).

(** The state of one run of the turn loop: the task object, the ambient
    state, and [abortSignal.aborted]. *)
Record Run := mkRun {
  current : Task.t;
  ambient : Sys;
  aborted : bool
}.

Inductive Step :=
  | Continue
  | Exit
  | Throws (e : Thrown).

Definition abortedError : Thrown := ErrorObject "Execution aborted".

Section Loop.
(** Whether the request's socket is at hand, whether the executor has
    a store, and the key under which the task object is registered. *)
Variables (socket store : bool) (key : string).

Definition interrupted (i : Interrupt) (r : Run) : Run :=
  let r1 :=
    match cancelRequest i with
    | Some c =>
        let '(tk, s) :=
          cancelKnown store (cancelSave c) key (cancelBus c)
            (current r) (ambient r) in
        mkRun tk s (aborted r)
    | None => r
    end in
  mkRun (current r1) (ambient r1)
    (aborted r1 || (socket && socketCloses i)).

(** The [for await] over the model's events. *)
Fixpoint consume (s : Stream) (toolCallRequests : list ToolCallRequestInfo)
    (r : Run) : Run * (Thrown + list ToolCallRequestInfo) :=
  match s with
  | StreamEnd i => (interrupted i r, inr toolCallRequests)
  | StreamThrows i e => (interrupted i r, inl e)
  | StreamYield i event accept rest =>
      let r1 := interrupted i r in
      if aborted r1 then (r1, inl abortedError)
      else
        match event with
        | ToolCallRequest value =>
            consume rest (toolCallRequests ++ [value]) r1
        | _ =>
            let r2 := interrupted (interrupt accept) r1 in
            match rejects accept with
            | Some e => (r2, inl e)
            | None =>
                let '(tk, s') :=
                  Task.acceptAgentMessage event (current r2) (ambient r2) in
                consume rest toolCallRequests (mkRun tk s' (aborted r2))
            end
        end
  end.

(** [scheduleToolCalls], called only for a non-empty batch. *)
Definition scheduleBatch (a : Await)
    (toolCallRequests : list ToolCallRequestInfo) (r : Run)
    : Run * option Thrown :=
  if bool_decide (0 < length toolCallRequests) then
    let r1 := interrupted (interrupt a) r in
    match rejects a with
    | Some e => (r1, Some e)
    | None =>
        (mkRun (Task.scheduleToolCalls toolCallRequests (current r1))
           (ambient r1) (aborted r1), None)
    end
  else (r, None).

Definition isCancelled (tc : ToolCall) : bool :=
  bool_decide (tc_status tc = tool_cancelled).

(** The rest of the loop body, from [getAndClearCompletedTools] on. *)
Definition classify (r : Run) : Run * Step :=
  let '(completedTools, tk) :=
    Task.getAndClearCompletedTools (current r) in
  if bool_decide (0 < length completedTools) then
    if forallb isCancelled completedTools then
      let tk1 := Task.addToolResponsesToHistory completedTools tk in
      let '(tk2, s) :=
        Task.setTaskStateAndPublishUpdate input_required None true tk1
          (ambient r) in
      (mkRun tk2 s (aborted r), Exit)
    else
      (mkRun (Task.sendCompletedToolsToLlm completedTools tk) (ambient r)
         (aborted r), Continue)
  else (mkRun tk (ambient r) (aborted r), Exit).

(** One pass of the [while] loop. *)
Definition iteration (turn : Turn) (r : Run) : Run * Step :=
  match consume (events turn) [] r with
  | (r1, inl e) => (r1, Throws e)
  | (r1, inr toolCallRequests) =>
      if aborted r1 then (r1, Throws abortedError)
      else
        match scheduleBatch (schedule turn) toolCallRequests r1 with
        | (r2, Some e) => (r2, Throws e)
        | (r2, None) =>
            let r3 := interrupted (interrupt (wait turn)) r2 in
            match rejects (wait turn) with
            | Some e => (r3, Throws e)
            | None =>
                let r4 :=
                  mkRun (Task.waitForPendingTools (settle turn) (current r3))
                    (ambient r3) (aborted r3) in
                if aborted r4 then (r4, Throws abortedError)
                else classify r4
            end
        end
  end.

(** The [while (agentTurnActive)] loop.  Once the described turns are
    used up the model has nothing more to say. *)
Fixpoint turnLoop (turn : Turn) (later : list Turn) (r : Run)
    : Run * option Thrown :=
  match iteration turn r with
  | (r1, Throws e) => (r1, Some e)
  | (r1, Exit) => (r1, None)
  | (r1, Continue) =>
      match later with
      | next :: later' => turnLoop next later' r1
      | [] =>
          match iteration idleTurn r1 with
          | (r2, Throws e) => (r2, Some e)
          | (r2, _) => (r2, None)
          end
      end
  end.

(** The [try] block. *)
Definition tryBlock (turn : Turn) (later : list Turn) (r : Run)
    : Run * option Thrown :=
  match turnLoop turn later r with
  | (r1, Some e) => (r1, Some e)
  | (r1, None) =>
      let '(tk, s) :=
        Task.setTaskStateAndPublishUpdate input_required None true
          (current r1) (ambient r1) in
      (mkRun tk s (aborted r1), None)
  end.

(** The [catch] clause. *)
Definition onError (e : Thrown) (r : Run) : Run :=
  if aborted r then
    let tk := Task.cancelPendingTools "Execution aborted" (current r) in
    if bool_decide
         (Task.taskState tk ≠ canceled ∧ Task.taskState tk ≠ failed)
    then
      let '(tk1, s) :=
        Task.setTaskStateAndPublishUpdate input_required
          (Some "Execution aborted by client.") true tk (ambient r) in
      mkRun tk1 s (aborted r)
    else mkRun tk (ambient r) (aborted r)
  else
    let errorMessage := messageOf "Agent execution error" e in
    let tk := Task.cancelPendingTools errorMessage (current r) in
    if bool_decide (Task.taskState tk ≠ failed) then
      let '(tk1, s) :=
        Task.setTaskStateAndPublishUpdate failed (Some errorMessage) true
          tk (ambient r) in
      mkRun tk1 s (aborted r)
    else mkRun tk (ambient r) (aborted r).

(** [try { ... } catch (error) { ... }] *)
Definition guarded (turn : Turn) (later : list Turn) (r : Run) : Run :=
  match tryBlock turn later r with
  | (r1, Some e) => onError e r1
  | (r1, None) => r1
  end.

(** The loop of a call that finds the task executing: the events are
    pulled and dropped. *)
Fixpoint drain (s : Stream) (r : Run) : Run * option Thrown :=
  match s with
  | StreamEnd i => (interrupted i r, None)
  | StreamThrows i e => (interrupted i r, Some e)
  | StreamYield i _ _ rest => drain rest (interrupted i r)
  end.
End Loop.

Definition isFinal (s : TaskState) : bool :=
  bool_decide (s ∈ [canceled; failed; completed]).

(** The error [execute] makes up when a new task's first message has
    no agent settings. *)
Definition settingsMissing : Thrown :=
  ErrorObject
    "Internal error: AgentSettings not found in the first message of a new task.".

(** How [execute] comes by its task. *)
Inductive Located :=
  | Found (key : string) (tk : Task.t)
  | Reported
  | Escaped (e : Thrown).

Definition locate (env : Env) (rc : RequestContext) (bus : nat)
    (taskId contextId : string) (ex : t) : t * Located :=
  match tasks ex !! taskId with
  | Some tk =>
      let tk' := Task.setEventBus (Some bus) tk in
      (mk (<[taskId := tk']> (tasks ex)) (executingTasks ex) (taskStore ex)
         (sys ex),
       Found taskId tk')
  | None =>
      match task rc with
      | Some sdkTask =>
          match reconstruct sdkTask bus (config env) ex with
          | (ex1, inl tk) => (ex1, Found (sdk_id sdkTask) tk)
          | (ex1, inr e) =>
              (mk (tasks ex1) (executingTasks ex1) (taskStore ex1)
                 (pushTaskStateFailed e bus taskId (sdk_contextId sdkTask)
                    (sys ex1)),
               Reported)
          end
      | None =>
          match coderAgent (userMessage rc) with
          | Some agentSettings =>
              if bool_decide (kind agentSettings ≠ StateAgentSettingsEvent)
              then
                (mk (tasks ex) (executingTasks ex) (taskStore ex)
                   (pushTaskStateFailed
                      settingsMissing
                      bus taskId contextId (sys ex)),
                 Reported)
              else
                match createTask taskId contextId agentSettings bus
                        (config env) (save env) ex with
                | (ex1, inl tk) => (ex1, Found taskId tk)
                | (ex1, inr e) => (ex1, Escaped e)
                end
          | None =>
              (mk (tasks ex) (executingTasks ex) (taskStore ex)
                 (pushTaskStateFailed
                    settingsMissing
                    bus taskId contextId (sys ex)),
               Reported)
          end
      end
  end.

(** Writing the task object back under its key. *)
Definition settled (key : string) (r : Run) (executing : gset string)
    (ex : t) : t :=
  mk (<[key := current r]> (tasks ex)) executing (taskStore ex) (ambient r).

(** The signal can have fired before the loop starts only if the socket
    is at hand and closed while [reconstruct] or [createTask] was
    awaited, that is, when the task was not in memory. *)
Definition abortedEarly (env : Env) (ex : t) (taskId : string) : bool :=
  requestStore env && closedEarly env
    && negb (bool_decide (is_Some (tasks ex !! taskId))).

Definition execute (env : Env) (rc : RequestContext) (bus : nat) (ex : t)
    : t * Completion :=
  let '(taskId, contextId, s0) := resolveIds rc (sys ex) in
  let ex0 := mk (tasks ex) (executingTasks ex) (taskStore ex) s0 in
  let socket := requestStore env in
  match locate env rc bus taskId contextId ex0 with
  | (ex1, Reported) => (ex1, Returned)
  | (ex1, Escaped e) => (ex1, Threw e)
  | (ex1, Found key currentTask) =>
      if isFinal (Task.taskState currentTask) then (ex1, Returned)
      else if bool_decide (taskId ∈ executingTasks ex1) then
        let '(tk0, s1) :=
          Task.acceptUserMessage (userMessage rc)
            (Task.setEventBus (Some bus) currentTask) (sys ex1) in
        let r0 := mkRun tk0 s1 false in
        match drain socket (taskStore ex1) key (events (firstTurn env)) r0 with
        | (r1, Some e) => (settled key r1 (executingTasks ex1) ex1, Threw e)
        | (r1, None) => (settled key r1 (executingTasks ex1) ex1, Returned)
        end
      else
        let '(tk0, s1) :=
          Task.acceptUserMessage (userMessage rc) currentTask (sys ex1) in
        let r0 := mkRun tk0 s1 (abortedEarly env ex0 taskId) in
        let r1 :=
          guarded socket (taskStore ex1) key (firstTurn env)
            (laterTurns env) r0 in
        (settled key r1 ((executingTasks ex1 ∪ {[taskId]}) ∖ {[taskId]}) ex1,
         Returned)
  end.

End CoderAgentExecutor.

Import CoderAgentExecutor.

(** ** Vocabulary of the properties *)

(** Whether [process.cwd()] answers: the path is cached or the
    directory is there. *)
Definition cwdAnswers (w : World) : bool :=
  cwdCached w || bool_decide (is_Some (dirs w !! cwd w)).

(** A world in which the bucket is ready, no request is rejected,
    [tar.c] produces its archive and [process.cwd()] answers. *)
Definition healthy (w : World) : Prop :=
  bucketInitialized w = None ∧ faults w = [] ∧ tarCreates w = true ∧
  cwdAnswers w = true.

(** The upload of the working directory: only if it exists and is not
    empty. *)
Definition workspaceRequests (task : SDKTask) (w : World) : list Op :=
  match dirs w !! cwd w with
  | Some (e :: es) =>
      [PutWorkspace
         (GCSTaskStoreA.getTaskPath (sdk_contextId task) (sdk_id task)
            "workspace.tar.gz") (e :: es)]
  | _ => []
  end.

(** The fourth step in the words of the amended text, not the code's:
    the history messages whose ids the log does not yet hold, in the
    order of the history. *)
Fixpoint unseenMessages (log taskHistory : list Message) : list Message :=
  match taskHistory with
  | [] => []
  | m :: ms =>
      if existsb (λ entry, String.eqb (messageId entry) (messageId m)) log
      then unseenMessages log ms
      else m :: unseenMessages log ms
  end.

(** The write of the context log: only if the task brings messages the
    log does not have. *)
Definition historyRequests (task : SDKTask) (w : World) : list Op :=
  let path := GCSTaskStoreA.getContextHistoryPath (sdk_contextId task) in
  let log := default [] (historyFiles w !! path) in
  match unseenMessages log (default [] (sdk_history task)) with
  | [] => []
  | m :: ms => [PutHistory path (log ++ m :: ms)]
  end.

(** The writes of [save] in the order the specification gives them:
    index entry, snapshot, archive, context log. *)
Definition specSaveRequests (task : SDKTask) (w : World) : list Op :=
  [PutIndex (GCSTaskStoreB.getContextIdIndexPath (sdk_id task))
     (sdk_contextId task);
   PutTask (GCSTaskStoreB.getTaskObjectPath (sdk_contextId task) (sdk_id task))
     task]
  ++ workspaceRequests task w ++ historyRequests task w.

(** The message log of a context as the bucket holds it. *)
Definition contextLog (contextId : string) (w : World) : list Message :=
  default [] (historyFiles w !! GCSTaskStoreA.getContextHistoryPath contextId).

(** How many entries of a log carry the message id [mid]. *)
Definition copies (mid : string) (log : list Message) : nat :=
  length (filter (λ m, messageId m = mid) log).

(** An identifier that is there: defined and not empty. *)
Definition present (o : option string) : option string :=
  match o with
  | Some v => if truthy v then Some v else None
  | None => None
  end.

(** Identifier resolution as the specification words it: the first
    candidate that is present, else a fresh uuid. *)
Definition firstPresent (candidates : list (option string)) (s : Sys)
    : string * Sys :=
  match omap present candidates with
  | v :: _ => (v, s)
  | [] => drawUuid s
  end.

Definition specResolveIds (rc : RequestContext) (s : Sys)
    : string * string * Sys :=
  let '(taskId, s1) :=
    firstPresent [sdk_id <$> task rc; msg_taskId (userMessage rc)] s in
  let '(contextId, s2) :=
    firstPresent [msg_contextId (userMessage rc); sdk_contextId <$> task rc]
      s1 in
  (taskId, contextId, s2).

(** The published events that carry the final flag. *)
Definition finalEvents (l : list (nat * StatusUpdate))
    : list (nat * StatusUpdate) :=
  filter (λ p, ev_final p.2 = true) l.

(** The two states the [catch] clause and [cancelTask] leave alone. *)
Definition halted (tk : Task.t) : Prop :=
  Task.taskState tk = canceled ∨ Task.taskState tk = failed.

#[global] Instance halted_dec tk : Decision (halted tk).
Proof. unfold halted. apply _. Defined.

(** What a concurrent cancel request leaves as it is. *)
Definition frame (tk : Task.t) :=
  (Task.id tk, Task.contextId tk, Task.eventBus tk,
   Task.acceptedMessages tk, Task.toolResponses tk,
   tc_request <$> Task.pendingTools tk).

(** An event as a cancel request publishes it: canceled or failed. *)
Definition fromCancel (p : nat * StatusUpdate) : Prop :=
  ev_state p.2 = canceled ∨ ev_state p.2 = failed.

(** The final events that have gone out since the start are those of
    cancel requests. *)
Definition cancelFinals (finals : list (nat * StatusUpdate)) (r : Run)
    : Prop :=
  ∃ more,
    finalEvents (published (ambient r)) = finals ++ more ∧
    Forall fromCancel more.

(** Invariant of the turn loop until it exits: the task publishes on
    [bus], and final events have gone out since the start exactly if a
    cancel request has halted the task. *)
Definition loopInvariant (bus : nat) (finals : list (nat * StatusUpdate))
    (r : Run) : Prop :=
  Task.eventBus (current r) = Some bus ∧
  ∃ more,
    finalEvents (published (ambient r)) = finals ++ more ∧
    if decide (halted (current r)) then more ≠ [] else more = [].

(** How a stream ends when it is pulled to its end. *)
Fixpoint streamOutcome (s : Stream) : option Thrown :=
  match s with
  | StreamEnd _ => None
  | StreamThrows _ e => Some e
  | StreamYield _ _ _ rest => streamOutcome rest
  end.

(** The call reaches the turn loop: the task is found, rebuilt or created
    under [key], it is not final and not executing, and [r0] is the state
    in which the [try] block starts. *)
Definition entersLoop (env : Env) (rc : RequestContext) (bus : nat)
    (ex : CoderAgentExecutor.t) (taskId key : string)
    (ex1 : CoderAgentExecutor.t) (r0 : Run) : Prop :=
  ∃ contextId s0 tk tk0 s1,
    let ex0 := mk (tasks ex) (executingTasks ex) (taskStore ex) s0 in
    (resolveIds rc (sys ex) = (taskId, contextId, s0) ∧
     locate env rc bus taskId contextId ex0 = (ex1, Found key tk) ∧
     isFinal (Task.taskState tk) = false ∧
     (taskId ∉ executingTasks ex1) ∧
     Task.acceptUserMessage (userMessage rc) tk (sys ex1) = (tk0, s1) ∧
     r0 = mkRun tk0 s1 (abortedEarly env ex0 taskId)).

(** ** Concrete worlds and scenes *)

Definition msg1 : Message := mkMessage "msg1" user "hello" None None None.

Definition msg2 : Message := mkMessage "msg2" agent "done" None None None.

Definition task1 : SDKTask :=
  mkSDKTask "task1" "ctx1" working None (Some [msg1]).

(** A snapshot of task1 with a history of two messages. *)
Definition task3 : SDKTask :=
  mkSDKTask "task1" "ctx1" working None (Some [msg1; msg2]).

(** A bucket whose log of ctx1 has msg1, next to a working directory
    with one file. *)
Definition world7 : World :=
  mkWorld None ∅ ∅ ∅ {["contexts/ctx1/context_history.json" := [msg1]]} []
    "/ws" "/tmp" {["/ws" := ["file1.txt"]]} true 0 [] false.

(** An empty bucket whose working directory is gone, its path not
    cached. *)
Definition world8 : World :=
  mkWorld None ∅ ∅ ∅ ∅ [] "/ws" "/tmp" ∅ true 0 [] false.

(** An empty bucket next to a working directory with one file. *)
Definition world0 : World :=
  mkWorld None ∅ ∅ ∅ ∅ [] "/ws" "/tmp" {["/ws" := ["file1.txt"]]} true 0 []
    false.

(** A bucket with the index entry of task1 and nothing else. *)
Definition world1 : World :=
  mkWorld None {["tasks/task1/contextId.txt" := "ctx1"]} ∅ ∅ ∅ [] "/ws" "/tmp"
    ∅ true 0 [] false.

(** A bucket whose log of ctx1 already has msg1; the working directory
    is gone, its path cached. *)
Definition world2 : World :=
  mkWorld None ∅ ∅ ∅ {["contexts/ctx1/context_history.json" := [msg1]]} []
    "/ws" "/tmp" ∅ true 0 [] true.

Definition workspaceSettings : AgentSettings :=
  mkAgentSettings StateAgentSettingsEvent "/ws".

(** The first message of a new task T1 in context C1. *)
Definition firstRequest : RequestContext :=
  mkRequestContext
    (mkMessage "m1" user "hello" (Some "T1") (Some "C1")
       (Some workspaceSettings))
    None.

(** A request that carries a snapshot and a message with other ids. *)
Definition snapshotRequest : RequestContext :=
  mkRequestContext
    (mkMessage "m2" user "continue" (Some "T-msg") (Some "C-msg") None)
    (Some (mkSDKTask "T-snap" "C-snap" input_required None None)).

Definition emptyExecutor : CoderAgentExecutor.t :=
  mk ∅ ∅ false (mkSys [] 0 []).

Definition toolX : ToolCallRequestInfo := mkToolCallRequestInfo "c1" "X" "{}".

(** The model asks for tool X; the client goes away while it is pending. *)
Definition disconnectEnv : Env :=
  mkEnv true None None false
    (mkTurn
       (StreamYield quiet (ToolCallRequest toolX) (mkAwait quiet None)
          (StreamEnd quiet))
       (mkAwait quiet None)
       (mkAwait (mkInterrupt true None)
          (Some (ErrorObject "The operation was aborted")))
       (λ _, settled_success))
    [].

(** The model asks for tool X; while it is pending a cancel request for
    the task is served, whose [save] rejects, and the client goes away. *)
Definition cancelledDisconnectEnv : Env :=
  mkEnv true None None false
    (mkTurn
       (StreamYield quiet (ToolCallRequest toolX) (mkAwait quiet None)
          (StreamEnd quiet))
       (mkAwait quiet None)
       (mkAwait
          (mkInterrupt true
             (Some (mkCancelRequest 8 (Some (ErrorObject "bucket unavailable")))))
          None)
       (λ _, settled_success))
    [].

(** An executor with a store and no task. *)
Definition storeExecutor : CoderAgentExecutor.t :=
  mk ∅ ∅ true (mkSys [] 0 []).

(** The model asks for tool X, then its stream breaks. *)
Definition brokenEnv : Env :=
  mkEnv true None None false
    (mkTurn
       (StreamYield quiet (ToolCallRequest toolX) (mkAwait quiet None)
          (StreamThrows quiet (ErrorObject "model unavailable")))
       (mkAwait quiet None) (mkAwait quiet None) (λ _, settled_success))
    [].

(** The model answers with one piece of text. *)
Definition quietEnv : Env :=
  mkEnv true None None false
    (mkTurn
       (StreamYield quiet (Content "noted") (mkAwait quiet None)
          (StreamEnd quiet))
       (mkAwait quiet None) (mkAwait quiet None) (λ _, settled_success))
    [].

(** T1 in the middle of a turn, waiting for tool X. *)
Definition runningTask : Task.t :=
  Task.mk "T1" "C1" working workspaceSettings (Some 5)
    [mkToolCall toolX tool_pending None] [] [] [] [].

Definition busyExecutor : CoderAgentExecutor.t :=
  mk {["T1" := runningTask]} {["T1"]} false (mkSys [] 0 []).

Definition followUp : RequestContext :=
  mkRequestContext
    (mkMessage "m2" user "also this" (Some "T1") (Some "C1") None) None.

Definition pendingCall : ToolCall :=
  mkToolCall (mkToolCallRequestInfo "call1" "shell" "{}") tool_pending None.

(** A registered task that has reached [completed] with a tool call
    still on its books. *)
Definition completedTask : Task.t :=
  Task.mk "task1" "ctx1" completed workspaceSettings (Some 0)
    [pendingCall] [] [] [] [].

Definition completedExecutor : CoderAgentExecutor.t :=
  mk {["task1" := completedTask]} ∅ false (mkSys [] 0 []).

(** A request that brings the snapshot of a task persisted as completed. *)
Definition completedSnapshotRequest : RequestContext :=
  mkRequestContext
    (mkMessage "m3" user "resume" (Some "task1") (Some "ctx1") None)
    (Some (mkSDKTask "task1" "ctx1" completed
             (Some (mkPersistedState workspaceSettings completed))
             (Some []))).

(** The bucket of [world2] when the third request to come is rejected. *)
Definition world3 : World :=
  mkWorld None ∅ ∅ ∅ {["contexts/ctx1/context_history.json" := [msg1]]}
    [false; false; true] "/ws" "/tmp" ∅ true 0 [] true.

(** ** Further vocabulary: the store *)

(** A method leaves the part [f] of the world as it found it, however it
    ends. *)
Definition keeps {A X} (f : World → X) (m : M A) : Prop :=
  ∀ w, f (m w).1 = f w.

(** The objects of the bucket and the log of write requests. *)
Definition bucketObjects (w : World) :=
  (indexFiles w, taskFiles w, workspaceFiles w, historyFiles w, requests w).

(** Every index entry points at a snapshot that is there. *)
Definition indexed (w : World) : Prop :=
  ∀ taskId contextId,
    indexFiles w !! GCSTaskStoreA.getIndexPath taskId = Some contextId →
    is_Some (taskFiles w
               !! GCSTaskStoreA.getTaskPath contextId taskId "task.json").

(** [initializeBucket] of the revision with the context log
    (unnamed/part_001, lines 38-62): what [getBuckets] answers, what
    [createBucket] would answer, and from these whether a bucket gets
    created and the message the initialization rejects with, if it does. *)
Definition initializeBucketA (bucketName : string)
    (getBuckets : list string + Thrown) (createBucket : option Thrown)
    : bool * option string :=
  let failure e :=
    Some ("Failed to initialize GCS bucket " +:+ bucketName +:+ ": "
            +:+ messageOf "Unknown GCS error" e) in
  match getBuckets with
  | inr e => (false, failure e)
  | inl buckets =>
      if bool_decide (bucketName ∈ buckets) then (false, None)
      else
        match createBucket with
        | None => (true, None)
        | Some e => (false, failure e)
        end
  end.

(** The constructor of [GCSTaskStore]: it refuses an empty bucket name,
    and otherwise hands out a store whose [bucketInitialized] promise is
    that of [initializeBucket]. *)
Definition newGCSTaskStoreA (bucketName : string)
    (getBuckets : list string + Thrown) (createBucket : option Thrown)
    (w : World) : Result World :=
  if negb (truthy bucketName) then Err "GCS bucket name is required."
  else
    Ok (mkWorld (initializeBucketA bucketName getBuckets createBucket).2
          (indexFiles w) (taskFiles w) (workspaceFiles w) (historyFiles w)
          (faults w) (cwd w) (tmpdir w) (dirs w) (tarCreates w) (uuids w)
          (requests w) (cwdCached w)).

(** The index and the snapshots of the bucket. *)
Definition catalogue (w : World) := (indexFiles w, taskFiles w).

(** A bucket in which the second request to come is rejected; the
    working directory is gone, its path cached. *)
Definition world4 : World :=
  mkWorld None ∅ ∅ ∅ ∅ [false; true] "/ws" "/tmp" ∅ true 0 [] true.

(** A snapshot of task1 that carries its persisted state. *)
Definition task2 : SDKTask :=
  mkSDKTask "task1" "ctx1" input_required
    (Some (mkPersistedState workspaceSettings input_required))
    (Some [msg1; msg2]).

(** A bucket with the index entry and the snapshot of task1; the third
    request to come is rejected. *)
Definition world5 : World :=
  mkWorld None {["tasks/task1/contextId.txt" := "ctx1"]}
    {["contexts/ctx1/task1/task.json" := task1]} ∅ ∅ [false; false; true]
    "/ws" "/tmp" {["/ws" := ["file1.txt"]]} true 0 [] false.

(** ** Further vocabulary: the executor *)

(** What names a task and where it publishes. *)
Definition identity (tk : Task.t) :=
  (Task.id tk, Task.contextId tk, Task.eventBus tk).

(** From [r] to [r'] the task keeps its identity, events are only added,
    and without a socket at hand the abort signal stays as it is. *)
Definition advances (socket : bool) (r r' : Run) : Prop :=
  identity (current r') = identity (current r) ∧
  published (ambient r) `prefix_of` published (ambient r') ∧
  (socket = false → aborted r' = aborted r).

(** The states in which a call that ran the turn loop leaves its task. *)
Definition restingState (s : TaskState) : Prop :=
  s = input_required ∨ s = canceled ∨ s = failed.

(** The executor of [busyExecutor] with a store. *)
Definition storedExecutor : CoderAgentExecutor.t :=
  mk {["T1" := runningTask]} ∅ true (mkSys [] 0 []).

(** A request that names a task nobody knows and brings no settings. *)
Definition strayRequest : RequestContext :=
  mkRequestContext
    (mkMessage "m9" user "hello" (Some "T9") (Some "C9") None) None.

(** A backend whose [taskStore.save] rejects. *)
Definition saveFailsEnv : Env :=
  mkEnv true None (Some (ErrorObject "bucket unavailable")) false
    (firstTurn quietEnv) [].

(** A model whose stream breaks, and no request store at hand. *)
Definition detachedEnv : Env :=
  mkEnv false None None false (firstTurn brokenEnv) [].

(** Truthiness of an identifier or a setting that may be missing. *)
Definition isSet (o : option string) : bool :=
  match o with
  | Some v => truthy v
  | None => false
  end.

(** ** The HTTP application (http/app.ts, the revision with the history
    route: unnamed/part_003) *)

Module App.

(** Which class the task store is an instance of. *)
Inductive TaskStoreKind := GCSStore | InMemoryStore.

Inductive Body :=
  | HistoryBody (history : list Message)
  | ErrorBody (error : string).

Record Response := mkResponse {
  status : nat;
  body : Body
}.

(** The choice of the store in [createApp], from the value of
    [GCS_BUCKET_NAME]; an error is what the surrounding [catch] gets. *)
Definition createApp (bucketName : option string)
    (getBuckets : list string + Thrown) (createBucket : option Thrown)
    (w : World) : Result (TaskStoreKind * World) :=
  match bucketName with
  | Some name =>
      if truthy name then
        match newGCSTaskStoreA name getBuckets createBucket w with
        | Ok w1 => Ok (GCSStore, w1)
        | Err e => Err e
        end
      else Ok (InMemoryStore, w)
  | None => Ok (InMemoryStore, w)
  end.

(** The handler of [GET /contexts/:contextId/history]. *)
Definition historyRoute (taskStore : TaskStoreKind) (contextId : string)
    (w : World) : World * Response :=
  match taskStore with
  | InMemoryStore =>
      (w, mkResponse 501
            (ErrorBody
               "Context history is only available when using GCSTaskStore."))
  | GCSStore =>
      match GCSTaskStoreA.getContextHistory contextId w with
      | (w1, Ok history) => (w1, mkResponse 200 (HistoryBody history))
      | (w1, Err _) =>
          (w1, mkResponse 500 (ErrorBody "Failed to fetch context history."))
      end
  end.

End App.

(** ** The terminal client (utils/client-cli.ts) *)

Module ClientCli.

(** The two module-level variables; [None] is [null]. *)
Record Session := mkSession {
  currentTaskId : option string;
  currentContextId : option string
}.

(** What the agent's stream yields, with the fields the client reads. *)
Inductive StreamEvent :=
  | StatusUpdateEvent (taskId contextId : option string) (state : string)
      (final : bool)
  | ArtifactUpdateEvent (taskId contextId : option string)
  | MessageEvent (taskId contextId : option string)
  | TaskEvent (id : string) (contextId : option string)
  | UnknownEvent.

(** [if (x && x !== current) current = x] *)
Definition adopt (candidate current : option string) : option string :=
  if isSet candidate && bool_decide (candidate ≠ current) then candidate
  else current.

(** The body of the [for await] in [handleStream]. *)
Definition handleEvent (event : StreamEvent) (s : Session) : Session :=
  match event with
  | StatusUpdateEvent taskId contextId state final =>
      let contextId' := adopt contextId (currentContextId s) in
      let taskId' := adopt taskId (currentTaskId s) in
      if final && negb (String.eqb state "input-required")
      then mkSession None contextId'
      else mkSession taskId' contextId'
  | ArtifactUpdateEvent taskId contextId =>
      mkSession (adopt taskId (currentTaskId s))
        (adopt contextId (currentContextId s))
  | MessageEvent taskId contextId =>
      mkSession (adopt taskId (currentTaskId s))
        (adopt contextId (currentContextId s))
  | TaskEvent id contextId =>
      mkSession
        (if bool_decide (Some id ≠ currentTaskId s) then Some id
         else currentTaskId s)
        (adopt contextId (currentContextId s))
  | UnknownEvent => s
  end.

(** [handleStream] over the events that arrive; an error of the stream
    is caught after them and changes nothing. *)
Definition handleStream (events : list StreamEvent) (s : Session) : Session :=
  foldl (λ s event, handleEvent event s) s events.

Record Settings := mkSettings {
  settingsKind : string;
  settingsWorkspacePath : string
}.

Record Payload := mkPayload {
  payloadMessageId : string;
  payloadText : string;
  payloadTaskId : option string;
  payloadContextId : option string;
  payloadCoderAgent : option Settings
}.

(** The message the [line] handler builds for an input that is not a
    command. *)
Definition messagePayload (messageId input cwd : string) (s : Session)
    : Payload :=
  mkPayload messageId input
    (if isSet (currentTaskId s) then currentTaskId s else None)
    (if isSet (currentContextId s) then currentContextId s else None)
    (if negb (isSet (currentTaskId s))
     then Some (mkSettings "agent-settings" cwd) else None).

(** What [fetch] of the history URL comes to. *)
Inductive FetchResult :=
  | FetchRejects
  | FetchResponds (response : App.Response).

(** What [client.getTask] comes to: a rejection, an answer with an
    [error] member, or the task with its status. *)
Inductive GetTaskResponse :=
  | GetTaskRejects
  | RpcError
  | TaskDetails (state : string).

(** [response.ok] *)
Definition ok (r : App.Response) : bool :=
  (200 <=? App.status r) && (App.status r <=? 299).

(** [resumeLastTaskInContext].  Every way out of the [try] block but
    the resumption sets [currentTaskId] to null: the 404 branch, the
    empty history, the history without task ids, the final status, and
    the [catch] clause (a rejection, another status, a body that is not
    an array of messages, an RPC error). *)
Definition resumeLastTaskInContext (fetchHistory : string → FetchResult)
    (getTask : string → GetTaskResponse) (s : Session) : Session :=
  match currentContextId s with
  | None => s
  | Some contextId =>
      if negb (truthy contextId) then s
      else
        let cleared := mkSession None (currentContextId s) in
        match fetchHistory contextId with
        | FetchRejects => cleared
        | FetchResponds response =>
            if negb (ok response) then cleared
            else
              match App.body response with
              | App.ErrorBody _ => cleared
              | App.HistoryBody history =>
                  if bool_decide (length history = 0) then cleared
                  else
                    match List.find (λ m, isSet (msg_taskId m))
                            (reverse history) with
                    | None => cleared
                    | Some lastMessageWithTask =>
                        match msg_taskId lastMessageWithTask with
                        | None => cleared
                        | Some lastTaskId =>
                            match getTask lastTaskId with
                            | TaskDetails taskStatus =>
                                if String.eqb taskStatus "input-required"
                                   || String.eqb taskStatus "working"
                                then mkSession (Some lastTaskId)
                                       (currentContextId s)
                                else cleared
                            | _ => cleared
                            end
                        end
                    end
              end
        end
  end.

(** The [/enter] command. *)
Definition enter (contextId : option string)
    (fetchHistory : string → FetchResult)
    (getTask : string → GetTaskResponse) (s : Session) : Session :=
  if negb (isSet contextId) then s
  else
    resumeLastTaskInContext fetchHistory getTask
      (mkSession (currentTaskId s) contextId).

End ClientCli.

(** A context log whose last message with a task id names T1. *)
Definition historyOfC1 : list Message :=
  [mkMessage "m1" user "hello" (Some "T0") (Some "C1") None;
   mkMessage "m2" agent "done" (Some "T1") (Some "C1") None;
   mkMessage "m3" agent "note" None (Some "C1") None].

(** A bucket that holds this log. *)
Definition world6 : World :=
  mkWorld None ∅ ∅ ∅ {["contexts/C1/context_history.json" := historyOfC1]} []
    "/ws" "/tmp" ∅ true 0 [] false.

(** A session in context C1 with no task. *)
Definition sessionC1 : ClientCli.Session := ClientCli.mkSession None (Some "C1").

(** * Properties of the durable store *)

Ltac store_unfold :=
  cbv [GCSTaskStoreA.save GCSTaskStoreA.saveWorkspace
       GCSTaskStoreA.appendHistory GCSTaskStoreA.readHistory
       GCSTaskStoreA.upload GCSTaskStoreA.load
       GCSTaskStoreA.restoreWorkspace GCSTaskStoreA.getContextHistory
       GCSTaskStoreB.save GCSTaskStoreB.saveWorkspace GCSTaskStoreB.load
       GCSTaskStoreB.restoreWorkspace
       bind ret throw tryCatch ensureBucketInitialized request getCwd
       pathExists readdir saveIndexFile saveTaskFile uploadWorkspace
       saveHistoryFile fileExists download getTmpArchiveFilename tarCreate
       logRequest ensureDir tarExtract setDir cwdAnswers];
  cbn [bucketInitialized indexFiles taskFiles workspaceFiles historyFiles
       faults cwd tmpdir dirs tarCreates uuids requests cwdCached fst snd
       negb orb length].

Ltac store_simpl := repeat progress store_unfold.

Ltac store_case :=
  store_simpl;
  match goal with
  | |- context [bool_decide (is_Some (Some ?x))] =>
      rewrite (bool_decide_true (is_Some (Some x))) by (by eexists)
  | |- context [bool_decide (is_Some (@None ?A))] =>
      rewrite (bool_decide_false (is_Some (@None A))) by (by intros [? ?])
  | |- context [bool_decide (0 < 0)] =>
      rewrite (bool_decide_false (0 < 0)) by lia
  | |- context [bool_decide (0 < S ?n)] =>
      rewrite (bool_decide_true (0 < S n)) by lia
  | H : ?x = _ |- context [?x] => rewrite H
  end.

Section StoreProofs.
Variable setTargetDir : TargetDirArg → string.

Lemma existsb_messageId (log : list Message) mid :
  existsb (λ entry, String.eqb (messageId entry) mid) log = true
  ↔ mid ∈ messageId <$> log.
Proof.
  induction log as [|entry log IH]; cbn.
  - split; [done|]. by intros ?%elem_of_nil.
  - rewrite orb_true_iff, IH, elem_of_cons, String.eqb_eq.
    split; (intros [->|?]; [by left|by right]).
Qed.

(** The code's selection of the messages to append is the one the
    amended text words. *)
Lemma newMessages_unseen log taskHistory :
  GCSTaskStoreA.newMessages log taskHistory = unseenMessages log taskHistory.
Proof.
  unfold GCSTaskStoreA.newMessages.
  induction taskHistory as [|m ms IH]; [done|].
  cbn [unseenMessages]. rewrite filter_cons, IH.
  destruct (existsb _ log) eqn:He.
  - apply existsb_messageId in He. by rewrite decide_False by (by intros ?).
  - rewrite decide_True; [done|].
    intros Hin%existsb_messageId. congruence.
Qed.

(** Claim C7, as amended.  With the bucket ready, no request rejected
    and [tar.c] producing its archive, [save] rejects a task without a
    context identifier and writes nothing; and it rejects, before any
    write, when [process.cwd()] cannot answer.  Otherwise it succeeds,
    and the revision with the context log writes the snapshot, then the
    archive of the working directory (only if the directory exists and
    is not empty), then the index entry, then the context log extended
    by the history messages whose ids it did not hold; the index-first
    revision writes the index entry, then the snapshot, then the archive
    under the same condition, and leaves every context log as it was. *)
Theorem save_request_order task w :
  bucketInitialized w = None → faults w = [] → tarCreates w = true →
  let taskId := sdk_id task in
  let contextId := sdk_contextId task in
  if truthy contextId then
    if cwdAnswers w then
      (GCSTaskStoreA.save task w).2 = Ok () ∧
      requests (GCSTaskStoreA.save task w).1 =
        requests w
          ++ [PutTask (GCSTaskStoreA.getTaskPath contextId taskId "task.json")
                task]
          ++ workspaceRequests task w
          ++ [PutIndex (GCSTaskStoreA.getIndexPath taskId) contextId]
          ++ historyRequests task w ∧
      (GCSTaskStoreB.save task w).2 = Ok () ∧
      requests (GCSTaskStoreB.save task w).1 =
        requests w
          ++ [PutIndex (GCSTaskStoreB.getContextIdIndexPath taskId) contextId;
              PutTask (GCSTaskStoreB.getTaskObjectPath contextId taskId) task]
          ++ workspaceRequests task w ∧
      historyFiles (GCSTaskStoreB.save task w).1 = historyFiles w
    else
      GCSTaskStoreA.save task w = (w, Err cwdGone) ∧
      GCSTaskStoreB.save task w = (w, Err cwdGone)
  else
    GCSTaskStoreA.save task w
      = (w, Err ("Task " +:+ taskId +:+ " is missing a contextId.")) ∧
    GCSTaskStoreB.save task w
      = (w, Err ("Task " +:+ taskId +:+ " is missing contextId.")).
Proof.
  destruct w as [bi idx tf wf hf fl cw tmp ds tar uu rq cc].
  cbn [bucketInitialized faults tarCreates]. intros -> -> ->.
  cbv zeta. destruct (truthy (sdk_contextId task)) eqn:Hc.
  2: { split; store_simpl; by rewrite Hc. }
  unfold workspaceRequests, historyRequests, cwdAnswers;
    cbn [dirs cwd historyFiles cwdCached].
  rewrite <- !newMessages_unseen.
  destruct cc;
    destruct (ds !! cw) as [[|e es]|] eqn:Hd;
    destruct (hf !! GCSTaskStoreA.getContextHistoryPath (sdk_contextId task))
      as [log|] eqn:Hh;
    destruct (sdk_history task) as [[|m ms]|] eqn:Hs;
    cbv [default from_option id]; cbn [orb];
    repeat store_case;
    try (destruct (GCSTaskStoreA.newMessages _ (m :: ms)) as [|n ns] eqn:Hn);
    repeat store_case; store_simpl; cbn [app];
    rewrite <- ?app_assoc; cbn [app]; rewrite ?Hn; done.
Qed.

(** Claim C8, as amended.  With a ready bucket and no rejected request,
    [load] returns not-found in both revisions when the index entry is
    absent.  When the index entry is there and the snapshot is not, the
    index-first revision raises the inconsistent-state error, and the
    revision with the context log returns not-found. *)
Theorem load_missing_objects taskId w :
  bucketInitialized w = None → faults w = [] →
  match indexFiles w !! GCSTaskStoreB.getContextIdIndexPath taskId with
  | None =>
      GCSTaskStoreA.load setTargetDir taskId w = (w, Ok None) ∧
      GCSTaskStoreB.load setTargetDir taskId w = (w, Ok None)
  | Some contextId =>
      taskFiles w !! GCSTaskStoreB.getTaskObjectPath contextId taskId = None →
      GCSTaskStoreB.load setTargetDir taskId w
        = (w, Err ("Inconsistent state: Task object not found for task "
                     +:+ taskId)) ∧
      GCSTaskStoreA.load setTargetDir taskId w = (w, Ok None)
  end.
Proof.
  destruct w as [bi idx tf wf hf fl cw tmp ds tar uu rq cc].
  cbn [bucketInitialized faults indexFiles taskFiles]; intros -> ->.
  change (GCSTaskStoreB.getContextIdIndexPath taskId)
    with (GCSTaskStoreA.getIndexPath taskId).
  destruct (idx !! GCSTaskStoreA.getIndexPath taskId) as [contextId|] eqn:Hi.
  - change (GCSTaskStoreB.getTaskObjectPath contextId taskId)
      with (GCSTaskStoreA.getTaskPath contextId taskId "task.json").
    intros Ht. split.
    + store_unfold.
      change (GCSTaskStoreB.getContextIdIndexPath taskId)
        with (GCSTaskStoreA.getIndexPath taskId).
      repeat store_case. store_simpl.
      change (GCSTaskStoreB.getTaskObjectPath contextId taskId)
        with (GCSTaskStoreA.getTaskPath contextId taskId "task.json").
      repeat store_case. by store_simpl.
    + repeat store_case. by store_simpl.
  - split.
    + repeat store_case. by store_simpl.
    + store_unfold.
      change (GCSTaskStoreB.getContextIdIndexPath taskId)
        with (GCSTaskStoreA.getIndexPath taskId).
      repeat store_case. by store_simpl.
Qed.

Lemma newMessages_known mid log taskHistory :
  mid ∈ messageId <$> log →
  filter (λ m, messageId m = mid) (GCSTaskStoreA.newMessages log taskHistory)
    = [].
Proof.
  intros Hin. unfold GCSTaskStoreA.newMessages.
  induction taskHistory as [|m ms IH]; [done|].
  rewrite filter_cons. case_decide as Hm; [|done].
  rewrite filter_cons. case_decide as Hmid; [|done].
  by subst.
Qed.

Lemma filter_none {A} (P : A → Prop) `{!∀ x, Decision (P x)} (l : list A) :
  (∀ x, x ∈ l → ¬ P x) → filter P l = [].
Proof.
  induction l as [|a l IH]; intros Hl; [done|].
  rewrite filter_cons_False by (apply Hl; left).
  apply IH. intros x Hx. apply Hl. by right.
Qed.

Lemma newMessages_covered log taskHistory :
  GCSTaskStoreA.newMessages (log ++ GCSTaskStoreA.newMessages log taskHistory)
    taskHistory = [].
Proof.
  unfold GCSTaskStoreA.newMessages.
  apply filter_none. intros m Hm Hnew. apply Hnew.
  rewrite fmap_app, elem_of_app.
  destruct (decide (messageId m ∈ messageId <$> log)) as [Hin|Hout];
    [by left|].
  right. apply list_elem_of_fmap. exists m. split; [done|].
  by apply list_elem_of_filter.
Qed.

Lemma save_contextLog task w :
  faults w = [] →
  let contextId := sdk_contextId task in
  let log := contextLog contextId w in
  let new := GCSTaskStoreA.newMessages log (default [] (sdk_history task)) in
  let w1 := (GCSTaskStoreA.save task w).1 in
  faults w1 = [] ∧
  (contextLog contextId w1 = log ∨ contextLog contextId w1 = log ++ new) ∧
  ((GCSTaskStoreA.save task w).2 = Ok () →
   contextLog contextId w1 = log ++ new).
Proof.
  destruct w as [bi idx tf wf hf fl cw tmp ds tar uu rq cc].
  cbn [faults]; intros ->. cbv zeta. unfold contextLog. cbn [historyFiles].
  destruct bi as [e|]; [store_simpl; naive_solver|].
  destruct (truthy (sdk_contextId task)) eqn:Hc;
    [|store_simpl; rewrite Hc; store_simpl; naive_solver].
  destruct cc; destruct (ds !! cw) as [[|e es]|] eqn:Hd; destruct tar;
    destruct (hf !! GCSTaskStoreA.getContextHistoryPath (sdk_contextId task))
      as [log|] eqn:Hh;
    destruct (sdk_history task) as [[|m ms]|] eqn:Hs;
    cbv [default from_option id];
    repeat store_case;
    try (destruct (GCSTaskStoreA.newMessages _ (m :: ms)) as [|n ns] eqn:Hn);
    repeat store_case; store_simpl;
    rewrite ?lookup_insert_eq, ?Hh, ?app_nil_r; cbn [app];
    naive_solver.
Qed.

Lemma copies_app mid l1 l2 :
  copies mid (l1 ++ l2) = copies mid l1 + copies mid l2.
Proof. unfold copies. by rewrite filter_app, length_app. Qed.

(** Claim C9.  When no request to the bucket is rejected, a save of a task
    does not change how many entries of the context log carry a message id
    the log already has; and once a save has succeeded, saving the same
    task again leaves the context log as it is. *)
Theorem history_append_idempotent task w mid :
  faults w = [] →
  let contextId := sdk_contextId task in
  let w1 := (GCSTaskStoreA.save task w).1 in
  (mid ∈ messageId <$> contextLog contextId w →
   copies mid (contextLog contextId w1)
     = copies mid (contextLog contextId w)) ∧
  ((GCSTaskStoreA.save task w).2 = Ok () →
   contextLog contextId (GCSTaskStoreA.save task w1).1
     = contextLog contextId w1).
Proof.
  intros Hf contextId w1.
  destruct (save_contextLog task w Hf) as (Hf1 & Hlog & Hok).
  fold contextId in Hlog, Hok. fold w1 in Hf1, Hlog, Hok. split.
  - intros Hin. destruct Hlog as [->| ->]; [done|].
    rewrite copies_app. unfold copies at 2.
    rewrite newMessages_known by done. simpl. lia.
  - intros Hres. specialize (Hok Hres).
    destruct (save_contextLog task w1 Hf1) as (_ & [H2|H2] & _);
      fold contextId in H2; [done|].
    rewrite H2, Hok, newMessages_covered. by rewrite app_nil_r.
Qed.

End StoreProofs.

(** Claim C7 as stated fails: saving task1 into the empty bucket, neither
    revision issues index, snapshot, archive, log in that order; and
    with the working directory gone and its path not cached, the save is
    not carried out without the archive but rejected. *)
Lemma save_request_order_counterexample :
  healthy world0 ∧ truthy (sdk_contextId task1) = true ∧
  requests (GCSTaskStoreA.save task1 world0).1
    ≠ requests world0 ++ specSaveRequests task1 world0 ∧
  requests (GCSTaskStoreB.save task1 world0).1
    ≠ requests world0 ++ specSaveRequests task1 world0 ∧
  dirs world8 !! cwd world8 = None ∧
  (GCSTaskStoreA.save task1 world8).2 ≠ Ok () ∧
  (GCSTaskStoreB.save task1 world8).2 ≠ Ok ().
Proof.
  split; [by repeat split|]. split; [done|].
  split; [vm_compute; intros H; discriminate H|].
  split; [vm_compute; intros H; discriminate H|].
  split; [reflexivity|].
  split; vm_compute; intros H; discriminate H.
Qed.

(** The amended C7 at a task with two history messages and a bucket
    whose log has the first of them, and at a working directory that is
    gone. *)
Lemma save_request_order_witness :
  requests (GCSTaskStoreA.save task3 world7).1
    = [PutTask "contexts/ctx1/task1/task.json" task3;
       PutWorkspace "contexts/ctx1/task1/workspace.tar.gz" ["file1.txt"];
       PutIndex "tasks/task1/contextId.txt" "ctx1";
       PutHistory "contexts/ctx1/context_history.json" [msg1; msg2]] ∧
  requests (GCSTaskStoreB.save task3 world7).1
    = [PutIndex "tasks/task1/contextId.txt" "ctx1";
       PutTask "contexts/ctx1/task1/task.json" task3;
       PutWorkspace "contexts/ctx1/task1/workspace.tar.gz" ["file1.txt"]] ∧
  GCSTaskStoreA.save task3 world8
    = (world8, Err "ENOENT: no such file or directory, uv_cwd") ∧
  GCSTaskStoreB.save task3 world8
    = (world8, Err "ENOENT: no such file or directory, uv_cwd").
Proof.
  pose proof (save_request_order task3 world7 eq_refl eq_refl eq_refl) as H7.
  pose proof (save_request_order task3 world8 eq_refl eq_refl eq_refl) as H8.
  cbv zeta in H7, H8.
  change (truthy (sdk_contextId task3)) with true in H7, H8.
  change (cwdAnswers world7) with true in H7.
  change (cwdAnswers world8) with false in H8.
  destruct H7 as (_ & HA & _ & HB & _).
  split; [rewrite HA; reflexivity|]. split; [rewrite HB; reflexivity|].
  exact H8.
Defined.

(** Claim C8 as stated fails on the revision with the context log: with
    an index entry and no snapshot its [load] returns not-found and raises
    nothing. *)
Lemma load_missing_objects_counterexample :
  indexFiles world1 !! GCSTaskStoreA.getIndexPath "task1" = Some "ctx1" ∧
  taskFiles world1 !! GCSTaskStoreA.getTaskPath "ctx1" "task1" "task.json"
    = None ∧
  GCSTaskStoreA.load (λ _, "/ws") "task1" world1 = (world1, Ok None) ∧
  ¬ ∃ e, (GCSTaskStoreA.load (λ _, "/ws") "task1" world1).2 = Err e.
Proof.
  split; [reflexivity|]. split; [reflexivity|]. split; [reflexivity|].
  intros [e He]. vm_compute in He. discriminate He.
Qed.

(** The amended C8 at a bucket that holds only the index entry. *)
Lemma load_missing_objects_witness :
  GCSTaskStoreB.load (λ _, "/ws") "task1" world1
    = (world1, Err "Inconsistent state: Task object not found for task task1").
Proof.
  pose proof (load_missing_objects (λ _, "/ws") "task1" world1
                eq_refl eq_refl) as H.
  change (indexFiles world1 !! GCSTaskStoreB.getContextIdIndexPath "task1")
    with (Some "ctx1") in H.
  exact (proj1 (H eq_refl)).
Defined.

(** C9 at a log that already holds msg1. *)
Lemma history_append_idempotent_witness :
  copies "msg1" (contextLog "ctx1" (GCSTaskStoreA.save task1 world2).1) = 1.
Proof.
  refine (eq_trans
            (proj1 (history_append_idempotent task1 world2 "msg1" eq_refl) _)
            _).
  - vm_compute. by left.
  - reflexivity.
Defined.

(** What a rejected request can do: when the read of the context log is
    rejected and the write that follows is not, the log is rewritten from
    the task's own history. *)
Lemma rejected_read_rewrites_log :
  let task := mkSDKTask "task1" "ctx1" working None (Some [msg2]) in
  contextLog "ctx1" world3 = [msg1] ∧
  (GCSTaskStoreA.save task world3).2 = Ok () ∧
  contextLog "ctx1" (GCSTaskStoreA.save task world3).1 = [msg2].
Proof. by vm_compute. Qed.

(** * Properties of the executor *)

(** Claim C5.  For a task id that is not registered, [cancelTask]
    returns normally, changes neither the registry nor the executing set,
    and publishes exactly one event on the bus it was given: a failed
    status update with the final flag, whose message is the agent's, has
    the text "Task <id> not found." and carries the task id. *)
Theorem cancelTask_unknown save taskId bus ex :
  tasks ex !! taskId = None →
  let s := sys ex in
  let ev :=
    mkStatusUpdate taskId (uuidv4 (nextUuid s)) failed
      (Some (mkMessage (uuidv4 (S (nextUuid s))) agent
               ("Task " +:+ taskId +:+ " not found.") (Some taskId)
               None None))
      true in
  cancelTask save taskId bus ex
    = (mk (tasks ex) (executingTasks ex) (taskStore ex)
         (mkSys (published s ++ [(bus, ev)]) (S (S (nextUuid s))) (saved s)),
       Returned).
Proof. intros H. unfold cancelTask. by rewrite H. Qed.

(** C5 at an executor without tasks. *)
Lemma cancelTask_unknown_witness :
  cancelTask None "ghost" 3 emptyExecutor
    = (mk ∅ ∅ false
         (mkSys
            [(3, mkStatusUpdate "ghost" "uuid-0" failed
                   (Some (mkMessage "uuid-1" agent "Task ghost not found."
                            (Some "ghost") None None))
                   true)]
            2 []),
       Returned).
Proof. exact (cancelTask_unknown None "ghost" 3 emptyExecutor eq_refl). Defined.

Lemma orElse_firstPresent a b s :
  orElse a (orElse b drawUuid) s = firstPresent [a; b] s.
Proof.
  unfold orElse, firstPresent, present; simpl.
  destruct a as [va|]; [destruct (truthy va)|]; try done;
    destruct b as [vb|]; try done; by destruct (truthy vb).
Qed.

(** Claim C10.  [execute] resolves the two identifiers as the
    specification words it: the task id from the snapshot if present, else
    from the message, else fresh; the context id from the message if
    present, else from the snapshot, else fresh.  In particular, when the
    snapshot and the message both carry identifiers, the task id is the
    snapshot's and the context id is the message's. *)
Theorem resolveIds_precedence rc s :
  resolveIds rc s = specResolveIds rc s ∧
  ∀ sdkTask tid cid,
    task rc = Some sdkTask →
    msg_taskId (userMessage rc) = Some tid →
    msg_contextId (userMessage rc) = Some cid →
    truthy (sdk_id sdkTask) = true →
    truthy cid = true →
    resolveIds rc s = (sdk_id sdkTask, cid, s).
Proof.
  split.
  - unfold resolveIds, specResolveIds. rewrite orElse_firstPresent.
    destruct (firstPresent _ s) as [taskId s1].
    by rewrite orElse_firstPresent.
  - intros sdkTask tid cid Ht Hm Hc Hid Hcid.
    unfold resolveIds, orElse. rewrite Ht, Hc. simpl. by rewrite Hid, Hcid.
Qed.

(** C10 at a request whose snapshot and message disagree. *)
Lemma resolveIds_precedence_witness :
  resolveIds snapshotRequest (mkSys [] 0 [])
    = ("T-snap", "C-msg", mkSys [] 0 []).
Proof.
  exact (proj2 (resolveIds_precedence snapshotRequest (mkSys [] 0 []))
           _ "T-msg" "C-msg" eq_refl eq_refl eq_refl eq_refl eq_refl).
Defined.

(** For a task that is canceled or failed, [cancelTask] publishes its
    state again as a final event and changes nothing else. *)
Lemma cancelTask_final save taskId bus ex tk :
  tasks ex !! taskId = Some tk →
  Task.taskState tk = canceled ∨ Task.taskState tk = failed →
  let s := sys ex in
  let ev :=
    mkStatusUpdate taskId (Task.contextId tk) (Task.taskState tk)
      (Some (agentMessage (uuidv4 (nextUuid s))
               ("Task " +:+ taskId +:+ " is already "
                  +:+ stateName (Task.taskState tk) +:+ ".") taskId))
      true in
  cancelTask save taskId bus ex
    = (mk (tasks ex) (executingTasks ex) (taskStore ex)
         (mkSys (published s ++ [(bus, ev)]) (S (nextUuid s)) (saved s)),
       Returned).
Proof.
  intros Hl Hs. unfold cancelTask, cancelKnown. rewrite Hl.
  rewrite bool_decide_true by done. cbn. by rewrite insert_id.
Qed.

Lemma resolveIds_published rc s taskId contextId s0 :
  resolveIds rc s = (taskId, contextId, s0) →
  published s0 = published s ∧ saved s0 = saved s.
Proof.
  unfold resolveIds, orElse, drawUuid. intros H.
  repeat case_match; simplify_eq; done.
Qed.

(** [execute] on a registered task in one of the three final states
    publishes nothing, schedules nothing and leaves the state alone; only
    the task's bus is set to the one of the request. *)
Lemma execute_final_noop env rc bus ex taskId contextId s0 tk :
  resolveIds rc (sys ex) = (taskId, contextId, s0) →
  tasks ex !! taskId = Some tk →
  isFinal (Task.taskState tk) = true →
  execute env rc bus ex
    = (mk (<[taskId := Task.setEventBus (Some bus) tk]> (tasks ex))
         (executingTasks ex) (taskStore ex) s0,
       Returned).
Proof.
  intros Hr Hl Hf. unfold execute. rewrite Hr. unfold locate. cbn [tasks].
  rewrite Hl. cbn. by rewrite Hf.
Qed.

(** Claim C1 at its failing input.  A registered task in the final state
    [completed] is not left alone by [cancelTask]: its state becomes
    canceled and its pending tool call is cancelled. *)
Lemma cancel_completed_not_sticky :
  isFinal (Task.taskState completedTask) = true ∧
  let ex' := (cancelTask None "task1" 7 completedExecutor).1 in
  tasks completedExecutor !! "task1" = Some completedTask ∧
  Task.taskState <$> tasks ex' !! "task1" = Some canceled ∧
  Task.pendingTools <$> tasks ex' !! "task1"
    = Some [mkToolCall (tc_request pendingCall) tool_cancelled
              (Some "Task canceled by user request.")].
Proof. by vm_compute. Qed.

(** Claim C6 at its failing input.  For a registered task in the final
    state [completed], [cancelTask] does not publish the existing state
    again: the one event it publishes announces canceled, and the task is
    no longer completed. *)
Lemma cancel_completed_not_republished :
  isFinal (Task.taskState completedTask) = true ∧
  let ex' := (cancelTask None "task1" 7 completedExecutor).1 in
  published (sys ex')
    = [(0, mkStatusUpdate "task1" "ctx1" canceled
             (Some (agentMessage "uuid-0" "Task canceled by user request."
                      "task1"))
             true)] ∧
  Task.taskState <$> tasks ex' !! "task1" ≠ Some completed.
Proof. by vm_compute. Qed.

(** A completed task comes to be registered when [execute] is handed its
    snapshot: the call rebuilds it and returns without publishing.  A
    cancel request then moves it to canceled. *)
Lemma completed_snapshot_then_cancel :
  let ex1 := (execute quietEnv completedSnapshotRequest 4 emptyExecutor).1 in
  Task.taskState <$> tasks ex1 !! "task1" = Some completed ∧
  published (sys ex1) = [] ∧
  Task.taskState <$> tasks (cancelTask None "task1" 7 ex1).1 !! "task1"
    = Some canceled.
Proof. by vm_compute. Qed.

(** Scenario A: the first message of a new task yields working status
    updates and then one final input-required update. *)
Lemma first_message_scene :
  let out := execute quietEnv firstRequest 5 emptyExecutor in
  out.2 = Returned ∧
  executingTasks out.1 = ∅ ∧
  Task.taskState <$> tasks out.1 !! "T1" = Some input_required ∧
  published (sys out.1)
    = [(5, mkStatusUpdate "T1" "C1" working None false);
       (5, mkStatusUpdate "T1" "C1" working
             (Some (agentMessage "uuid-0" "noted" "T1")) false);
       (5, mkStatusUpdate "T1" "C1" input_required None true)].
Proof. by vm_compute. Qed.

(** [createTask] is called outside the [try] block: when the configuration
    of a new task fails to load, the error leaves [execute] and nothing
    is published. *)
Lemma createTask_error_escapes e :
  let env := mkEnv true (Some e) None false (firstTurn quietEnv) [] in
  execute env firstRequest 5 emptyExecutor = (emptyExecutor, Threw e).
Proof. reflexivity. Qed.

(** ** The turn loop *)

Lemma finalEvents_snoc l bus ev :
  finalEvents (l ++ [(bus, ev)])
    = finalEvents l ++ (if ev_final ev then [(bus, ev)] else []).
Proof.
  unfold finalEvents. rewrite filter_app. f_equal.
  rewrite filter_cons, filter_nil. simpl.
  destruct (ev_final ev); by case_decide.
Qed.

Section LoopFacts.
Variables (socket store : bool) (key : string).

Lemma cancelTool_request reason tc :
  tc_request (Task.cancelTool reason tc) = tc_request tc.
Proof. unfold Task.cancelTool. by destruct (tc_status tc). Qed.

Lemma cancelPendingTools_requests reason tk :
  tc_request <$> Task.pendingTools (Task.cancelPendingTools reason tk)
    = tc_request <$> Task.pendingTools tk.
Proof.
  unfold Task.cancelPendingTools; simpl. rewrite <- list_fmap_compose.
  apply list_fmap_ext. intros ? tc ?. apply cancelTool_request.
Qed.

Lemma cancelKnown_spec save bus tk s tk' s' :
  cancelKnown store save key bus tk s = (tk', s') →
  frame tk' = frame tk ∧ halted tk'.
Proof.
  unfold cancelKnown, frame, halted. intros H.
  case_bool_decide as Hh.
  - simplify_eq/=. done.
  - unfold Task.setTaskStateAndPublishUpdate in H. cbn in H.
    pose proof (cancelPendingTools_requests
                  "Task canceled by user request." tk) as Hreq.
    destruct store; [destruct save|]; simplify_eq/=; rewrite Hreq; auto.
Qed.

(** A cancel request always leaves at least one final event behind. *)
Lemma cancelKnown_finals save bus tk s tk' s' b :
  Task.eventBus tk = Some b →
  cancelKnown store save key bus tk s = (tk', s') →
  ∃ more, more ≠ [] ∧
    finalEvents (published s') = finalEvents (published s) ++ more.
Proof.
  unfold cancelKnown. intros Hb H. case_bool_decide as Hh.
  - simplify_eq/=. rewrite finalEvents_snoc. cbn.
    eexists; split; last reflexivity; done.
  - unfold Task.setTaskStateAndPublishUpdate, Task.publishUpdate in H.
    cbn in H. rewrite Hb in H.
    destruct store; [destruct save|]; simplify_eq/=;
      rewrite ?finalEvents_snoc; cbn; rewrite <- ?app_assoc;
      (eexists; split; last reflexivity; done).
Qed.

Lemma interrupted_frame i r :
  frame (current (interrupted socket store key i r)) = frame (current r).
Proof.
  unfold interrupted. destruct (cancelRequest i) as [c|]; [|done].
  destruct (cancelKnown _ _ _ _ _ _) as [tk' s'] eqn:Hc.
  apply cancelKnown_spec in Hc as [Hf _]. done.
Qed.

Lemma interrupted_aborted i r :
  aborted (interrupted socket store key i r)
    = aborted r || (socket && socketCloses i).
Proof.
  unfold interrupted. destruct (cancelRequest i) as [c|]; [|done].
  by destruct (cancelKnown _ _ _ _ _ _).
Qed.

Section Invariant.
Variables (bus : nat) (finals : list (nat * StatusUpdate)).

Lemma inv_interrupted i r :
  loopInvariant bus finals r →
  loopInvariant bus finals (interrupted socket store key i r).
Proof.
  intros (Hb & more & Hf & Hm). split.
  - pose proof (interrupted_frame i r) as Hfr. unfold frame in Hfr.
    congruence.
  - unfold interrupted. destruct (cancelRequest i) as [c|]; [|by eauto].
    destruct (cancelKnown _ _ _ _ _ _) as [tk' s'] eqn:Hc.
    destruct (cancelKnown_finals _ _ _ _ _ _ _ Hb Hc) as (more' & Hne & Hf').
    apply cancelKnown_spec in Hc as [_ Hh]. cbn.
    exists (more ++ more'). rewrite Hf', Hf, app_assoc. split; [done|].
    rewrite decide_True by done. by destruct more.
Qed.

Lemma inv_acceptAgentMessage ev tk s a tk' s' a' :
  Task.acceptAgentMessage ev tk s = (tk', s') →
  loopInvariant bus finals (mkRun tk s a) →
  loopInvariant bus finals (mkRun tk' s' a').
Proof.
  unfold Task.acceptAgentMessage, loopInvariant. cbn.
  intros H (Hb & more & Hf & Hm).
  simplify_eq. split; [done|]. exists more.
  unfold Task.publishUpdate. rewrite Hb. cbn.
  rewrite finalEvents_snoc. cbn. by rewrite app_nil_r.
Qed.

Lemma inv_consume s reqs r r' res :
  consume socket store key s reqs r = (r', res) →
  loopInvariant bus finals r → loopInvariant bus finals r'.
Proof.
  revert reqs r. induction s as [i|i e|i ev acc rest IH]; intros reqs r H Hi;
    cbn [consume] in H.
  - simplify_eq. by apply inv_interrupted.
  - simplify_eq. by apply inv_interrupted.
  - pose proof (inv_interrupted i r Hi) as H1.
    destruct (aborted (interrupted socket store key i r)); [by simplify_eq|].
    destruct ev as [v|c|ty]; [by apply (IH _ _ H)| |].
    all: pose proof (inv_interrupted (interrupt acc) _ H1) as H2;
      destruct (rejects acc); [by simplify_eq|];
      destruct (Task.acceptAgentMessage _ _ _) as [tk s'] eqn:Ha;
      apply (IH _ _ H);
      apply (inv_acceptAgentMessage _ _ _
               (aborted (interrupted socket store key (interrupt acc)
                           (interrupted socket store key i r)))
               _ _ _ Ha);
      by destruct (interrupted socket store key (interrupt acc) _).
Qed.

Lemma inv_scheduleBatch a reqs r r' res :
  scheduleBatch socket store key a reqs r = (r', res) →
  loopInvariant bus finals r → loopInvariant bus finals r'.
Proof.
  unfold scheduleBatch. intros H Hi. case_bool_decide; [|by simplify_eq].
  pose proof (inv_interrupted (interrupt a) r Hi) as H1.
  destruct (rejects a); simplify_eq; done.
Qed.

Lemma inv_classify r r' step :
  classify r = (r', step) →
  loopInvariant bus finals r → step ≠ Exit → loopInvariant bus finals r'.
Proof.
  unfold classify. cbn. intros H Hi Hs.
  repeat case_match; simplify_eq; done.
Qed.

Lemma inv_iteration turn r r' step :
  iteration socket store key turn r = (r', step) →
  loopInvariant bus finals r → step ≠ Exit → loopInvariant bus finals r'.
Proof.
  unfold iteration. intros H Hi Hs.
  destruct (consume _ _ _ _ _ _) as [r1 [e|reqs]] eqn:Hc;
    pose proof (inv_consume _ _ _ _ _ Hc Hi) as H1; [by simplify_eq|].
  destruct (aborted r1); [by simplify_eq|].
  destruct (scheduleBatch _ _ _ _ _ _) as [r2 [e|]] eqn:Hb;
    pose proof (inv_scheduleBatch _ _ _ _ _ Hb H1) as H2; [by simplify_eq|].
  pose proof (inv_interrupted (interrupt (wait turn)) r2 H2) as H3.
  destruct (rejects (wait turn)); [by simplify_eq|].
  cbn [aborted] in H.
  destruct (aborted (interrupted socket store key _ r2));
    [by simplify_eq|].
  by apply (inv_classify _ _ _ H).
Qed.

Lemma inv_turnLoop turn later r r' e :
  turnLoop socket store key turn later r = (r', Some e) →
  loopInvariant bus finals r → loopInvariant bus finals r'.
Proof.
  revert turn r. induction later as [|next later IH]; intros turn r H Hi;
    cbn [turnLoop] in H;
    destruct (iteration socket store key turn r) as [r1 [| |e1]] eqn:Hit.
  - destruct (iteration socket store key idleTurn r1) as [r2 [| |e2]] eqn:Hid;
      simplify_eq.
    eapply inv_iteration; [exact Hid| |done].
    by eapply inv_iteration.
  - done.
  - simplify_eq. by eapply inv_iteration.
  - eapply IH; [exact H|]. by eapply inv_iteration.
  - done.
  - simplify_eq. by eapply inv_iteration.
Qed.

End Invariant.

Lemma classify_aborted r r' step :
  classify r = (r', step) → aborted r' = aborted r.
Proof.
  unfold classify. cbn. intros H. repeat case_match; by simplify_eq.
Qed.

Lemma iteration_aborted turn r r' step :
  iteration socket store key turn r = (r', step) →
  (∀ e, step ≠ Throws e) → aborted r' = false.
Proof.
  unfold iteration. intros H Hs.
  destruct (consume _ _ _ _ _ _) as [r1 [e|reqs]];
    [simplify_eq; by destruct (Hs e)|].
  destruct (aborted r1); [simplify_eq; by destruct (Hs abortedError)|].
  destruct (scheduleBatch _ _ _ _ _ _) as [r2 [e|]];
    [simplify_eq; by destruct (Hs e)|].
  destruct (rejects (wait turn)) as [e|]; [simplify_eq; by destruct (Hs e)|].
  cbn [aborted] in H.
  destruct (aborted (interrupted socket store key _ r2)) eqn:Ha;
    [simplify_eq; by destruct (Hs abortedError)|].
  apply classify_aborted in H. by rewrite H.
Qed.

Lemma turnLoop_aborted turn later r r' :
  turnLoop socket store key turn later r = (r', None) → aborted r' = false.
Proof.
  revert turn r. induction later as [|next later IH]; intros turn r H;
    cbn [turnLoop] in H;
    destruct (iteration socket store key turn r) as [r1 [| |e1]] eqn:Hit;
    try done.
  - destruct (iteration socket store key idleTurn r1) as [r2 [| |e2]] eqn:Hid;
      simplify_eq; by eapply iteration_aborted.
  - simplify_eq. by eapply iteration_aborted.
  - by eapply IH.
  - simplify_eq. by eapply iteration_aborted.
Qed.

Lemma tryBlock_thrown turn later r r' e :
  tryBlock socket store key turn later r = (r', Some e) →
  turnLoop socket store key turn later r = (r', Some e).
Proof.
  unfold tryBlock. destruct (turnLoop _ _ _ _ _ _) as [r1 [e1|]]; [done|].
  by destruct (Task.setTaskStateAndPublishUpdate _ _ _ _ _).
Qed.

Lemma tryBlock_aborted turn later r r' :
  tryBlock socket store key turn later r = (r', None) → aborted r' = false.
Proof.
  unfold tryBlock.
  destruct (turnLoop _ _ _ _ _ _) as [r1 [e1|]] eqn:Ht; [done|].
  destruct (Task.setTaskStateAndPublishUpdate _ _ _ _ _). intros ?; simplify_eq.
  cbn. by eapply turnLoop_aborted.
Qed.

Lemma settleTool_settled settle tc :
  Task.isSettled (Task.settleTool settle tc) = true.
Proof.
  unfold Task.isSettled, Task.settleTool.
  destruct (tc_status tc) eqn:E; cbn; rewrite ?E; try done.
  by destruct (settle (tc_request tc)).
Qed.

Lemma waitForPendingTools_none_pending settle tk :
  List.filter (λ tc, negb (Task.isSettled tc))
    (Task.pendingTools (Task.waitForPendingTools settle tk)) = [].
Proof.
  unfold Task.waitForPendingTools. cbn.
  induction (Task.pendingTools tk) as [|tc l IH]; [done|].
  cbn. by rewrite settleTool_settled.
Qed.

Lemma classify_continue r r' :
  classify r = (r', Continue) →
  Task.pendingTools (current r')
    = List.filter (λ tc, negb (Task.isSettled tc))
        (Task.pendingTools (current r)).
Proof.
  unfold classify, Task.getAndClearCompletedTools. intros H.
  repeat case_match; by simplify_eq.
Qed.

(** Once the described turns are used up, one idle pass ends the loop. *)
Lemma idle_iteration_exits turn r r1 :
  iteration socket store key turn r = (r1, Continue) →
  ∃ r2, iteration socket store key idleTurn r1 = (r2, Exit).
Proof.
  intros H.
  assert (Ha : aborted r1 = false) by (by eapply iteration_aborted).
  assert (Hp : Task.pendingTools (current r1) = []).
  { unfold iteration in H.
    destruct (consume _ _ _ _ _ _) as [r' [e|reqs]]; [done|].
    destruct (aborted r'); [done|].
    destruct (scheduleBatch _ _ _ _ _ _) as [r2 [e|]]; [done|].
    destruct (rejects (wait turn)); [done|].
    cbn [aborted] in H. destruct (aborted _); [done|].
    apply classify_continue in H. cbn [current] in H.
    by rewrite H, waitForPendingTools_none_pending. }
  destruct r1 as [[] s a]. cbn in Ha, Hp. subst.
  destruct socket; cbn; eauto.
Qed.

End LoopFacts.

(** ** The call that runs the loop *)

Lemma foldl_addHistory_eventBus (ms : list Message) tk :
  Task.eventBus (foldl (λ tk m, Task.addHistory (modelEntry m) tk) tk ms)
    = Task.eventBus tk.
Proof.
  revert tk. induction ms as [|m ms IH]; intros tk; [done|].
  cbn. by rewrite IH.
Qed.

Lemma locate_found env rc bus taskId contextId ex ex1 key tk :
  locate env rc bus taskId contextId ex = (ex1, Found key tk) →
  Task.eventBus tk = Some bus ∧ published (sys ex1) = published (sys ex) ∧
  tasks ex1 !! key = Some tk.
Proof.
  unfold locate, reconstruct, createTask. intros H.
  repeat case_match; simplify_eq; cbn;
    rewrite ?foldl_addHistory_eventBus, ?lookup_insert_eq; done.
Qed.

Lemma acceptUserMessage_spec m tk s tk0 s1 bus :
  Task.acceptUserMessage m tk s = (tk0, s1) →
  Task.eventBus tk = Some bus →
  Task.eventBus tk0 = Some bus ∧
  Task.taskState tk0 = working ∧
  finalEvents (published s1) = finalEvents (published s) ∧
  Task.acceptedMessages tk0 = Task.acceptedMessages tk ++ [m] ∧
  Task.pendingTools tk0 = Task.pendingTools tk ∧
  Task.toolResponses tk0 = Task.toolResponses tk.
Proof.
  unfold Task.acceptUserMessage, Task.setTaskStateAndPublishUpdate,
    Task.publishUpdate. cbn. intros H Hb. simplify_eq. cbn. rewrite Hb. cbn.
  rewrite finalEvents_snoc. cbn. by rewrite app_nil_r.
Qed.

Lemma entersLoop_execute env rc bus ex taskId key ex1 r0 :
  entersLoop env rc bus ex taskId key ex1 r0 →
  execute env rc bus ex
    = (settled key
         (guarded (requestStore env) (taskStore ex1) key (firstTurn env)
            (laterTurns env) r0)
         ((executingTasks ex1 ∪ {[taskId]}) ∖ {[taskId]}) ex1,
       Returned) ∧
  loopInvariant bus (finalEvents (published (sys ex))) r0.
Proof.
  intros (contextId & s0 & tk & tk0 & s1 & Hr & Hl & Hf & He & Ha & ->).
  unfold execute. rewrite Hr, Hl, Hf. rewrite bool_decide_false by done.
  rewrite Ha. split; [done|]. unfold loopInvariant. cbn.
  apply locate_found in Hl as (Hb & Hp & _). cbn in Hp.
  apply resolveIds_published in Hr as [Hr _].
  eapply acceptUserMessage_spec in Ha as (Hb0 & Hst & Hfin & _); [|done].
  split; [done|]. exists []. rewrite Hfin, Hp, Hr, app_nil_r. split; [done|].
  rewrite decide_False; [done|]. unfold halted. rewrite Hst. by intros [?|?].
Qed.

Lemma cancelPendingTools_settled reason tk :
  Forall (λ tc, tc_status tc ≠ tool_pending)
    (Task.pendingTools (Task.cancelPendingTools reason tk)).
Proof.
  unfold Task.cancelPendingTools. cbn. apply Forall_fmap, Forall_forall.
  intros tc _. unfold Task.cancelTool. cbn.
  by destruct (tc_status tc) eqn:E; cbn; rewrite ?E.
Qed.

(** The first message of a new task reaches the turn loop whenever the
    configuration loads. *)
Lemma firstRequest_entersLoop env :
  config env = None →
  entersLoop env firstRequest 5 emptyExecutor "T1" "T1"
    (locate env firstRequest 5 "T1" "C1" emptyExecutor).1
    (mkRun
       (Task.acceptUserMessage (userMessage firstRequest)
          (Task.create "T1" "C1" workspaceSettings (Some 5)) (mkSys [] 0 [])).1
       (Task.acceptUserMessage (userMessage firstRequest)
          (Task.create "T1" "C1" workspaceSettings (Some 5)) (mkSys [] 0 [])).2
       (abortedEarly env emptyExecutor "T1")).
Proof.
  destruct env as [rs cfg sv ce ft lt]. cbn [config]. intros ->.
  exists "C1", (mkSys [] 0 []),
    (Task.create "T1" "C1" workspaceSettings (Some 5)).
  eexists _, _. cbv zeta.
  split; [reflexivity|]. split; [reflexivity|].
  split; [reflexivity|]. split; [cbn; set_solver|].
  split; reflexivity.
Qed.

Section CancelFinals.
Variables (socket store : bool) (key : string).
Variable finals : list (nat * StatusUpdate).

Lemma cancelKnown_fromCancel save bus tk s tk' s' :
  cancelKnown store save key bus tk s = (tk', s') →
  ∃ more,
    finalEvents (published s') = finalEvents (published s) ++ more ∧
    Forall fromCancel more.
Proof.
  unfold cancelKnown, fromCancel. intros H. case_bool_decide as Hh.
  - simplify_eq/=. rewrite finalEvents_snoc. cbn.
    eexists; split; [reflexivity|]. by apply Forall_singleton.
  - unfold Task.setTaskStateAndPublishUpdate, Task.publishUpdate in H.
    cbn in H.
    destruct (Task.eventBus tk);
      (destruct store; [destruct save|]); simplify_eq/=;
      rewrite ?finalEvents_snoc; cbn; rewrite <- ?app_assoc;
      first
        [ by (exists []; rewrite app_nil_r; split; [done|constructor])
        | eexists; split; [reflexivity|];
          repeat (apply Forall_cons_2; [cbn; auto|]);
          apply Forall_nil_2 ].
Qed.

Lemma cf_interrupted i r :
  cancelFinals finals r →
  cancelFinals finals (interrupted socket store key i r).
Proof.
  intros (more & Hf & Hm). unfold interrupted.
  destruct (cancelRequest i) as [c|]; [|by exists more].
  destruct (cancelKnown _ _ _ _ _ _) as [tk' s'] eqn:Hc.
  apply cancelKnown_fromCancel in Hc as (more' & Hf' & Hm').
  unfold cancelFinals. cbn [ambient current aborted].
  exists (more ++ more'). rewrite Hf', Hf, app_assoc. split; [done|].
  by apply Forall_app.
Qed.

Lemma cf_acceptAgentMessage ev tk s a tk' s' a' :
  Task.acceptAgentMessage ev tk s = (tk', s') →
  cancelFinals finals (mkRun tk s a) → cancelFinals finals (mkRun tk' s' a').
Proof.
  unfold Task.acceptAgentMessage, cancelFinals, Task.publishUpdate. cbn.
  intros H (more & Hf & Hm). simplify_eq. exists more.
  destruct (Task.eventBus tk'); cbn; [|done].
  rewrite finalEvents_snoc. cbn. by rewrite app_nil_r.
Qed.

Lemma cf_consume s reqs r r' res :
  consume socket store key s reqs r = (r', res) →
  cancelFinals finals r → cancelFinals finals r'.
Proof.
  revert reqs r. induction s as [i|i e|i ev acc rest IH]; intros reqs r H Hi;
    cbn [consume] in H.
  - simplify_eq. by apply cf_interrupted.
  - simplify_eq. by apply cf_interrupted.
  - pose proof (cf_interrupted i r Hi) as H1.
    destruct (aborted (interrupted socket store key i r)); [by simplify_eq|].
    destruct ev as [v|c|ty]; [by apply (IH _ _ H)| |].
    all: pose proof (cf_interrupted (interrupt acc) _ H1) as H2;
      destruct (rejects acc); [by simplify_eq|];
      destruct (Task.acceptAgentMessage _ _ _) as [tk s'] eqn:Ha;
      apply (IH _ _ H);
      apply (cf_acceptAgentMessage _ _ _
               (aborted (interrupted socket store key (interrupt acc)
                           (interrupted socket store key i r)))
               _ _ _ Ha);
      by destruct (interrupted socket store key (interrupt acc) _).
Qed.

Lemma cf_classify r r' step :
  classify r = (r', step) →
  cancelFinals finals r → step ≠ Exit → cancelFinals finals r'.
Proof.
  unfold classify, cancelFinals. cbn. intros H Hi Hs.
  repeat case_match; simplify_eq; done.
Qed.

Lemma cf_iteration turn r r' step :
  iteration socket store key turn r = (r', step) →
  cancelFinals finals r → step ≠ Exit → cancelFinals finals r'.
Proof.
  unfold iteration. intros H Hi Hs.
  destruct (consume _ _ _ _ _ _) as [r1 [e|reqs]] eqn:Hc;
    pose proof (cf_consume _ _ _ _ _ Hc Hi) as H1; [by simplify_eq|].
  destruct (aborted r1); [by simplify_eq|].
  assert (cancelFinals finals
            (scheduleBatch socket store key (schedule turn) reqs r1).1) as H2.
  { unfold scheduleBatch. case_bool_decide; [|done].
    pose proof (cf_interrupted (interrupt (schedule turn)) r1 H1) as Hq.
    by destruct (rejects (schedule turn)). }
  destruct (scheduleBatch _ _ _ _ _ _) as [r2 [e|]]; [by simplify_eq|].
  cbn [fst] in H2.
  pose proof (cf_interrupted (interrupt (wait turn)) r2 H2) as H3.
  destruct (rejects (wait turn)); [by simplify_eq|].
  cbn [aborted] in H.
  destruct (aborted (interrupted socket store key _ r2));
    [by simplify_eq|].
  by apply (cf_classify _ _ _ H).
Qed.

Lemma cf_turnLoop turn later r r' e :
  turnLoop socket store key turn later r = (r', Some e) →
  cancelFinals finals r → cancelFinals finals r'.
Proof.
  revert turn r. induction later as [|next later IH]; intros turn r H Hi;
    cbn [turnLoop] in H;
    destruct (iteration socket store key turn r) as [r1 [| |e1]] eqn:Hit.
  - destruct (iteration socket store key idleTurn r1) as [r2 [| |e2]] eqn:Hid;
      simplify_eq.
    eapply cf_iteration; [exact Hid| |done].
    by eapply cf_iteration.
  - done.
  - simplify_eq. by eapply cf_iteration.
  - eapply IH; [exact H|]. by eapply cf_iteration.
  - done.
  - simplify_eq. by eapply cf_iteration.
Qed.

End CancelFinals.

(** At the start of the [try] block no final event of the call has gone
    out yet. *)
Lemma entersLoop_cancelFinals env rc bus ex taskId key ex1 r0 :
  entersLoop env rc bus ex taskId key ex1 r0 →
  cancelFinals (finalEvents (published (sys ex))) r0.
Proof.
  intros (contextId & s0 & tk & tk0 & s1 & Hr & Hl & Hf & He & Ha & ->).
  apply locate_found in Hl as (Hb & Hp & _). cbn in Hp.
  apply resolveIds_published in Hr as [Hr _].
  eapply acceptUserMessage_spec in Ha as (_ & _ & Hfin & _); [|done].
  exists []. cbn. rewrite Hfin, Hp, Hr, app_nil_r. by split.
Qed.

(** Claim C2, as amended.  Take a call of [execute] that reaches the turn
    loop, and let the cancellation signal have fired by the time the
    [try] block is left.  Then the block was left by an exception, every
    tool call that was still pending is cancelled with the reason
    "Execution aborted", and
    - if the task is not canceled or failed, its state becomes
      input-required, the last event published is a final status update
      of the agent with the text "Execution aborted by client." and the
      task's id, and that is the only final event of the call;
    - if it is, the state stays, the [catch] clause publishes and saves
      nothing, and the final events that have gone out during the call
      are those of cancel requests: at least one, each with the state
      canceled or failed. *)
Theorem abort_is_reported env rc bus ex taskId key ex1 r0 r1 res :
  entersLoop env rc bus ex taskId key ex1 r0 →
  tryBlock (requestStore env) (taskStore ex1) key (firstTurn env)
    (laterTurns env) r0 = (r1, res) →
  aborted r1 = true →
  let tk1 := current r1 in
  let ex' := (execute env rc bus ex).1 in
  let ev :=
    mkStatusUpdate (Task.id tk1) (Task.contextId tk1) input_required
      (Some (mkMessage (uuidv4 (nextUuid (ambient r1))) agent
               "Execution aborted by client." (Some (Task.id tk1)) None None))
      true in
  res ≠ None ∧
  ∃ tk2,
    tasks ex' !! key = Some tk2 ∧
    Task.pendingTools tk2
      = Task.cancelTool "Execution aborted" <$> Task.pendingTools tk1 ∧
    Forall (λ tc, tc_status tc ≠ tool_pending) (Task.pendingTools tk2) ∧
    if decide (halted tk1) then
      Task.taskState tk2 = Task.taskState tk1 ∧ sys ex' = ambient r1 ∧
      ∃ more, more ≠ [] ∧ Forall fromCancel more ∧
        finalEvents (published (sys ex'))
          = finalEvents (published (sys ex)) ++ more
    else
      Task.taskState tk2 = input_required ∧
      published (sys ex') = published (ambient r1) ++ [(bus, ev)] ∧
      finalEvents (published (sys ex'))
        = finalEvents (published (sys ex)) ++ [(bus, ev)].
Proof.
  intros Hin Ht Ha tk1 ex' ev.
  destruct (entersLoop_execute _ _ _ _ _ _ _ _ Hin) as (Hex & Hi0).
  pose proof (entersLoop_cancelFinals _ _ _ _ _ _ _ _ Hin) as Hc0.
  destruct res as [e|]; [|apply tryBlock_aborted in Ht; congruence].
  split; [done|].
  subst ex'. rewrite Hex. cbn [fst]. unfold guarded. rewrite Ht.
  unfold settled. cbn [tasks sys]. rewrite lookup_insert_eq.
  eexists; split; [done|].
  apply tryBlock_thrown in Ht.
  pose proof (inv_turnLoop _ _ _ _ _ _ _ _ _ _ Ht Hi0)
    as (Hb1 & more & Hfin & Hm).
  pose proof (cf_turnLoop _ _ _ _ _ _ _ _ _ Ht Hc0) as (more' & Hfin' & Hm').
  assert (more' = more) as ->
    by (rewrite Hfin in Hfin'; by apply app_inv_head in Hfin').
  subst tk1 ev. destruct r1 as [tk1 s1 a1]. cbn in *. subst a1.
  unfold onError. cbn.
  destruct (decide (halted tk1)) as [Hh|Hh].
  - rewrite bool_decide_false by (intros [? ?]; destruct Hh; done).
    cbn. split; [done|]. split; [apply cancelPendingTools_settled|].
    split; [done|]. split; [done|]. by exists more.
  - rewrite bool_decide_true
      by (split; intros ?; apply Hh; [by left|by right]).
    subst more. rewrite app_nil_r in Hfin.
    unfold Task.setTaskStateAndPublishUpdate, Task.publishUpdate. cbn.
    rewrite Hb1. cbn. split; [done|].
    split; [apply cancelPendingTools_settled|].
    split; [done|]. split; [done|].
    rewrite finalEvents_snoc. cbn. by rewrite Hfin.
Qed.

(** Claim C2 as stated fails: when a cancel request is served while tool
    X is pending and the client goes away, the signal fires and the call
    ends with the task canceled and with two final events, the canceled
    update of the cancel request and the failed update of its rejected
    [save]; none of them notes the abort. *)
Lemma abort_is_reported_counterexample :
  let env := cancelledDisconnectEnv in
  let out := execute env firstRequest 5 storeExecutor in
  (∃ ex1 r0 r1 e,
     entersLoop env firstRequest 5 storeExecutor "T1" "T1" ex1 r0 ∧
     tryBlock (requestStore env) (taskStore ex1) "T1" (firstTurn env)
       (laterTurns env) r0 = (r1, Some e) ∧
     aborted r1 = true) ∧
  out.2 = Returned ∧
  Task.taskState <$> tasks out.1 !! "T1" = Some canceled ∧
  finalEvents (published (sys out.1))
    = [(5, mkStatusUpdate "T1" "C1" canceled
             (Some (mkMessage "uuid-0" agent "Task canceled by user request."
                      (Some "T1") None None))
             true);
       (8, mkStatusUpdate "T1" "C1" failed
             (Some (mkMessage "uuid-1" agent
                      "Failed to process cancellation for task T1: bucket unavailable"
                      (Some "T1") None None))
             true)].
Proof.
  cbv zeta. split; [|by vm_compute].
  eexists _, _, _, _. split; [|split].
  - exists "C1", (mkSys [] 0 []),
      (Task.create "T1" "C1" workspaceSettings (Some 5)).
    eexists _, _. cbv zeta.
    split; [reflexivity|]. split; [reflexivity|].
    split; [reflexivity|]. split; [cbn; apply not_elem_of_empty|].
    split; reflexivity.
  - reflexivity.
  - reflexivity.
Qed.

(** The amended C2 at the scene of a client that goes away while tool X
    is pending. *)
Lemma abort_is_reported_witness :
  ∃ tk2,
    tasks (execute disconnectEnv firstRequest 5 emptyExecutor).1 !! "T1"
      = Some tk2 ∧
    Task.taskState tk2 = input_required ∧
    Task.pendingTools tk2
      = [mkToolCall toolX tool_cancelled (Some "Execution aborted")] ∧
    published (sys (execute disconnectEnv firstRequest 5 emptyExecutor).1)
      = [(5, mkStatusUpdate "T1" "C1" working None false);
         (5, mkStatusUpdate "T1" "C1" input_required
               (Some (mkMessage "uuid-0" agent "Execution aborted by client."
                        (Some "T1") None None))
               true)].
Proof.
  pose proof (firstRequest_entersLoop disconnectEnv eq_refl) as Hin.
  set (ex1 := (locate disconnectEnv firstRequest 5 "T1" "C1" emptyExecutor).1)
    in Hin.
  match type of Hin with
  | entersLoop _ _ _ _ _ _ _ ?r => set (r0 := r) in Hin
  end.
  pose (out :=
    tryBlock (requestStore disconnectEnv) (taskStore ex1) "T1"
      (firstTurn disconnectEnv) (laterTurns disconnectEnv) r0).
  destruct (abort_is_reported disconnectEnv firstRequest 5 emptyExecutor
              "T1" "T1" ex1 r0 out.1 out.2 Hin
              (surjective_pairing out) eq_refl)
    as (_ & tk2 & Hl & Hp & _ & Hc).
  exists tk2. split; [exact Hl|].
  destruct (decide (halted (current out.1))) as [Hh|Hh].
  - exfalso. vm_compute in Hh. destruct Hh; discriminate.
  - split; [exact (proj1 Hc)|]. split; [rewrite Hp; reflexivity|].
    rewrite (proj1 (proj2 Hc)). reflexivity.
Defined.



Lemma drain_spec socket store key s r r' res :
  drain socket store key s r = (r', res) →
  frame (current r') = frame (current r) ∧ res = streamOutcome s.
Proof.
  revert r. induction s as [i|i e|i ev acc rest IH]; intros r H; cbn in H.
  - simplify_eq. split; [apply interrupted_frame|done].
  - simplify_eq. split; [apply interrupted_frame|done].
  - apply IH in H as [Hf ->]. split; [|done].
    rewrite Hf. apply interrupted_frame.
Qed.

(** Claim C4.  For a registered task that is not final and whose id is in
    the executing set, [execute] leaves the executing set as it is,
    schedules and collects no tool call, hands the message to the task's
    acceptance channel, and returns when the stream of that message
    ends (or throws what the stream throws). *)
Theorem second_message_absorbed env rc bus ex taskId contextId s0 tk :
  resolveIds rc (sys ex) = (taskId, contextId, s0) →
  tasks ex !! taskId = Some tk →
  isFinal (Task.taskState tk) = false →
  taskId ∈ executingTasks ex →
  let ex' := (execute env rc bus ex).1 in
  executingTasks ex' = executingTasks ex ∧
  (execute env rc bus ex).2
    = match streamOutcome (events (firstTurn env)) with
      | None => Returned
      | Some e => Threw e
      end ∧
  ∃ tk',
    tasks ex' !! taskId = Some tk' ∧
    Task.acceptedMessages tk' = Task.acceptedMessages tk ++ [userMessage rc] ∧
    tc_request <$> Task.pendingTools tk'
      = tc_request <$> Task.pendingTools tk ∧
    Task.toolResponses tk' = Task.toolResponses tk.
Proof.
  intros Hr Hl Hf He ex'. subst ex'. unfold execute. rewrite Hr.
  unfold locate. cbn [tasks]. rewrite Hl. cbn [Task.taskState Task.setEventBus].
  rewrite Hf. cbn [executingTasks]. rewrite bool_decide_true by done.
  destruct (Task.acceptUserMessage _ _ _) as [tk0 s1] eqn:Ha.
  eapply acceptUserMessage_spec in Ha as (_ & _ & _ & Hacc & Hpt & Htr);
    [|done].
  cbn in Hacc, Hpt, Htr.
  destruct (drain _ _ _ _ _) as [r1 res] eqn:Hd.
  apply drain_spec in Hd as [Hfr ->]. unfold frame in Hfr. cbn in Hfr.
  destruct (streamOutcome _); cbn; rewrite lookup_insert_eq;
    (split; [done|]; split; [done|]; eexists; split; [done|]);
    repeat split; congruence.
Qed.

(** C4 at the scene of a follow-up message for the running task T1. *)
Lemma second_message_absorbed_witness :
  executingTasks (execute quietEnv followUp 9 busyExecutor).1 = {["T1"]} ∧
  (execute quietEnv followUp 9 busyExecutor).2 = Returned ∧
  ∃ tk',
    tasks (execute quietEnv followUp 9 busyExecutor).1 !! "T1" = Some tk' ∧
    Task.acceptedMessages tk' = [userMessage followUp] ∧
    tc_request <$> Task.pendingTools tk' = [toolX].
Proof.
  destruct (second_message_absorbed quietEnv followUp 9 busyExecutor
              "T1" "C1" (mkSys [] 0 []) runningTask eq_refl eq_refl eq_refl)
    as (He & Hc & tk' & Hl & Ha & Hp & _).
  { cbn. set_solver. }
  split; [exact He|]. split; [exact Hc|]. exists tk'.
  split; [exact Hl|]. split; [exact Ha|exact Hp].
Defined.

(** * Further properties of the durable store *)

Lemma list_ascii_of_string_app s1 s2 :
  String.list_ascii_of_string (s1 +:+ s2)
    = String.list_ascii_of_string s1 ++ String.list_ascii_of_string s2.
Proof. induction s1 as [|a s1 IH]; [done|]. simpl. by rewrite IH. Qed.

Lemma string_app_inj_r s a b : a +:+ s = b +:+ s → a = b.
Proof.
  intros H. apply (f_equal String.list_ascii_of_string) in H.
  rewrite !list_ascii_of_string_app in H. apply app_inv_tail in H.
  apply (f_equal String.string_of_list_ascii) in H.
  by rewrite !String.string_of_list_ascii_of_string in H.
Qed.

Lemma getIndexPath_inj a b :
  GCSTaskStoreA.getIndexPath a = GCSTaskStoreA.getIndexPath b → a = b.
Proof.
  unfold GCSTaskStoreA.getIndexPath. intros H.
  apply (inj (String.app "tasks/")) in H. by apply string_app_inj_r in H.
Qed.

Section Keeps.
Context {X : Type} (f : World → X).

Lemma keeps_ret {A} (a : A) : keeps f (ret a).
Proof. by intros w. Qed.

Lemma keeps_throw {A} msg : keeps f (@throw A msg).
Proof. by intros w. Qed.

Lemma keeps_bind {A B} (m : M A) (k : A → M B) :
  keeps f m → (∀ a, keeps f (k a)) → keeps f (bind m k).
Proof.
  intros Hm Hk w. unfold bind. specialize (Hm w).
  destruct (m w) as [w1 [a|e]]; [|done].
  cbn in Hm. by rewrite Hk.
Qed.

Lemma keeps_tryCatch {A} (m h : M A) :
  keeps f m → keeps f h → keeps f (tryCatch m h).
Proof.
  intros Hm Hh w. unfold tryCatch. specialize (Hm w).
  destruct (m w) as [w1 [a|e]]; [done|].
  cbn in Hm. by rewrite Hh.
Qed.
End Keeps.

Ltac keeps_primitive :=
  let w := fresh "w" in
  intros w; destruct w as [? ? ? ? ? [|[] ?] ? ? ? ? ? ? ?];
  store_simpl; repeat case_match; reflexivity.

Ltac keeps_solve :=
  repeat first
    [ apply keeps_ret
    | apply keeps_throw
    | apply keeps_bind; [|intros ?]
    | apply keeps_tryCatch
    | match goal with
      | |- keeps _ (if ?b then _ else _) => destruct b
      | |- keeps _ (match ?x with _ => _ end) => destruct x
      end
    | keeps_primitive ].

Section MoreStoreProofs.
Variable setTargetDir : TargetDirArg → string.

Lemma load_keeps_A taskId :
  keeps bucketObjects (GCSTaskStoreA.load setTargetDir taskId).
Proof.
  unfold GCSTaskStoreA.load, GCSTaskStoreA.restoreWorkspace. keeps_solve.
Qed.

Lemma load_keeps_B taskId :
  keeps bucketObjects (GCSTaskStoreB.load setTargetDir taskId).
Proof.
  unfold GCSTaskStoreB.load, GCSTaskStoreB.restoreWorkspace. keeps_solve.
Qed.

Lemma getContextHistory_keeps contextId :
  keeps bucketObjects (GCSTaskStoreA.getContextHistory contextId).
Proof. unfold GCSTaskStoreA.getContextHistory. keeps_solve. Qed.

(** The reading methods never write: whatever the bucket answers and
    however they end, [load] of either revision and [getContextHistory]
    leave every object of the bucket as it was and issue no write
    request. *)
Theorem readers_write_nothing taskId contextId w :
  bucketObjects (GCSTaskStoreA.load setTargetDir taskId w).1
    = bucketObjects w ∧
  bucketObjects (GCSTaskStoreB.load setTargetDir taskId w).1
    = bucketObjects w ∧
  bucketObjects (GCSTaskStoreA.getContextHistory contextId w).1
    = bucketObjects w.
Proof.
  split; [apply load_keeps_A|]. split; [apply load_keeps_B|].
  apply getContextHistory_keeps.
Qed.

Lemma saveTaskFile_catalogue path task w :
  indexFiles (saveTaskFile path task w).1 = indexFiles w ∧
  match (saveTaskFile path task w).2 with
  | Ok _ => taskFiles (saveTaskFile path task w).1
              = <[path := task]> (taskFiles w)
  | Err _ => taskFiles (saveTaskFile path task w).1 = taskFiles w
  end.
Proof.
  destruct w as [? ? ? ? ? [|[] ?] ? ? ? ? ? ? ?]; by store_simpl.
Qed.

Lemma saveIndexFile_catalogue path contextId w :
  taskFiles (saveIndexFile path contextId w).1 = taskFiles w ∧
  match (saveIndexFile path contextId w).2 with
  | Ok _ => indexFiles (saveIndexFile path contextId w).1
              = <[path := contextId]> (indexFiles w)
  | Err _ => indexFiles (saveIndexFile path contextId w).1 = indexFiles w
  end.
Proof.
  destruct w as [? ? ? ? ? [|[] ?] ? ? ? ? ? ? ?]; by store_simpl.
Qed.

Lemma getCwd_catalogue w :
  catalogue (getCwd w).1 = catalogue w ∧
  ∀ workDir, (getCwd w).2 = Ok workDir → workDir = cwd w.
Proof.
  unfold getCwd. repeat case_match; cbn; split; try done; congruence.
Qed.

Lemma saveWorkspace_keeps_A contextId taskId workDir :
  keeps catalogue (GCSTaskStoreA.saveWorkspace contextId taskId workDir).
Proof.
  unfold GCSTaskStoreA.saveWorkspace, GCSTaskStoreA.upload. keeps_solve.
Qed.

Lemma appendHistory_keeps contextId task :
  keeps catalogue (GCSTaskStoreA.appendHistory contextId task).
Proof.
  unfold GCSTaskStoreA.appendHistory, GCSTaskStoreA.readHistory.
  keeps_solve.
Qed.

(** What a [save] of the revision with the context log can do to the
    index and the snapshots, whatever the bucket answers: nothing, or the
    snapshot alone, or the snapshot and the index entry. *)
Lemma save_catalogue_A task w :
  let taskId := sdk_id task in
  let contextId := sdk_contextId task in
  let snapshot :=
    <[GCSTaskStoreA.getTaskPath contextId taskId "task.json" := task]>
      (taskFiles w) in
  let w1 := (GCSTaskStoreA.save task w).1 in
  (indexFiles w1 = indexFiles w ∧
   (taskFiles w1 = taskFiles w ∨ taskFiles w1 = snapshot)) ∨
  (indexFiles w1 = <[GCSTaskStoreA.getIndexPath taskId := contextId]>
                     (indexFiles w) ∧
   taskFiles w1 = snapshot).
Proof.
  cbv zeta. remember (GCSTaskStoreA.save task w) as r eqn:Hr.
  unfold GCSTaskStoreA.save in Hr.
  unfold bind at 1 in Hr. unfold ensureBucketInitialized in Hr.
  destruct (bucketInitialized w); [subst r; left; split; [done|by left]|].
  destruct (negb (truthy (sdk_contextId task)));
    [subst r; left; split; [done|by left]|].
  unfold bind at 1 in Hr.
  destruct (getCwd_catalogue w) as [H0 _].
  destruct (getCwd w) as [w0 [workDir|e]]; cbn [fst] in H0;
    injection H0 as H0i H0t;
    [|subst r; cbn [fst]; left; split; [done|by left]].
  unfold bind at 1 in Hr.
  destruct (saveTaskFile_catalogue
              (GCSTaskStoreA.getTaskPath (sdk_contextId task) (sdk_id task)
                 "task.json") task w0) as [Hi1 Ht1].
  destruct (saveTaskFile _ task w0) as [w1 [[]|e]]; cbn [fst snd] in Hi1, Ht1;
    [|subst r; cbn [fst]; left; split; [congruence|left; congruence]].
  unfold bind at 1 in Hr.
  pose proof (saveWorkspace_keeps_A (sdk_contextId task) (sdk_id task)
                workDir w1) as H2.
  destruct (GCSTaskStoreA.saveWorkspace _ _ _ w1) as [w2 [[]|e]];
    cbn [fst] in H2; injection H2 as H2i H2t;
    [|subst r; cbn [fst]; left; split; [congruence|right; congruence]].
  unfold bind at 1 in Hr.
  destruct (saveIndexFile_catalogue (GCSTaskStoreA.getIndexPath (sdk_id task))
              (sdk_contextId task) w2) as [Ht3 Hi3].
  destruct (saveIndexFile _ _ w2) as [w3 [[]|e]]; cbn [fst snd] in Hi3, Ht3;
    [|subst r; cbn [fst]; left; split; [congruence|right; congruence]].
  pose proof (appendHistory_keeps (sdk_contextId task) task w3) as H4.
  injection H4 as H4i H4t. subst r.
  right. split; congruence.
Qed.

(** [save] of the revision with the context log never leaves an index
    entry without its snapshot: if every index entry of the bucket points
    at a snapshot that is there, so it is after the save, whichever
    requests the bucket rejects. *)
Theorem save_keeps_indexed task w :
  indexed w → indexed (GCSTaskStoreA.save task w).1.
Proof.
  intros Hw taskId contextId.
  destruct (save_catalogue_A task w) as [[Hi Ht]|[Hi Ht]]; rewrite Hi.
  - intros Hl. apply Hw in Hl. destruct Ht as [-> | ->]; [done|].
    apply lookup_insert_is_Some'. by right.
  - rewrite Ht.
    destruct (decide (taskId = sdk_id task)) as [->|Hne].
    + rewrite lookup_insert_eq. intros [= <-]. by rewrite lookup_insert_eq.
    + rewrite lookup_insert_ne
        by (intros H; by apply getIndexPath_inj in H).
      intros Hl. apply Hw in Hl. apply lookup_insert_is_Some'. by right.
Qed.

(** The bucket after a [save] that met no rejection. *)
Lemma save_healthy task w :
  healthy w → truthy (sdk_contextId task) = true →
  let taskId := sdk_id task in
  let contextId := sdk_contextId task in
  let archive wf :=
    match dirs w !! cwd w with
    | Some (e :: es) =>
        <[GCSTaskStoreA.getTaskPath contextId taskId "workspace.tar.gz"
            := e :: es]> wf
    | _ => wf
    end in
  ∀ w1,
    w1 = (GCSTaskStoreA.save task w).1 ∨ w1 = (GCSTaskStoreB.save task w).1 →
    healthy w1 ∧ dirs w1 = dirs w ∧
    indexFiles w1
      = <[GCSTaskStoreA.getIndexPath taskId := contextId]> (indexFiles w) ∧
    taskFiles w1
      = <[GCSTaskStoreA.getTaskPath contextId taskId "task.json" := task]>
          (taskFiles w) ∧
    workspaceFiles w1 = archive (workspaceFiles w).
Proof.
  destruct w as [bi idx tf wf hf fl cw tmp ds tar uu rq cc].
  intros (Hb & Hf & Ht & Hcwd) Hc; cbn in Hb, Hf, Ht; subst.
  unfold cwdAnswers in Hcwd; cbn [cwdCached dirs cwd] in Hcwd.
  cbv zeta. cbn [dirs cwd indexFiles taskFiles workspaceFiles].
  intros w1 [-> | ->]; revert Hcwd.
  - destruct cc; destruct (ds !! cw) as [[|e es]|] eqn:Hd;
      intros Hcwd; try (by vm_compute in Hcwd);
      destruct (hf !! GCSTaskStoreA.getContextHistoryPath
                        (sdk_contextId task)) as [log|] eqn:Hh;
      destruct (sdk_history task) as [[|m ms]|] eqn:Hs;
      repeat store_case;
      try (destruct (GCSTaskStoreA.newMessages _ (m :: ms)) as [|n ns] eqn:Hn);
      repeat store_case; store_simpl; rewrite ?Hd; by repeat split.
  - destruct cc; destruct (ds !! cw) as [[|e es]|] eqn:Hd;
      intros Hcwd; try (by vm_compute in Hcwd);
      repeat store_case; store_simpl; rewrite ?Hd; by repeat split.
Qed.

(** In a bucket that answers every request, [load] returns the snapshot
    the index entry of the task points at, and the target directory then
    holds what it held and what the archive of the task holds. *)
Lemma load_found taskId contextId task w :
  bucketInitialized w = None → faults w = [] →
  indexFiles w !! GCSTaskStoreA.getIndexPath taskId = Some contextId →
  taskFiles w !! GCSTaskStoreA.getTaskPath contextId taskId "task.json"
    = Some task →
  let archive :=
    default [] (workspaceFiles w
                  !! GCSTaskStoreA.getTaskPath contextId taskId
                       "workspace.tar.gz") in
  let restored workDir (w1 : World) :=
    ∃ entries, dirs w1 !! workDir = Some entries ∧
      ∀ e, e ∈ entries ↔ e ∈ default [] (dirs w !! workDir) ∨ e ∈ archive in
  (let workDir := setTargetDir (ArgPersisted (sdk_persistedState task)) in
   (GCSTaskStoreB.load setTargetDir taskId w).2 = Ok (Some task) ∧
   restored workDir (GCSTaskStoreB.load setTargetDir taskId w).1) ∧
  match sdk_persistedState task with
  | Some persistedState =>
      let workDir :=
        setTargetDir (ArgSettings (_agentSettings persistedState)) in
      (GCSTaskStoreA.load setTargetDir taskId w).2 = Ok (Some task) ∧
      restored workDir (GCSTaskStoreA.load setTargetDir taskId w).1
  | None =>
      GCSTaskStoreA.load setTargetDir taskId w
        = (w, Err ("Loaded metadata for task " +:+ taskId
                     +:+ " is missing internal persisted state."))
  end.
Proof.
  destruct w as [bi idx tf wf hf fl cw tmp ds tar uu rq cc].
  cbn [bucketInitialized faults indexFiles taskFiles workspaceFiles dirs].
  intros -> -> Hi Ht. cbv zeta.
  split.
  - store_unfold.
    change (GCSTaskStoreB.getContextIdIndexPath taskId)
      with (GCSTaskStoreA.getIndexPath taskId).
    repeat store_case.
    change (GCSTaskStoreB.getTaskObjectPath contextId taskId)
      with (GCSTaskStoreA.getTaskPath contextId taskId "task.json").
    repeat store_case.
    change (GCSTaskStoreB.getWorkspaceObjectPath contextId taskId)
      with (GCSTaskStoreA.getTaskPath contextId taskId "workspace.tar.gz").
    destruct (ds !! setTargetDir (ArgPersisted (sdk_persistedState task)))
      as [old|] eqn:Hd;
      destruct (wf !! GCSTaskStoreA.getTaskPath contextId taskId
                        "workspace.tar.gz") as [entries|] eqn:Hw;
      repeat store_case; store_simpl;
      (split; [done|]);
      rewrite ?lookup_insert_eq, ?Hd; cbv [default from_option id];
      eexists; (split; [reflexivity|]); intros e;
      rewrite ?list_elem_of_union, ?elem_of_nil; tauto.
  - destruct (sdk_persistedState task) as [ps|] eqn:Hp.
    + store_unfold. repeat store_case.
      destruct (ds !! setTargetDir (ArgSettings (_agentSettings ps)))
        as [old|] eqn:Hd;
        destruct (wf !! GCSTaskStoreA.getTaskPath contextId taskId
                          "workspace.tar.gz") as [entries|] eqn:Hw;
        repeat store_case; store_simpl;
        (split; [done|]);
        rewrite ?lookup_insert_eq, ?Hd; cbv [default from_option id];
        eexists; (split; [reflexivity|]); intros e;
        rewrite ?list_elem_of_union, ?elem_of_nil; tauto.
    + store_unfold. repeat store_case. by store_simpl.
Qed.

Lemma save_request_order_A_ok task w :
  healthy w → truthy (sdk_contextId task) = true →
  (GCSTaskStoreA.save task w).2 = Ok () ∧
  bucketInitialized (GCSTaskStoreA.save task w).1 = None.
Proof.
  destruct w as [bi idx tf wf hf fl cw tmp ds tar uu rq cc].
  intros (Hb & Hf & Ht & Hcwd) Hc; cbn in Hb, Hf, Ht; subst.
  unfold cwdAnswers in Hcwd; cbn [cwdCached dirs cwd] in Hcwd. revert Hcwd.
  destruct cc; destruct (ds !! cw) as [[|e es]|] eqn:Hd;
    intros Hcwd; try (by vm_compute in Hcwd);
    destruct (hf !! GCSTaskStoreA.getContextHistoryPath
                      (sdk_contextId task)) as [log|] eqn:Hh;
    destruct (sdk_history task) as [[|m ms]|] eqn:Hs;
    repeat store_case;
    try (destruct (GCSTaskStoreA.newMessages _ (m :: ms)) as [|n ns] eqn:Hn);
    repeat store_case; store_simpl; by repeat split.
Qed.

(** Round trip of the snapshot.  After a [save] that met no rejection,
    [load] of the task's id gives back the very snapshot that was saved:
    always in the index-first revision, and in the revision with the
    context log whenever the snapshot carries its persisted state; without
    it that [load] raises the missing-persisted-state error. *)
Theorem save_load_round_trip task w :
  healthy w → truthy (sdk_contextId task) = true →
  let taskId := sdk_id task in
  (GCSTaskStoreB.load setTargetDir taskId (GCSTaskStoreB.save task w).1).2
    = Ok (Some task) ∧
  (GCSTaskStoreA.load setTargetDir taskId (GCSTaskStoreA.save task w).1).2
    = match sdk_persistedState task with
      | Some _ => Ok (Some task)
      | None =>
          Err ("Loaded metadata for task " +:+ taskId
                 +:+ " is missing internal persisted state.")
      end.
Proof.
  intros Hw Hc taskId.
  pose proof (save_healthy task w Hw Hc) as Hs. cbv zeta in Hs. split.
  - destruct (Hs _ (or_intror eq_refl)) as ((Hb & Hf & _) & _ & Hi & Ht & _).
    destruct (load_found (sdk_id task) (sdk_contextId task) task
                (GCSTaskStoreB.save task w).1 Hb Hf) as [[Hl _] _]; [| |done].
    + rewrite Hi. apply lookup_insert_eq.
    + rewrite Ht. apply lookup_insert_eq.
  - destruct (Hs _ (or_introl eq_refl)) as ((Hb & Hf & _) & _ & Hi & Ht & _).
    destruct (load_found (sdk_id task) (sdk_contextId task) task
                (GCSTaskStoreA.save task w).1 Hb Hf) as [_ Hl].
    + rewrite Hi. apply lookup_insert_eq.
    + rewrite Ht. apply lookup_insert_eq.
    + destruct (sdk_persistedState task); [by destruct Hl|].
      unfold taskId. by rewrite Hl.
Qed.

(** Round trip of the workspace.  When the working directory that a
    [save] archived (no request rejected) is not empty, the [load] that
    follows leaves every one of its entries in the target directory of
    the task, in both revisions. *)
Theorem save_load_restores_workspace task w entry entries persistedState :
  healthy w → truthy (sdk_contextId task) = true →
  dirs w !! cwd w = Some entries → entry ∈ entries →
  sdk_persistedState task = Some persistedState →
  let taskId := sdk_id task in
  let holds workDir (w1 : World) :=
    ∃ restored, dirs w1 !! workDir = Some restored ∧ entry ∈ restored in
  holds (setTargetDir (ArgPersisted (Some persistedState)))
    (GCSTaskStoreB.load setTargetDir taskId (GCSTaskStoreB.save task w).1).1 ∧
  holds (setTargetDir (ArgSettings (_agentSettings persistedState)))
    (GCSTaskStoreA.load setTargetDir taskId (GCSTaskStoreA.save task w).1).1.
Proof.
  intros Hw Hc Hd He Hp taskId holds.
  pose proof (save_healthy task w Hw Hc) as Hs. cbv zeta in Hs.
  rewrite Hd in Hs.
  destruct entries as [|e es]; [by apply elem_of_nil in He|].
  split.
  - destruct (Hs _ (or_intror eq_refl)) as ((Hb & Hf & _) & _ & Hi & Ht & Hwf).
    destruct (load_found (sdk_id task) (sdk_contextId task) task
                (GCSTaskStoreB.save task w).1 Hb Hf)
      as [[_ (restored & Hr & Hin)] _].
    + rewrite Hi. apply lookup_insert_eq.
    + rewrite Ht. apply lookup_insert_eq.
    + rewrite Hp in Hr. exists restored. split; [done|].
      apply Hin. right. rewrite Hwf, lookup_insert_eq. done.
  - destruct (Hs _ (or_introl eq_refl)) as ((Hb & Hf & _) & _ & Hi & Ht & Hwf).
    destruct (load_found (sdk_id task) (sdk_contextId task) task
                (GCSTaskStoreA.save task w).1 Hb Hf) as [_ Hl].
    + rewrite Hi. apply lookup_insert_eq.
    + rewrite Ht. apply lookup_insert_eq.
    + rewrite Hp in Hl. destruct Hl as [_ (restored & Hr & Hin)].
      exists restored. split; [done|].
      apply Hin. right. rewrite Hwf, lookup_insert_eq. done.
Qed.

(** The index-first revision can leave an index entry without its
    snapshot.  When a [save] gets as far as the bucket ([process.cwd()]
    answers) and the bucket takes its first request and rejects the
    second, the save fails with the index entry written and no snapshot;
    if the task had no snapshot before, every later [load] of it in a
    bucket that answers raises the inconsistent-state error. *)
Theorem index_first_save_dangles task w :
  bucketInitialized w = None → faults w = [false; true] →
  cwdAnswers w = true →
  truthy (sdk_contextId task) = true →
  let taskId := sdk_id task in
  let contextId := sdk_contextId task in
  let w1 := (GCSTaskStoreB.save task w).1 in
  (GCSTaskStoreB.save task w).2
    = Err (gcsError (GCSTaskStoreB.getTaskObjectPath contextId taskId)) ∧
  indexFiles w1 !! GCSTaskStoreB.getContextIdIndexPath taskId
    = Some contextId ∧
  taskFiles w1 = taskFiles w ∧
  (taskFiles w !! GCSTaskStoreB.getTaskObjectPath contextId taskId = None →
   (GCSTaskStoreB.load setTargetDir taskId w1).2
     = Err ("Inconsistent state: Task object not found for task "
              +:+ taskId)).
Proof.
  destruct w as [bi idx tf wf hf fl cw tmp ds tar uu rq cc].
  cbn [bucketInitialized faults]. intros -> -> Hcwd Hc. cbv zeta.
  unfold cwdAnswers in Hcwd; cbn [cwdCached dirs cwd] in Hcwd. revert Hcwd.
  destruct cc; destruct (ds !! cw) as [es|] eqn:Hd;
    intros Hcwd; try (by vm_compute in Hcwd);
    store_simpl; rewrite Hc; repeat store_case; store_simpl;
    (split; [done|]); (split; [apply lookup_insert_eq|]); (split; [done|]);
    intros Hn;
    repeat (first [rewrite lookup_insert_eq | store_case
                  | progress store_simpl]);
    done.
Qed.

(** After a [save] that met no rejection, [getContextHistory] of the
    task's context returns the log the bucket held before, in its order,
    followed by the history messages of the task whose ids the log did
    not have; every message id of the task's history is in it. *)
Theorem save_then_getContextHistory task w :
  healthy w → truthy (sdk_contextId task) = true →
  let contextId := sdk_contextId task in
  let log := contextLog contextId w in
  let taskHistory := default [] (sdk_history task) in
  let w1 := (GCSTaskStoreA.save task w).1 in
  (GCSTaskStoreA.getContextHistory contextId w1).2
    = Ok (log ++ GCSTaskStoreA.newMessages log taskHistory) ∧
  ∀ m, m ∈ taskHistory →
       messageId m
         ∈ messageId <$> (log ++ GCSTaskStoreA.newMessages log taskHistory).
Proof.
  intros Hw Hc contextId log taskHistory w1. split.
  - destruct (save_request_order_A_ok task w) as [Hok Hb1]; [done..|].
    destruct Hw as (Hb & Hf & Ht & Hcwd).
    destruct (save_contextLog task w Hf) as (Hf1 & _ & Hlog).
    specialize (Hlog Hok). fold contextId log taskHistory w1 in Hlog, Hf1, Hb1.
    revert Hlog Hf1 Hb1. generalize w1. clear.
    intros [bi idx tf wf hf fl cw tmp ds tar uu rq cc].
    unfold contextLog. cbn [historyFiles faults bucketInitialized].
    intros Hlog -> ->. store_simpl.
    destruct (hf !! GCSTaskStoreA.getContextHistoryPath contextId)
      as [l|] eqn:Hh; cbv [default from_option id] in Hlog;
      repeat store_case; store_simpl; by rewrite <- Hlog.
  - intros m Hm. rewrite fmap_app, elem_of_app.
    destruct (decide (messageId m ∈ messageId <$> log)) as [Hin|Hout];
      [by left|].
    right. apply list_elem_of_fmap. exists m. split; [done|].
    by apply list_elem_of_filter.
Qed.

(** A store whose bucket was found in the listing is ready and has
    created nothing.  A store whose initialization failed keeps the
    failure: its message names the bucket, and [save], [load] and
    [getContextHistory] each reject with it and leave the world as it
    is. *)
Theorem initialization_failure_sticks bucketName getBuckets createBucket
    task taskId contextId w w1 :
  newGCSTaskStoreA bucketName getBuckets createBucket w = Ok w1 →
  (∀ buckets, getBuckets = inl buckets → bucketName ∈ buckets →
     bucketInitialized w1 = None ∧
     (initializeBucketA bucketName getBuckets createBucket).1 = false) ∧
  (∀ e, bucketInitialized w1 = Some e →
     (∃ cause, e = "Failed to initialize GCS bucket " +:+ bucketName
                     +:+ ": " +:+ cause) ∧
     GCSTaskStoreA.save task w1 = (w1, Err e) ∧
     GCSTaskStoreA.load setTargetDir taskId w1 = (w1, Err e) ∧
     GCSTaskStoreA.getContextHistory contextId w1 = (w1, Err e)).
Proof.
  unfold newGCSTaskStoreA.
  destruct (negb (truthy bucketName)); [done|]. intros [= <-].
  cbn [bucketInitialized]. split.
  - intros buckets -> Hin. unfold initializeBucketA.
    by rewrite bool_decide_true.
  - intros e He. split.
    + unfold initializeBucketA in He.
      destruct getBuckets as [buckets|err]; [|by simplify_eq/=; eexists].
      destruct (bool_decide (bucketName ∈ buckets)); [done|].
      destruct createBucket; by simplify_eq/=; eexists.
    + store_simpl. by rewrite He.
Qed.

End MoreStoreProofs.

Lemma world5_indexed : indexed world5.
Proof.
  intros taskId contextId. unfold world5. cbn [indexFiles taskFiles].
  intros [Hp <-]%lookup_singleton_Some.
  apply (getIndexPath_inj "task1") in Hp. subst. by eexists.
Qed.

(** The invariant under a save of task2 whose index write is rejected. *)
Lemma save_keeps_indexed_witness :
  indexed world5 ∧ indexed (GCSTaskStoreA.save task2 world5).1.
Proof.
  split; [exact world5_indexed|].
  exact (save_keeps_indexed task2 world5 world5_indexed).
Defined.

(** The snapshot round trip at task2 and the empty bucket. *)
Lemma save_load_round_trip_witness :
  (GCSTaskStoreB.load (λ _, "/restored") "task1"
     (GCSTaskStoreB.save task2 world0).1).2 = Ok (Some task2) ∧
  (GCSTaskStoreA.load (λ _, "/restored") "task1"
     (GCSTaskStoreA.save task2 world0).1).2 = Ok (Some task2).
Proof.
  assert (H : healthy world0) by (by repeat split).
  exact (save_load_round_trip (λ _, "/restored") task2 world0 H eq_refl).
Defined.

(** The workspace round trip at task2 and the empty bucket. *)
Lemma save_load_restores_workspace_witness :
  ∃ restored,
    dirs (GCSTaskStoreB.load (λ _, "/restored") "task1"
            (GCSTaskStoreB.save task2 world0).1).1 !! "/restored"
      = Some restored ∧
    "file1.txt" ∈ restored.
Proof.
  assert (H : healthy world0) by (by repeat split).
  assert (Hin : "file1.txt" ∈ ["file1.txt"]) by (by left).
  exact (proj1 (save_load_restores_workspace (λ _, "/restored") task2 world0
                  "file1.txt" ["file1.txt"]
                  (mkPersistedState workspaceSettings input_required)
                  H eq_refl eq_refl Hin eq_refl)).
Defined.

(** The dangling index entry at task1 and the bucket that rejects its
    second request. *)
Lemma index_first_save_dangles_witness :
  indexFiles (GCSTaskStoreB.save task1 world4).1 !! "tasks/task1/contextId.txt"
    = Some "ctx1" ∧
  (GCSTaskStoreB.load (λ _, "/restored") "task1"
     (GCSTaskStoreB.save task1 world4).1).2
    = Err "Inconsistent state: Task object not found for task task1".
Proof.
  destruct (index_first_save_dangles (λ _, "/restored") task1 world4
              eq_refl eq_refl eq_refl eq_refl) as (_ & Hi & _ & Hl).
  split; [exact Hi|]. exact (Hl eq_refl).
Defined.

(** The log of ctx1 after task2 was saved into a bucket whose log had
    msg1. *)
Lemma save_then_getContextHistory_witness :
  (GCSTaskStoreA.getContextHistory "ctx1"
     (GCSTaskStoreA.save task2 world2).1).2 = Ok [msg1; msg2].
Proof.
  assert (H : healthy world2) by (by repeat split).
  exact (proj1 (save_then_getContextHistory task2 world2 H eq_refl)).
Defined.

(** A store on a bucket name that the listing call rejects. *)
Lemma initialization_failure_sticks_witness :
  let e := "Failed to initialize GCS bucket b1: quota exceeded" in
  let w1 := mkWorld (Some e) ∅ ∅ ∅ ∅ [] "/ws" "/tmp"
              {["/ws" := ["file1.txt"]]} true 0 [] false in
  GCSTaskStoreA.save task1 w1 = (w1, Err e).
Proof.
  cbv zeta.
  destruct (initialization_failure_sticks (λ _, "/restored") "b1"
              (inr (ErrorObject "quota exceeded")) None task1 "task1" "ctx1"
              world0 _ eq_refl) as [_ H].
  exact (proj1 (proj2 (H _ eq_refl))).
Defined.

(** * Further properties of the executor *)

Section MoreLoopFacts.
Variables (socket store : bool) (key : string).

Lemma advances_refl r : advances socket r r.
Proof. by repeat split. Qed.

Lemma advances_trans r1 r2 r3 :
  advances socket r1 r2 → advances socket r2 r3 → advances socket r1 r3.
Proof.
  intros (Hi1 & Hp1 & Ha1) (Hi2 & Hp2 & Ha2). split; [congruence|].
  split; [by etrans|]. intros Hs. rewrite Ha2, Ha1; done.
Qed.

Lemma publishUpdate_prefix ev tk s :
  published s `prefix_of` published (Task.publishUpdate ev tk s).
Proof.
  unfold Task.publishUpdate. destruct (Task.eventBus tk); [|done].
  by apply prefix_app_r.
Qed.

Lemma setTaskStateAndPublishUpdate_spec st text final tk s tk' s' :
  Task.setTaskStateAndPublishUpdate st text final tk s = (tk', s') →
  tk' = Task.setTaskState st tk ∧ published s `prefix_of` published s'.
Proof.
  unfold Task.setTaskStateAndPublishUpdate.
  destruct text; cbn; intros [= <- <-]; (split; [done|]).
  - apply (publishUpdate_prefix _ _ (mkSys _ _ _)).
  - apply publishUpdate_prefix.
Qed.

Lemma cancelKnown_published save bus tk s tk' s' :
  cancelKnown store save key bus tk s = (tk', s') →
  published s `prefix_of` published s'.
Proof.
  unfold cancelKnown. intros H. case_bool_decide.
  - cbn in H. simplify_eq. cbn. by apply prefix_app_r.
  - destruct (Task.setTaskStateAndPublishUpdate _ _ _ _ _) as [tk2 s2] eqn:Hs.
    apply setTaskStateAndPublishUpdate_spec in Hs as [_ Hp].
    destruct store; [destruct save|]; cbn in H; simplify_eq; cbn; [|done..].
    etrans; [exact Hp|]. by apply prefix_app_r.
Qed.

Lemma interrupted_advances i r :
  advances socket r (interrupted socket store key i r).
Proof.
  split; [|split].
  - pose proof (interrupted_frame socket store key i r) as Hf.
    unfold frame in Hf. unfold identity. congruence.
  - unfold interrupted. destruct (cancelRequest i) as [c|]; [|done].
    destruct (cancelKnown _ _ _ _ _ _) as [tk' s'] eqn:Hc.
    by apply cancelKnown_published in Hc.
  - intros ->. rewrite interrupted_aborted. cbn. by rewrite orb_false_r.
Qed.

Lemma acceptAgentMessage_advances ev r tk s :
  Task.acceptAgentMessage ev (current r) (ambient r) = (tk, s) →
  advances socket r (mkRun tk s (aborted r)).
Proof.
  unfold Task.acceptAgentMessage. cbn. intros [= <- <-].
  split; [done|]. split; [|done].
  apply (publishUpdate_prefix _ _ (mkSys _ _ _)).
Qed.

Lemma consume_advances s reqs r r' res :
  consume socket store key s reqs r = (r', res) → advances socket r r'.
Proof.
  revert reqs r. induction s as [i|i e|i ev acc rest IH]; intros reqs r H;
    cbn [consume] in H.
  - simplify_eq. apply interrupted_advances.
  - simplify_eq. apply interrupted_advances.
  - pose proof (interrupted_advances i r) as H1.
    destruct (aborted (interrupted socket store key i r)); [by simplify_eq|].
    destruct ev as [v|c|ty];
      [by eapply advances_trans; [exact H1|apply (IH _ _ H)]| |].
    all: pose proof (interrupted_advances (interrupt acc)
                       (interrupted socket store key i r)) as H2;
      destruct (rejects acc);
        [simplify_eq; by eapply advances_trans|];
      destruct (Task.acceptAgentMessage _ _ _) as [tk s'] eqn:Ha;
      apply acceptAgentMessage_advances in Ha;
      eapply advances_trans; [exact H1|];
      eapply advances_trans; [exact H2|];
      eapply advances_trans; [exact Ha|];
      apply (IH _ _ H).
Qed.

Lemma scheduleBatch_advances a reqs r r' res :
  scheduleBatch socket store key a reqs r = (r', res) → advances socket r r'.
Proof.
  unfold scheduleBatch. intros H.
  case_bool_decide; [|simplify_eq; apply advances_refl].
  pose proof (interrupted_advances (interrupt a) r) as H1.
  destruct (rejects a); simplify_eq; [done|].
  destruct H1 as (Hi & Hp & Ha). by repeat split.
Qed.

Lemma classify_advances r r' step :
  classify r = (r', step) → advances socket r r'.
Proof.
  unfold classify. cbn. intros H.
  repeat case_match; simplify_eq; repeat split; try done.
  by apply publishUpdate_prefix.
Qed.

Lemma iteration_advances turn r r' step :
  iteration socket store key turn r = (r', step) → advances socket r r'.
Proof.
  unfold iteration. intros H.
  destruct (consume _ _ _ _ _ _) as [r1 [e|reqs]] eqn:Hc;
    apply consume_advances in Hc; [by simplify_eq|].
  destruct (aborted r1); [by simplify_eq|].
  destruct (scheduleBatch _ _ _ _ _ _) as [r2 [e|]] eqn:Hb;
    apply scheduleBatch_advances in Hb;
    [simplify_eq; by eapply advances_trans|].
  pose proof (interrupted_advances (interrupt (wait turn)) r2) as H3.
  assert (advances socket r (interrupted socket store key
                               (interrupt (wait turn)) r2)) as H4
    by (eapply advances_trans; [exact Hc|]; by eapply advances_trans).
  destruct (rejects (wait turn)); [by simplify_eq|].
  cbn [aborted] in H.
  assert (advances socket r
            (mkRun (Task.waitForPendingTools (settle turn)
                      (current (interrupted socket store key
                                  (interrupt (wait turn)) r2)))
               (ambient (interrupted socket store key
                           (interrupt (wait turn)) r2))
               (aborted (interrupted socket store key
                           (interrupt (wait turn)) r2)))) as H5
    by (destruct H4 as (Hi & Hp & Ha); by repeat split).
  destruct (aborted (interrupted socket store key _ r2)); [by simplify_eq|].
  apply classify_advances in H. by eapply advances_trans.
Qed.

Lemma turnLoop_advances turn later r r' res :
  turnLoop socket store key turn later r = (r', res) → advances socket r r'.
Proof.
  revert turn r. induction later as [|next later IH]; intros turn r H;
    cbn [turnLoop] in H;
    destruct (iteration socket store key turn r) as [r1 [| |e1]] eqn:Hit;
    apply iteration_advances in Hit; try (by simplify_eq).
  - destruct (iteration socket store key idleTurn r1) as [r2 [| |e2]] eqn:Hid;
      apply iteration_advances in Hid; simplify_eq; by eapply advances_trans.
  - eapply advances_trans; [exact Hit|]. by eapply IH.
Qed.

Lemma tryBlock_advances turn later r r' res :
  tryBlock socket store key turn later r = (r', res) → advances socket r r'.
Proof.
  unfold tryBlock. intros H.
  destruct (turnLoop _ _ _ _ _ _) as [r1 [e|]] eqn:Hl;
    apply turnLoop_advances in Hl; [by simplify_eq|].
  destruct (Task.setTaskStateAndPublishUpdate _ _ _ _ _) as [tk s] eqn:Hs.
  apply setTaskStateAndPublishUpdate_spec in Hs as [-> Hp]. simplify_eq.
  eapply advances_trans; [exact Hl|]. by repeat split.
Qed.

Lemma onError_advances e r : advances socket r (onError e r).
Proof.
  unfold onError.
  repeat case_match; simplify_eq; repeat split; try done;
    match goal with
    | H : Task.setTaskStateAndPublishUpdate _ _ _ _ _ = _ |- _ =>
        apply setTaskStateAndPublishUpdate_spec in H as [-> Hp]; done
    end.
Qed.

Lemma guarded_advances turn later r :
  advances socket r (guarded socket store key turn later r).
Proof.
  unfold guarded.
  destruct (tryBlock _ _ _ _ _ _) as [r1 [e|]] eqn:Ht;
    apply tryBlock_advances in Ht; [|done].
  eapply advances_trans; [exact Ht|]. apply onError_advances.
Qed.

Lemma classify_pending r r' step :
  List.filter (λ tc, negb (Task.isSettled tc)) (Task.pendingTools (current r))
    = [] →
  classify r = (r', step) → Task.pendingTools (current r') = [].
Proof.
  unfold classify, Task.getAndClearCompletedTools. intros Hp H.
  rewrite Hp in H. cbn in H. repeat case_match; by simplify_eq.
Qed.

Lemma iteration_pending turn r r' step :
  iteration socket store key turn r = (r', step) →
  (∀ e, step ≠ Throws e) → Task.pendingTools (current r') = [].
Proof.
  unfold iteration. intros H Hs.
  destruct (consume _ _ _ _ _ _) as [r1 [e|reqs]];
    [simplify_eq; by destruct (Hs e)|].
  destruct (aborted r1); [simplify_eq; by destruct (Hs abortedError)|].
  destruct (scheduleBatch _ _ _ _ _ _) as [r2 [e|]];
    [simplify_eq; by destruct (Hs e)|].
  destruct (rejects (wait turn)) as [e|];
    [simplify_eq; by destruct (Hs e)|].
  cbn [aborted] in H.
  destruct (aborted _); [simplify_eq; by destruct (Hs abortedError)|].
  eapply classify_pending; [|exact H].
  apply waitForPendingTools_none_pending.
Qed.

Lemma turnLoop_pending turn later r r' :
  turnLoop socket store key turn later r = (r', None) →
  Task.pendingTools (current r') = [].
Proof.
  revert turn r. induction later as [|next later IH]; intros turn r H;
    cbn [turnLoop] in H;
    destruct (iteration socket store key turn r) as [r1 [| |e1]] eqn:Hit;
    try done.
  - destruct (iteration socket store key idleTurn r1) as [r2 [| |e2]] eqn:Hid;
      simplify_eq; by eapply iteration_pending.
  - simplify_eq. by eapply iteration_pending.
  - by eapply IH.
  - simplify_eq. by eapply iteration_pending.
Qed.

(** How the [try] block ends when nothing is thrown. *)
Lemma tryBlock_normal turn later r r1 bus :
  Task.eventBus (current r) = Some bus →
  tryBlock socket store key turn later r = (r1, None) →
  ∃ rl,
    advances socket r rl ∧ Task.pendingTools (current rl) = [] ∧
    r1 = mkRun (Task.setTaskState input_required (current rl))
           (publish bus
              (mkStatusUpdate (Task.id (current r)) (Task.contextId (current r))
                 input_required None true) (ambient rl))
           false.
Proof.
  unfold tryBlock. intros Hb H.
  destruct (turnLoop _ _ _ _ _ _) as [rl [e|]] eqn:Hl; [done|].
  exists rl.
  pose proof (turnLoop_advances _ _ _ _ _ Hl) as Hadv.
  pose proof (turnLoop_pending _ _ _ _ Hl) as Hp.
  pose proof (turnLoop_aborted _ _ _ _ _ _ _ Hl) as Ha.
  split; [done|]. split; [done|].
  destruct Hadv as (Hi & _ & _). unfold identity in Hi.
  unfold Task.setTaskStateAndPublishUpdate, Task.publishUpdate in H.
  cbn in H. injection Hi as Hid Hctx Hbus.
  rewrite Hbus, Hb, Hid, Hctx, Ha in H. by simplify_eq.
Qed.

(** Where the [catch] clause leaves the task. *)
Lemma onError_outcome bus finals e r :
  loopInvariant bus finals r →
  let r' := onError e r in
  restingState (Task.taskState (current r')) ∧
  Forall (λ tc, tc_status tc ≠ tool_pending) (Task.pendingTools (current r')) ∧
  ∃ more, more ≠ [] ∧ finalEvents (published (ambient r')) = finals ++ more.
Proof.
  intros (Hb & more & Hfin & Hm). cbv zeta.
  destruct r as [tk s a]. cbn in *. unfold onError. cbn.
  unfold restingState.
  destruct a.
  - case_bool_decide as Hh.
    + rewrite decide_False in Hm by (intros [?|?]; by destruct Hh).
      subst more. rewrite app_nil_r in Hfin.
      unfold Task.setTaskStateAndPublishUpdate, Task.publishUpdate. cbn.
      rewrite Hb. cbn. split; [by left|].
      split; [apply cancelPendingTools_settled|].
      rewrite finalEvents_snoc. cbn. rewrite Hfin.
      eexists; split; last reflexivity; done.
    + assert (Hh' : halted tk).
      { unfold halted.
        destruct (decide (Task.taskState tk = canceled)); [by left|].
        destruct (decide (Task.taskState tk = failed)); [by right|].
        by destruct Hh. }
      rewrite decide_True in Hm by done. cbn.
      split; [by right|]. split; [apply cancelPendingTools_settled|].
      by exists more.
  - case_bool_decide as Hh.
    + unfold Task.setTaskStateAndPublishUpdate, Task.publishUpdate. cbn.
      rewrite Hb. cbn. split; [by right; right|].
      split; [apply cancelPendingTools_settled|].
      rewrite finalEvents_snoc. cbn. rewrite Hfin, <- app_assoc.
      eexists; split; last reflexivity. by destruct more.
    + assert (Hh' : Task.taskState tk = failed)
        by (by destruct (decide (Task.taskState tk = failed))).
      rewrite decide_True in Hm by (by right). cbn.
      split; [by right; right|]. split; [apply cancelPendingTools_settled|].
      by exists more.
Qed.

End MoreLoopFacts.

Lemma prefix_finalEvents (l k : list (nat * StatusUpdate)) :
  l `prefix_of` k → ∃ more, finalEvents k = finalEvents l ++ more.
Proof.
  intros [more ->]. exists (finalEvents more).
  unfold finalEvents. by rewrite filter_app.
Qed.

(** A turn that runs to its end.  When the call reaches the turn loop and
    nothing is thrown inside the [try] block, the signal has not fired,
    the task ends in input-required with no tool call on its books, and
    the last event of the call is the final input-required update on the
    caller's bus, with the task's ids and no message. *)
Theorem turn_runs_to_input_required env rc bus ex taskId key ex1 r0 r1 :
  entersLoop env rc bus ex taskId key ex1 r0 →
  tryBlock (requestStore env) (taskStore ex1) key (firstTurn env)
    (laterTurns env) r0 = (r1, None) →
  let ex' := (execute env rc bus ex).1 in
  let ev :=
    mkStatusUpdate (Task.id (current r0)) (Task.contextId (current r0))
      input_required None true in
  aborted r1 = false ∧
  tasks ex' !! key = Some (current r1) ∧
  Task.taskState (current r1) = input_required ∧
  Task.pendingTools (current r1) = [] ∧
  identity (current r1) = identity (current r0) ∧
  ∃ before,
    published (sys ex') = before ++ [(bus, ev)] ∧
    published (sys ex) `prefix_of` before.
Proof.
  intros Hin Ht ex' ev.
  destruct (entersLoop_execute _ _ _ _ _ _ _ _ Hin) as (Hex & Hb0 & _).
  destruct Hin as (contextId & s0 & tk & tk0 & s1 & Hr & Hl & _ & _ & Ha & ->).
  subst ex'. rewrite Hex. cbn [fst]. unfold guarded. rewrite Ht.
  unfold settled. cbn [tasks sys]. rewrite lookup_insert_eq.
  destruct (tryBlock_normal _ _ _ _ _ _ _ _ Hb0 Ht)
    as (rl & (Hid & Hpre & _) & Hp & ->).
  cbn [current ambient aborted] in *.
  split; [done|]. split; [done|]. split; [done|]. split; [done|].
  split; [unfold identity in *; cbn; congruence|].
  exists (published (ambient rl)). split; [done|].
  etrans; [|exact Hpre].
  apply locate_found in Hl as (_ & Hpub & _). cbn in Hpub.
  apply resolveIds_published in Hr as [Hr _].
  unfold Task.acceptUserMessage, Task.setTaskStateAndPublishUpdate in Ha.
  injection Ha as _ <-. rewrite <- Hr, <- Hpub.
  apply publishUpdate_prefix.
Qed.

(** Where a call that ran the turn loop leaves things, however the loop
    ended.  [execute] returns normally; the task id is not marked as
    executing; the task keeps its ids and bus, is in input-required,
    canceled or failed, and has no pending tool call; and at least one
    final event has gone out since the call began. *)
Theorem loop_call_outcome env rc bus ex taskId key ex1 r0 :
  entersLoop env rc bus ex taskId key ex1 r0 →
  let ex' := (execute env rc bus ex).1 in
  (execute env rc bus ex).2 = Returned ∧
  (taskId ∉ executingTasks ex') ∧
  ∃ tk2,
    tasks ex' !! key = Some tk2 ∧
    identity tk2 = identity (current r0) ∧
    restingState (Task.taskState tk2) ∧
    Forall (λ tc, tc_status tc ≠ tool_pending) (Task.pendingTools tk2) ∧
    ∃ more, more ≠ [] ∧
      finalEvents (published (sys ex'))
        = finalEvents (published (sys ex)) ++ more.
Proof.
  intros Hin ex'.
  destruct (entersLoop_execute _ _ _ _ _ _ _ _ Hin) as (Hex & Hi0).
  subst ex'. rewrite Hex. cbn [fst snd]. split; [done|].
  unfold settled. cbn [tasks sys executingTasks].
  split; [apply not_elem_of_difference; right; by apply elem_of_singleton|].
  rewrite lookup_insert_eq.
  eexists; split; [done|].
  split.
  { pose proof (guarded_advances (requestStore env) (taskStore ex1) key
                  (firstTurn env) (laterTurns env) r0) as (Hid & _).
    exact Hid. }
  unfold guarded.
  destruct (tryBlock _ _ _ _ _ _) as [r1 [e|]] eqn:Ht.
  - apply tryBlock_thrown in Ht.
    pose proof (inv_turnLoop _ _ _ _ _ _ _ _ _ _ Ht Hi0) as Hi1.
    exact (onError_outcome bus _ e r1 Hi1).
  - destruct Hi0 as (Hb0 & more0 & Hf0 & _).
    destruct (tryBlock_normal _ _ _ _ _ _ _ _ Hb0 Ht)
      as (rl & (_ & Hpre & _) & Hp & ->).
    cbn [current ambient]. split; [by left|].
    unfold Task.setTaskState; cbn [Task.pendingTools].
    rewrite Hp. split; [done|].
    cbn. rewrite finalEvents_snoc. cbn.
    apply prefix_finalEvents in Hpre as [more Hmore].
    rewrite Hmore, Hf0, <- !app_assoc.
    eexists; split; last reflexivity. by destruct more0, more.
Qed.

(** Without a socket at hand nothing is taken for a client abort: when
    the request store is missing, whatever is thrown inside the [try]
    block ends the task in failed. *)
Theorem no_socket_no_abort env rc bus ex taskId key ex1 r0 r1 e :
  entersLoop env rc bus ex taskId key ex1 r0 →
  requestStore env = false →
  tryBlock (requestStore env) (taskStore ex1) key (firstTurn env)
    (laterTurns env) r0 = (r1, Some e) →
  aborted r1 = false ∧
  Task.taskState <$> tasks (execute env rc bus ex).1 !! key = Some failed.
Proof.
  intros Hin Hs Ht.
  destruct (entersLoop_execute _ _ _ _ _ _ _ _ Hin) as (Hex & _).
  destruct Hin as (contextId & s0 & tk & tk0 & s1 & _ & _ & _ & _ & _ & ->).
  pose proof (tryBlock_advances _ _ _ _ _ _ _ _ Ht) as (_ & _ & Ha).
  specialize (Ha Hs). cbn [aborted] in Ha.
  unfold abortedEarly in Ha. rewrite Hs in Ha. cbn in Ha.
  split; [done|].
  rewrite Hex. cbn [fst]. unfold guarded. rewrite Ht.
  unfold settled. cbn [tasks]. rewrite lookup_insert_eq. cbn.
  unfold onError. rewrite Ha.
  case_bool_decide as Hf.
  - unfold Task.setTaskStateAndPublishUpdate. by cbn.
  - cbn. f_equal. by destruct (decide (Task.taskState (current r1) = failed)).
Qed.

(** What [locate] does to the executor's collections. *)
Lemma locate_shape env rc bus taskId contextId ex ex1 l :
  locate env rc bus taskId contextId ex = (ex1, l) →
  executingTasks ex1 = executingTasks ex ∧ taskStore ex1 = taskStore ex ∧
  (∀ k, is_Some (tasks ex !! k) → is_Some (tasks ex1 !! k)) ∧
  (∀ other, other ≠ taskId → Some other ≠ sdk_id <$> task rc →
     tasks ex1 !! other = tasks ex !! other) ∧
  (∀ key tk, l = Found key tk →
     key = taskId ∨ Some key = sdk_id <$> task rc).
Proof.
  unfold locate, reconstruct, createTask. intros H.
  repeat case_match; simplify_eq; cbn;
    (split; [done|]); (split; [done|]);
    (split; [intros k Hk;
             first [done | by (apply lookup_insert_is_Some'; right)]|]);
    (split; [intros other Hne1 Hne2;
             first [done | rewrite lookup_insert_ne; [done|congruence]]|]);
    intros key tk' Hk; simplify_eq; auto.
Qed.

(** Bookkeeping of the two entry points.  [execute] never leaves a task
    id marked as executing that was not marked before, and [cancelTask]
    leaves the marks as they are; neither drops a task from the registry
    or changes whether the executor has a store. *)
Theorem collections_are_kept env save rc taskId bus ex :
  let ex1 := (execute env rc bus ex).1 in
  let ex2 := (cancelTask save taskId bus ex).1 in
  executingTasks ex1 ⊆ executingTasks ex ∧
  executingTasks ex2 = executingTasks ex ∧
  taskStore ex1 = taskStore ex ∧ taskStore ex2 = taskStore ex ∧
  ∀ k, is_Some (tasks ex !! k) →
       is_Some (tasks ex1 !! k) ∧ is_Some (tasks ex2 !! k).
Proof.
  cbv zeta.
  assert (Hc : executingTasks (cancelTask save taskId bus ex).1
                 = executingTasks ex ∧
               taskStore (cancelTask save taskId bus ex).1 = taskStore ex ∧
               ∀ k, is_Some (tasks ex !! k) →
                    is_Some (tasks (cancelTask save taskId bus ex).1 !! k)).
  { unfold cancelTask. destruct (tasks ex !! taskId) as [tk|] eqn:Hl.
    - destruct (cancelKnown _ _ _ _ _ _) as [tk' s']. cbn.
      split; [done|]. split; [done|]. intros k Hk.
      apply lookup_insert_is_Some'. by right.
    - by cbn. }
  destruct Hc as (Hc1 & Hc2 & Hc3).
  assert (He : executingTasks (execute env rc bus ex).1 ⊆ executingTasks ex ∧
               taskStore (execute env rc bus ex).1 = taskStore ex ∧
               ∀ k, is_Some (tasks ex !! k) →
                    is_Some (tasks (execute env rc bus ex).1 !! k)).
  { unfold execute.
    destruct (resolveIds rc (sys ex)) as [[tid cid] s0].
    destruct (locate _ _ _ _ _ _) as [ex1 l] eqn:Hl.
    apply locate_shape in Hl as (He & Hs & Hk & _). cbn in He, Hs, Hk.
    destruct l as [key tk| |e]; [|cbn [fst]; by rewrite He, Hs..].
    destruct (isFinal _); [cbn [fst]; by rewrite He, Hs|].
    case_bool_decide.
    - destruct (Task.acceptUserMessage _ _ _) as [tk0 s1].
      destruct (drain _ _ _ _ _) as [r1 [e|]]; cbn; rewrite He, Hs;
        (split; [done|]); (split; [done|]); intros k Hin;
        apply lookup_insert_is_Some'; right; by apply Hk.
    - destruct (Task.acceptUserMessage _ _ _) as [tk0 s1]. cbn.
      rewrite He, Hs. split; [|split; [done|]].
      + intros x [Hx Hn]%elem_of_difference.
        by apply elem_of_union in Hx as [Hx|Hx].
      + intros k Hin. apply lookup_insert_is_Some'. right. by apply Hk. }
  destruct He as (He1 & He2 & He3).
  repeat split; auto.
Qed.

(** The two entry points touch no task but their own: [cancelTask]
    leaves every registry entry other than the given id as it is, and
    [execute] every entry other than the resolved task id and the id of
    the snapshot that came with the request. *)
Theorem other_tasks_untouched env save rc taskId bus ex other :
  (other ≠ taskId →
   tasks (cancelTask save taskId bus ex).1 !! other = tasks ex !! other) ∧
  (other ≠ (resolveIds rc (sys ex)).1.1 →
   Some other ≠ sdk_id <$> task rc →
   tasks (execute env rc bus ex).1 !! other = tasks ex !! other).
Proof.
  split.
  - intros Hne. unfold cancelTask.
    destruct (tasks ex !! taskId) as [tk|] eqn:Hl; [|done].
    destruct (cancelKnown _ _ _ _ _ _) as [tk' s']. cbn.
    by rewrite lookup_insert_ne.
  - unfold execute.
    destruct (resolveIds rc (sys ex)) as [[tid cid] s0]. cbn [fst].
    intros H1 H2.
    destruct (locate _ _ _ _ _ _) as [ex1 l] eqn:Hl.
    apply locate_shape in Hl as (_ & _ & _ & Ho & Hk).
    specialize (Ho other H1 H2). cbn in Ho.
    destruct l as [key tk| |e]; [|done..].
    assert (key ≠ other) as Hkey.
    { intros ->. destruct (Hk other tk eq_refl) as [?|?]; done. }
    destruct (isFinal _); [done|].
    case_bool_decide.
    + destruct (Task.acceptUserMessage _ _ _) as [tk0 s1].
      destruct (drain _ _ _ _ _) as [r1 [e|]]; cbn;
        by rewrite lookup_insert_ne.
    + destruct (Task.acceptUserMessage _ _ _) as [tk0 s1]. cbn.
      by rewrite lookup_insert_ne.
Qed.

(** A task that cannot be set up is reported, not thrown.  When the task
    is not in memory and either the snapshot that came with the request
    cannot be rebuilt (it has no persisted state, or the configuration
    cannot be loaded), or there is no snapshot and the message brings no
    agent settings of the right kind, [execute] hands the error to
    [pushTaskStateFailed] on the caller's bus and returns normally; the
    registry and the executing marks stay as they were.  For a snapshot
    the event carries the snapshot's context id. *)
Theorem setup_failure_is_reported env rc bus ex taskId contextId s0 :
  resolveIds rc (sys ex) = (taskId, contextId, s0) →
  tasks ex !! taskId = None →
  match task rc with
  | Some sdkTask => sdk_persistedState sdkTask = None ∨ config env ≠ None
  | None =>
      match coderAgent (userMessage rc) with
      | Some agentSettings => kind agentSettings ≠ StateAgentSettingsEvent
      | None => True
      end
  end →
  let reported e c :=
    execute env rc bus ex
      = (mk (tasks ex) (executingTasks ex) (taskStore ex)
           (pushTaskStateFailed e bus taskId c s0), Returned) in
  match task rc with
  | Some sdkTask =>
      match sdk_persistedState sdkTask, config env with
      | None, _ =>
          reported
            (ErrorObject ("Cannot reconstruct task " +:+ sdk_id sdkTask
               +:+ ": missing persisted state in metadata."))
            (sdk_contextId sdkTask)
      | Some _, Some e => reported e (sdk_contextId sdkTask)
      | Some _, None => False
      end
  | None => reported settingsMissing contextId
  end.
Proof.
  intros Hr Hl Hc. cbv zeta. unfold execute. rewrite Hr.
  unfold locate. cbn [tasks]. rewrite Hl. unfold reconstruct.
  destruct (task rc) as [sdkTask|].
  - destruct (sdk_persistedState sdkTask) as [ps|]; [|done].
    destruct (config env) as [e|]; [done|]. by destruct Hc.
  - destruct (coderAgent (userMessage rc)) as [st|]; [|done].
    by rewrite bool_decide_true.
Qed.

(** A failure of [createTask] is not reported but thrown: [execute]
    rejects with it and publishes nothing.  When it is the configuration
    that cannot be loaded nothing is registered; when it is the store's
    [save] that rejects, the new task stays registered, in state
    submitted. *)
Theorem createTask_failure_escapes env rc bus ex taskId contextId s0
    agentSettings :
  resolveIds rc (sys ex) = (taskId, contextId, s0) →
  tasks ex !! taskId = None →
  task rc = None →
  coderAgent (userMessage rc) = Some agentSettings →
  kind agentSettings = StateAgentSettingsEvent →
  let unregistered := mk (tasks ex) (executingTasks ex) (taskStore ex) s0 in
  let registered :=
    mk (<[taskId := Task.create taskId contextId agentSettings (Some bus)]>
          (tasks ex))
       (executingTasks ex) (taskStore ex) s0 in
  match config env, save env with
  | Some e, _ => execute env rc bus ex = (unregistered, Threw e)
  | None, Some e =>
      taskStore ex = true → execute env rc bus ex = (registered, Threw e)
  | None, None => True
  end.
Proof.
  intros Hr Hl Ht Hs Hk. cbv zeta. unfold execute. rewrite Hr.
  unfold locate. cbn [tasks]. rewrite Hl, Ht, Hs.
  rewrite bool_decide_false by (by intros ?).
  unfold createTask. cbn [tasks executingTasks taskStore sys].
  destruct (config env) as [e|]; [done|].
  destruct (save env) as [e|]; [|done].
  by intros ->.
Qed.

Lemma foldl_addHistory_spec (ms : list Message) tk :
  foldl (λ tk m, Task.addHistory (modelEntry m) tk) tk ms
    = Task.setModelHistory (Task.modelHistory tk ++ (modelEntry <$> ms)) tk.
Proof.
  revert tk. induction ms as [|m ms IH]; intros tk; cbn [foldl fmap list_fmap].
  - rewrite app_nil_r. by destruct tk.
  - rewrite IH. unfold Task.addHistory, Task.setModelHistory. cbn.
    by rewrite <- app_assoc.
Qed.

(** What [reconstruct] makes of the snapshot [toSDKTask] takes. *)
Lemma reconstruct_toSDKTask tk bus ex :
  let tk' :=
    Task.mk (Task.id tk) (Task.contextId tk) (Task.taskState tk)
      (Task.agentSettings tk) (Some bus) [] [] [] []
      (modelEntry <$> Task.getHistory tk) in
  reconstruct (toSDKTask tk) bus None ex
    = (mk (<[Task.id tk := tk']> (tasks ex)) (executingTasks ex)
         (taskStore ex) (sys ex),
       inl tk').
Proof.
  cbv zeta. unfold reconstruct, toSDKTask.
  cbn [sdk_persistedState sdk_id sdk_contextId sdk_history _agentSettings
       _taskState default from_option id].
  by rewrite foldl_addHistory_spec.
Qed.

Lemma halted_isFinal tk : halted tk → isFinal (Task.taskState tk) = true.
Proof. unfold halted, isFinal. by intros [-> | ->]. Qed.

Lemma cancelTask_known save taskId bus ex tk :
  tasks ex !! taskId = Some tk →
  cancelTask save taskId bus ex
    = (mk (<[taskId := (cancelKnown (taskStore ex) save taskId bus tk
                          (sys ex)).1]> (tasks ex))
         (executingTasks ex) (taskStore ex)
         (cancelKnown (taskStore ex) save taskId bus tk (sys ex)).2,
       Returned).
Proof.
  intros Hl. unfold cancelTask. rewrite Hl.
  by destruct (cancelKnown _ _ _ _ _ _).
Qed.

(** Cancelling a task that is neither canceled nor failed.  [cancelTask]
    returns normally and the task ends in canceled with no pending tool
    call, its ids, bus, accepted messages and tool requests as before.
    With a store whose [save] resolves, the snapshot handed to it is that
    of the canceled task.  With a store whose [save] rejects, the task
    stays canceled all the same, nothing is saved, and the last event,
    on the caller's bus, is a final failed update that names the task and
    the cause. *)
Theorem cancel_running_task save taskId bus ex tk :
  tasks ex !! taskId = Some tk → ¬ halted tk →
  let out := cancelTask save taskId bus ex in
  out.2 = Returned ∧
  ∃ tk',
    tasks out.1 !! taskId = Some tk' ∧
    Task.taskState tk' = canceled ∧ frame tk' = frame tk ∧
    Forall (λ tc, tc_status tc ≠ tool_pending) (Task.pendingTools tk') ∧
    match taskStore ex, save with
    | true, None =>
        saved (sys out.1) = saved (sys ex) ++ [toSDKTask tk'] ∧
        sdk_state (toSDKTask tk') = canceled
    | true, Some e =>
        saved (sys out.1) = saved (sys ex) ∧
        ∃ mid,
          last (published (sys out.1))
            = Some (bus,
                    mkStatusUpdate taskId (Task.contextId tk) failed
                      (Some (mkMessage mid agent
                               ("Failed to process cancellation for task "
                                  +:+ taskId +:+ ": "
                                  +:+ messageOf "Unknown error" e)
                               (Some taskId) None None))
                      true)
    | false, _ => saved (sys out.1) = saved (sys ex)
    end.
Proof.
  intros Hl Hh out. subst out. rewrite (cancelTask_known _ _ _ _ _ Hl).
  cbn [fst snd tasks sys]. split; [done|]. rewrite lookup_insert_eq.
  eexists; split; [done|].
  destruct (cancelKnown _ _ _ _ _ _) as [tk' s'] eqn:Hc.
  pose proof (cancelKnown_spec _ _ _ _ _ _ _ _ Hc) as [Hf _].
  cbn [fst snd]. unfold cancelKnown in Hc.
  rewrite bool_decide_false in Hc by done.
  unfold Task.setTaskStateAndPublishUpdate, Task.publishUpdate in Hc.
  cbn in Hc.
  destruct (Task.eventBus tk);
    (destruct (taskStore ex); [destruct save as [e|]|]); simplify_eq; cbn;
    (split; [done|]);
    (split; [unfold frame; cbn; by rewrite Hf|]);
    (split; [apply cancelPendingTools_settled|]); try done;
    (split; [done|]); eexists; by rewrite last_snoc.
Qed.

(** A second cancel request changes nothing about the task.  Whatever
    the first call of [cancelTask] for a registered task did, a second
    one leaves the registry and the saved snapshots as they are and
    publishes one final event on its own bus, carrying the state the
    task is in, canceled or failed. *)
Theorem cancel_twice save1 save2 taskId bus1 bus2 ex tk :
  tasks ex !! taskId = Some tk →
  let ex1 := (cancelTask save1 taskId bus1 ex).1 in
  let out := cancelTask save2 taskId bus2 ex1 in
  out.2 = Returned ∧ tasks out.1 = tasks ex1 ∧
  saved (sys out.1) = saved (sys ex1) ∧
  ∃ tk1 ev,
    tasks ex1 !! taskId = Some tk1 ∧ halted tk1 ∧
    published (sys out.1) = published (sys ex1) ++ [(bus2, ev)] ∧
    ev_final ev = true ∧ ev_state ev = Task.taskState tk1 ∧
    ev_taskId ev = taskId.
Proof.
  intros Hl ex1 out. subst out ex1.
  rewrite (cancelTask_known _ _ _ _ _ Hl). cbn [fst].
  destruct (cancelKnown _ _ _ _ _ _) as [tk1 s1] eqn:Hc. cbn [fst snd].
  apply cancelKnown_spec in Hc as [_ Hh].
  pose proof (cancelTask_final save2 taskId bus2
                (mk (<[taskId := tk1]> (tasks ex)) (executingTasks ex)
                   (taskStore ex) s1) tk1
                ltac:(apply lookup_insert_eq) Hh) as H2.
  cbv zeta in H2. rewrite H2.
  cbn [fst snd tasks sys published saved].
  split; [done|]. split; [done|]. split; [done|].
  eexists _, _. rewrite lookup_insert_eq. by repeat split.
Qed.

(** A canceled task takes no further message.  After [cancelTask] on a
    registered task, an [execute] whose request resolves to that task
    returns at once: nothing is published or saved, no mark is set, and
    the task is as the cancel left it but for the bus it now holds. *)
Theorem canceled_task_ignores_messages save env rc taskId cbus bus ex tk
    contextId s0 :
  tasks ex !! taskId = Some tk →
  let ex1 := (cancelTask save taskId cbus ex).1 in
  resolveIds rc (sys ex1) = (taskId, contextId, s0) →
  let out := execute env rc bus ex1 in
  out.2 = Returned ∧
  published (sys out.1) = published (sys ex1) ∧
  saved (sys out.1) = saved (sys ex1) ∧
  executingTasks out.1 = executingTasks ex ∧
  ∃ tk1,
    tasks ex1 !! taskId = Some tk1 ∧ halted tk1 ∧
    tasks out.1 = <[taskId := Task.setEventBus (Some bus) tk1]> (tasks ex1).
Proof.
  intros Hl ex1 Hr out. subst out ex1.
  rewrite (cancelTask_known _ _ _ _ _ Hl) in *. cbn [fst] in *.
  destruct (cancelKnown _ _ _ _ _ _) as [tk1 s1] eqn:Hc. cbn [fst snd] in *.
  apply cancelKnown_spec in Hc as [_ Hh].
  rewrite (execute_final_noop env rc bus _ taskId contextId s0 tk1 Hr
             ltac:(apply lookup_insert_eq) (halted_isFinal _ Hh)).
  cbn [fst snd tasks sys executingTasks].
  apply resolveIds_published in Hr as [Hp Hs]. cbn in Hp, Hs.
  split; [done|]. split; [done|]. split; [done|]. split; [done|].
  exists tk1. rewrite lookup_insert_eq. by repeat split.
Qed.

(** From a running task to the bucket and back.  The snapshot the
    executor takes of a task ([toSDKTask]) always carries the persisted
    state: saved with no request rejected, it is what [load] of either
    store revision gives back, and [reconstruct] makes of it a registered
    task with the same id, context id, state and agent settings, on the
    caller's bus, whose model session has one entry per history message,
    in order. *)
Theorem persisted_task_rebuilds setTargetDir tk w bus ex :
  healthy w → truthy (Task.contextId tk) = true →
  let snapshot := toSDKTask tk in
  (GCSTaskStoreA.load setTargetDir (Task.id tk)
     (GCSTaskStoreA.save snapshot w).1).2 = Ok (Some snapshot) ∧
  (GCSTaskStoreB.load setTargetDir (Task.id tk)
     (GCSTaskStoreB.save snapshot w).1).2 = Ok (Some snapshot) ∧
  ∃ tk',
    reconstruct snapshot bus None ex
      = (mk (<[Task.id tk := tk']> (tasks ex)) (executingTasks ex)
           (taskStore ex) (sys ex), inl tk') ∧
    identity tk' = (Task.id tk, Task.contextId tk, Some bus) ∧
    Task.taskState tk' = Task.taskState tk ∧
    Task.agentSettings tk' = Task.agentSettings tk ∧
    Task.modelHistory tk' = modelEntry <$> Task.getHistory tk ∧
    sdk_persistedState (toSDKTask tk') = sdk_persistedState snapshot.
Proof.
  intros Hw Hc snapshot.
  pose proof (save_healthy snapshot w Hw Hc) as Hs. cbv zeta in Hs.
  split; [|split].
  - destruct (Hs _ (or_introl eq_refl)) as ((Hb & Hf & _) & _ & Hi & Ht & _).
    destruct (load_found setTargetDir (sdk_id snapshot)
                (sdk_contextId snapshot) snapshot
                (GCSTaskStoreA.save snapshot w).1 Hb Hf) as [_ Hl].
    + rewrite Hi. apply lookup_insert_eq.
    + rewrite Ht. apply lookup_insert_eq.
    + exact (proj1 Hl).
  - destruct (Hs _ (or_intror eq_refl)) as ((Hb & Hf & _) & _ & Hi & Ht & _).
    destruct (load_found setTargetDir (sdk_id snapshot)
                (sdk_contextId snapshot) snapshot
                (GCSTaskStoreB.save snapshot w).1 Hb Hf) as [[Hl _] _];
      [| |exact Hl].
    + rewrite Hi. apply lookup_insert_eq.
    + rewrite Ht. apply lookup_insert_eq.
  - eexists. split; [apply reconstruct_toSDKTask|]. by repeat split.
Qed.

(** The normal end of a turn at the first message of T1. *)
Lemma turn_runs_to_input_required_witness :
  ∃ before,
    published (sys (execute quietEnv firstRequest 5 emptyExecutor).1)
      = before ++ [(5, mkStatusUpdate "T1" "C1" input_required None true)].
Proof.
  destruct (turn_runs_to_input_required quietEnv firstRequest 5 emptyExecutor
              "T1" "T1" _ _ _ (firstRequest_entersLoop quietEnv eq_refl)
              eq_refl) as (_ & _ & _ & _ & _ & before & H & _).
  by exists before.
Defined.

(** The outcome of the call whose model stream breaks. *)
Lemma loop_call_outcome_witness :
  (execute brokenEnv firstRequest 5 emptyExecutor).2 = Returned ∧
  ("T1" ∉ executingTasks (execute brokenEnv firstRequest 5 emptyExecutor).1).
Proof.
  destruct (loop_call_outcome brokenEnv firstRequest 5 emptyExecutor
              "T1" "T1" _ _ (firstRequest_entersLoop brokenEnv eq_refl))
    as (H1 & H2 & _).
  by split.
Defined.

(** A broken stream with no request store at hand. *)
Lemma no_socket_no_abort_witness :
  Task.taskState
    <$> tasks (execute detachedEnv firstRequest 5 emptyExecutor).1 !! "T1"
    = Some failed.
Proof.
  exact (proj2 (no_socket_no_abort detachedEnv firstRequest 5 emptyExecutor
                  "T1" "T1" _ _ _ (ErrorObject "model unavailable")
                  (firstRequest_entersLoop detachedEnv eq_refl)
                  eq_refl eq_refl)).
Defined.

(** A first message without agent settings. *)
Lemma setup_failure_is_reported_witness :
  execute quietEnv strayRequest 5 emptyExecutor
    = (mk ∅ ∅ false
         (pushTaskStateFailed settingsMissing 5 "T9" "C9" (mkSys [] 0 [])),
       Returned).
Proof.
  exact (setup_failure_is_reported quietEnv strayRequest 5 emptyExecutor
           "T9" "C9" (mkSys [] 0 []) eq_refl eq_refl I).
Defined.

(** A first message whose task cannot be saved. *)
Lemma createTask_failure_escapes_witness :
  let ex := mk ∅ ∅ true (mkSys [] 0 []) in
  execute saveFailsEnv firstRequest 5 ex
    = (mk {["T1" := Task.create "T1" "C1" workspaceSettings (Some 5)]} ∅ true
         (mkSys [] 0 []),
       Threw (ErrorObject "bucket unavailable")).
Proof.
  exact (createTask_failure_escapes saveFailsEnv firstRequest 5
           (mk ∅ ∅ true (mkSys [] 0 [])) "T1" "C1" (mkSys [] 0 [])
           workspaceSettings eq_refl eq_refl eq_refl eq_refl eq_refl eq_refl).
Defined.

Lemma runningTask_not_halted : ¬ halted runningTask.
Proof. by intros [H|H]. Qed.

(** Cancelling T1 while it waits for tool X, with a store that rejects. *)
Lemma cancel_running_task_witness :
  ∃ tk',
    tasks (cancelTask (Some OtherValue) "T1" 8 storedExecutor).1 !! "T1"
      = Some tk' ∧
    Task.taskState tk' = canceled ∧
    ∃ mid,
      last (published
              (sys (cancelTask (Some OtherValue) "T1" 8 storedExecutor).1))
        = Some (8,
                mkStatusUpdate "T1" "C1" failed
                  (Some (mkMessage mid agent
                           "Failed to process cancellation for task T1: Unknown error"
                           (Some "T1") None None))
                  true).
Proof.
  destruct (cancel_running_task (Some OtherValue) "T1" 8 storedExecutor
              runningTask eq_refl runningTask_not_halted)
    as (_ & tk' & Hl & Hs & _ & _ & _ & mid & Hlast).
  exists tk'. split; [exact Hl|]. split; [exact Hs|]. by exists mid.
Defined.

(** Two cancel requests for T1. *)
Lemma cancel_twice_witness :
  tasks (cancelTask None "T1" 9
           (cancelTask None "T1" 8 storedExecutor).1).1
    = tasks (cancelTask None "T1" 8 storedExecutor).1.
Proof.
  exact (proj1 (proj2 (cancel_twice None None "T1" 8 9 storedExecutor
                         runningTask eq_refl))).
Defined.

(** A follow-up message for T1 after it was canceled. *)
Lemma canceled_task_ignores_messages_witness :
  (execute quietEnv followUp 9 (cancelTask None "T1" 8 storedExecutor).1).2
    = Returned ∧
  published
    (sys (execute quietEnv followUp 9
            (cancelTask None "T1" 8 storedExecutor).1).1)
    = published (sys (cancelTask None "T1" 8 storedExecutor).1).
Proof.
  destruct (canceled_task_ignores_messages None quietEnv followUp "T1" 8 9
              storedExecutor runningTask "C1"
              (sys (cancelTask None "T1" 8 storedExecutor).1)
              eq_refl eq_refl) as (H1 & H2 & _).
  by split.
Defined.

(** T1 saved into the empty bucket and rebuilt. *)
Lemma persisted_task_rebuilds_witness :
  (GCSTaskStoreB.load (λ _, "/restored") "T1"
     (GCSTaskStoreB.save (toSDKTask runningTask) world0).1).2
    = Ok (Some (toSDKTask runningTask)).
Proof.
  assert (H : healthy world0) by (by repeat split).
  exact (proj1 (proj2 (persisted_task_rebuilds (λ _, "/restored") runningTask
                         world0 5 emptyExecutor H eq_refl))).
Defined.

(** ** An executor without a store *)

Section Storeless.
Variables (socket : bool) (key : string).

Lemma publishUpdate_saved ev tk s :
  saved (Task.publishUpdate ev tk s) = saved s.
Proof. unfold Task.publishUpdate. by destruct (Task.eventBus tk). Qed.

Lemma setTaskStateAndPublishUpdate_saved st text final tk s :
  saved (Task.setTaskStateAndPublishUpdate st text final tk s).2 = saved s.
Proof.
  unfold Task.setTaskStateAndPublishUpdate.
  destruct text; cbn; by rewrite publishUpdate_saved.
Qed.

Lemma cancelKnown_saved save bus tk s :
  saved (cancelKnown false save key bus tk s).2 = saved s.
Proof.
  unfold cancelKnown. case_bool_decide; [done|].
  pose proof (setTaskStateAndPublishUpdate_saved canceled
                (Some "Task canceled by user request.") true
                (Task.cancelPendingTools "Task canceled by user request." tk)
                s) as Hq.
  by destruct (Task.setTaskStateAndPublishUpdate _ _ _ _ _).
Qed.

Lemma interrupted_saved i r :
  saved (ambient (interrupted socket false key i r)) = saved (ambient r).
Proof.
  unfold interrupted. destruct (cancelRequest i) as [c|]; [|done].
  pose proof (cancelKnown_saved (cancelSave c) (cancelBus c) (current r)
                (ambient r)) as H.
  by destruct (cancelKnown _ _ _ _ _ _).
Qed.

Lemma consume_saved s reqs r :
  saved (ambient (consume socket false key s reqs r).1) = saved (ambient r).
Proof.
  revert reqs r. induction s as [i|i e|i ev acc rest IH]; intros reqs r;
    cbn [consume fst]; try apply interrupted_saved.
  pose proof (interrupted_saved i r) as H1.
  destruct (aborted (interrupted socket false key i r)); [done|].
  destruct ev as [v|c|ty]; [by rewrite IH| |].
  all: pose proof (interrupted_saved (interrupt acc)
                     (interrupted socket false key i r)) as H2;
    destruct (rejects acc); [cbn [fst]; congruence|];
    unfold Task.acceptAgentMessage; cbn [drawUuid];
    rewrite IH; cbn [ambient]; rewrite publishUpdate_saved; cbn [saved];
    congruence.
Qed.

Lemma classify_saved r : saved (ambient (classify r).1) = saved (ambient r).
Proof.
  unfold classify, Task.setTaskStateAndPublishUpdate. cbn.
  repeat case_match; simplify_eq; cbn; by rewrite ?publishUpdate_saved.
Qed.

Lemma iteration_saved turn r :
  saved (ambient (iteration socket false key turn r).1) = saved (ambient r).
Proof.
  unfold iteration.
  pose proof (consume_saved (events turn) [] r) as Hc.
  destruct (consume _ _ _ _ _ _) as [r1 [e|reqs]]; [done|].
  cbn [fst] in Hc. destruct (aborted r1); [done|].
  assert (saved (ambient (scheduleBatch socket false key (schedule turn)
                            reqs r1).1) = saved (ambient r)) as Hb.
  { unfold scheduleBatch. case_bool_decide; [|done].
    pose proof (interrupted_saved (interrupt (schedule turn)) r1) as Hi.
    destruct (rejects (schedule turn)); cbn [fst ambient]; congruence. }
  destruct (scheduleBatch _ _ _ _ _ _) as [r2 [e|]]; [done|].
  cbn [fst] in Hb.
  pose proof (interrupted_saved (interrupt (wait turn)) r2) as Hw.
  destruct (rejects (wait turn)); [cbn [fst]; congruence|].
  cbn [aborted]. destruct (aborted _); [cbn [fst ambient]; congruence|].
  rewrite classify_saved. cbn [ambient]. congruence.
Qed.

Lemma turnLoop_saved turn later r :
  saved (ambient (turnLoop socket false key turn later r).1)
    = saved (ambient r).
Proof.
  revert turn r. induction later as [|next later IH]; intros turn r;
    cbn [turnLoop];
    pose proof (iteration_saved turn r) as Hit;
    destruct (iteration socket false key turn r) as [r1 [| |e1]];
    cbn [fst] in Hit; try done.
  - pose proof (iteration_saved idleTurn r1) as Hid.
    destruct (iteration socket false key idleTurn r1) as [r2 [| |e2]];
      cbn [fst] in *; congruence.
  - rewrite IH. done.
Qed.

Lemma guarded_saved turn later r :
  saved (ambient (guarded socket false key turn later r)) = saved (ambient r).
Proof.
  unfold guarded, tryBlock.
  pose proof (turnLoop_saved turn later r) as Hl.
  destruct (turnLoop _ _ _ _ _ _) as [r1 [e|]]; cbn [fst] in Hl.
  - unfold onError, Task.setTaskStateAndPublishUpdate. cbn.
    repeat case_match; simplify_eq; cbn; by rewrite ?publishUpdate_saved.
  - pose proof (setTaskStateAndPublishUpdate_saved input_required None true
                  (current r1) (ambient r1)) as Hs.
    destruct (Task.setTaskStateAndPublishUpdate _ _ _ _ _). cbn in *.
    congruence.
Qed.

Lemma drain_saved s r :
  saved (ambient (drain socket false key s r).1) = saved (ambient r).
Proof.
  revert r. induction s as [i|i e|i ev acc rest IH]; intros r;
    cbn [drain fst]; try apply interrupted_saved.
  rewrite IH. apply interrupted_saved.
Qed.

End Storeless.

(** An executor that was given no store saves nothing: whatever the
    request and the environment, [execute] and [cancelTask] hand no
    snapshot to [taskStore.save]. *)
Theorem storeless_executor_saves_nothing env save rc taskId bus ex :
  taskStore ex = false →
  saved (sys (execute env rc bus ex).1) = saved (sys ex) ∧
  saved (sys (cancelTask save taskId bus ex).1) = saved (sys ex).
Proof.
  intros Hs. split.
  - unfold execute.
    destruct (resolveIds rc (sys ex)) as [[tid cid] s0] eqn:Hr.
    apply resolveIds_published in Hr as [_ Hr].
    destruct (locate _ _ _ _ _ _) as [ex1 l] eqn:Hl.
    assert (saved (sys ex1) = saved (sys ex) ∧ taskStore ex1 = false)
      as [Hs1 Hst].
    { unfold locate, reconstruct, createTask, pushTaskStateFailed, drawUuid
        in Hl.
      cbn [tasks taskStore sys executingTasks] in Hl. rewrite Hs in Hl.
      repeat case_match; simplify_eq; by cbn. }
    destruct l as [key tk| |e]; [|done..].
    destruct (isFinal _); [done|]. rewrite Hst.
    case_bool_decide.
    + pose proof (setTaskStateAndPublishUpdate_saved working None false
                    (Task.setAcceptedMessages
                       (Task.acceptedMessages (Task.setEventBus (Some bus) tk)
                          ++ [userMessage rc])
                       (Task.setEventBus (Some bus) tk)) (sys ex1)) as Ha.
      unfold Task.acceptUserMessage.
      destruct (Task.setTaskStateAndPublishUpdate _ _ _ _ _) as [tk0 s1].
      pose proof (drain_saved (requestStore env) key
                    (events (firstTurn env)) (mkRun tk0 s1 false)) as Hd.
      destruct (drain _ _ _ _ _) as [r1 [e|]]; cbn in *; congruence.
    + pose proof (setTaskStateAndPublishUpdate_saved working None false
                    (Task.setAcceptedMessages
                       (Task.acceptedMessages tk ++ [userMessage rc]) tk)
                    (sys ex1)) as Ha.
      unfold Task.acceptUserMessage.
      destruct (Task.setTaskStateAndPublishUpdate _ _ _ _ _) as [tk0 s1].
      cbn. rewrite guarded_saved. cbn in *. congruence.
  - unfold cancelTask. destruct (tasks ex !! taskId) as [tk|]; [|done].
    rewrite Hs.
    pose proof (cancelKnown_saved taskId save bus tk (sys ex)) as Hc.
    by destruct (cancelKnown _ _ _ _ _ _).
Qed.

(** A cancel request and a message on an executor without a store. *)
Lemma storeless_executor_saves_nothing_witness :
  saved (sys (execute quietEnv firstRequest 5 emptyExecutor).1) = [] ∧
  saved (sys (cancelTask None "T1" 8 busyExecutor).1) = [].
Proof.
  split.
  - exact (proj1 (storeless_executor_saves_nothing quietEnv None firstRequest
                    "T1" 5 emptyExecutor eq_refl)).
  - exact (proj2 (storeless_executor_saves_nothing quietEnv None firstRequest
                    "T1" 8 busyExecutor eq_refl)).
Defined.

(** The marks and the registry of the busy executor under a cancel
    request for T1. *)
Lemma collections_are_kept_witness :
  executingTasks (cancelTask None "T1" 8 busyExecutor).1 = {["T1"]} ∧
  is_Some (tasks (execute quietEnv followUp 9 busyExecutor).1 !! "T1").
Proof.
  destruct (collections_are_kept quietEnv None followUp "T1" 8 busyExecutor)
    as (_ & H2 & _ & _).
  split; [exact H2|].
  destruct (collections_are_kept quietEnv None followUp "T1" 9 busyExecutor)
    as (_ & _ & _ & _ & H5).
  exact (proj1 (H5 "T1" (ex_intro _ runningTask eq_refl))).
Defined.

Lemma T1_is_not_ghost : "T1" ≠ "ghost".
Proof. discriminate. Qed.

(** T1 under a cancel request for a task nobody knows. *)
Lemma other_tasks_untouched_witness :
  tasks (cancelTask None "ghost" 3 busyExecutor).1 !! "T1" = Some runningTask.
Proof.
  exact (proj1 (other_tasks_untouched quietEnv None followUp "ghost" 3
                  busyExecutor "T1") T1_is_not_ghost).
Defined.

(** * Properties of the history route and of the terminal client *)

Lemma getContextHistory_answer contextId w :
  bucketInitialized w = None → faults w = [] →
  GCSTaskStoreA.getContextHistory contextId w = (w, Ok (contextLog contextId w)).
Proof.
  destruct w as [bi idx tf wf hf fl cw tmp ds tar uu rq cc].
  cbn [bucketInitialized faults]. intros -> ->.
  unfold contextLog. cbn [historyFiles].
  destruct (hf !! GCSTaskStoreA.getContextHistoryPath contextId)
    as [log|] eqn:Hh; repeat store_case; by store_simpl.
Qed.

Lemma history_route_facts contextId w :
  bucketInitialized w = None → faults w = [] →
  (App.historyRoute App.GCSStore contextId w).2
    = App.mkResponse 200 (App.HistoryBody (contextLog contextId w)).
Proof.
  intros Hb Hf. unfold App.historyRoute.
  by rewrite (getContextHistory_answer _ _ Hb Hf).
Qed.

(** The history route.  It never writes to the bucket.  It answers 501
    exactly when the store is not a [GCSTaskStore]; with a [GCSTaskStore]
    whose bucket answers, 200 and the context's log as the bucket holds
    it; and whenever reading the log fails, 500 with one fixed body that
    does not show the cause. *)
Theorem history_route_answers taskStore contextId w :
  let out := App.historyRoute taskStore contextId w in
  bucketObjects out.1 = bucketObjects w ∧
  (App.status out.2 = 501 ↔ taskStore = App.InMemoryStore) ∧
  (taskStore = App.GCSStore →
   (bucketInitialized w = None → faults w = [] →
    out.2 = App.mkResponse 200 (App.HistoryBody (contextLog contextId w))) ∧
   (∀ e, (GCSTaskStoreA.getContextHistory contextId w).2 = Err e →
         out.2 = App.mkResponse 500
                   (App.ErrorBody "Failed to fetch context history."))).
Proof.
  cbv zeta. unfold App.historyRoute. destruct taskStore.
  - pose proof (getContextHistory_keeps contextId w) as Hk.
    destruct (GCSTaskStoreA.getContextHistory contextId w)
      as [w1 [history|e]] eqn:Hg; cbn [fst snd] in *;
      (split; [done|]); (split; [by split|]); intros _; split.
    + intros Hb Hf. rewrite (getContextHistory_answer _ _ Hb Hf) in Hg.
      by simplify_eq.
    + by intros e.
    + intros Hb Hf. rewrite (getContextHistory_answer _ _ Hb Hf) in Hg.
      by simplify_eq.
    + by intros e' _.
  - cbn. split; [done|]. by split.
Qed.

(** The choice of the store.  [createApp] uses a [GCSTaskStore] exactly
    when [GCS_BUCKET_NAME] is set and not empty, so the constructor's
    check of the bucket name never fires, and the objects of the bucket
    are as they were. *)
Theorem createApp_store_choice bucketName getBuckets createBucket w :
  ∃ kind w1,
    App.createApp bucketName getBuckets createBucket w = Ok (kind, w1) ∧
    (kind = App.GCSStore ↔ isSet bucketName = true) ∧
    bucketObjects w1 = bucketObjects w.
Proof.
  unfold App.createApp, newGCSTaskStoreA, isSet.
  destruct bucketName as [name|]; [destruct (truthy name) eqn:Ht|]; cbn.
  - eexists _, _. by repeat split.
  - eexists _, _. split; [done|]. by split.
  - eexists _, _. split; [done|]. by split.
Qed.

Lemma find_reverse {A} (f : A → bool) (l : list A) m :
  List.find f (reverse l) = Some m →
  ∃ earlier later,
    l = earlier ++ m :: later ∧ f m = true ∧
    Forall (λ x, f x = false) later.
Proof.
  induction l as [|a l IH] using rev_ind; [done|].
  rewrite reverse_snoc. cbn [List.find].
  destruct (f a) eqn:Hfa.
  - intros [= <-]. exists l, []. by repeat split.
  - intros (earlier & later & -> & Hm & Hl)%IH.
    exists earlier, (later ++ [a]). rewrite <- app_assoc. cbn.
    split; [done|]. split; [done|].
    apply Forall_app. split; [done|]. by constructor.
Qed.

Section Client.
Import ClientCli.

Lemma adopt_isSet candidate current :
  isSet current = true → isSet (adopt candidate current) = true.
Proof.
  unfold adopt. intros Hc.
  destruct (isSet candidate) eqn:Hi; [|done]. cbn.
  by case_bool_decide.
Qed.

Lemma adopt_set candidate current :
  isSet candidate = true → adopt candidate current = candidate.
Proof.
  unfold adopt. intros ->. cbn. by case_bool_decide.
Qed.

Lemma handleEvent_context event s :
  isSet (currentContextId s) = true →
  isSet (currentContextId (handleEvent event s)) = true.
Proof.
  intros Hc. destruct event; cbn; repeat case_match; cbn;
    by (try apply adopt_isSet).
Qed.

Lemma handleStream_context events s :
  isSet (currentContextId s) = true →
  isSet (currentContextId (handleStream events s)) = true.
Proof.
  unfold handleStream. revert s.
  induction events as [|e events IH]; intros s Hc; [done|].
  cbn. apply IH. by apply handleEvent_context.
Qed.

(** The last status update of a stream decides what the next message
    carries.  When a stream ends with a final status update that names a
    task: if its state is input-required the next message goes to that
    task and brings no agent settings; otherwise the next message names
    no task and brings the agent settings of a first message, with the
    client's working directory.  Either way a context id the session had,
    or that the update brought, is still sent. *)
Theorem final_status_decides_next_message events taskId contextId state s
    messageId input cwd :
  truthy taskId = true →
  let s' :=
    handleStream (events ++ [StatusUpdateEvent (Some taskId) contextId state
                               true]) s in
  let payload := messagePayload messageId input cwd s' in
  (isSet (currentContextId s) = true ∨ isSet contextId = true →
   isSet (payloadContextId payload) = true) ∧
  if String.eqb state "input-required" then
    payloadTaskId payload = Some taskId ∧ payloadCoderAgent payload = None
  else
    payloadTaskId payload = None ∧
    payloadCoderAgent payload = Some (mkSettings "agent-settings" cwd).
Proof.
  intros Ht s' payload. subst payload s'.
  unfold handleStream. rewrite foldl_app. cbn [foldl].
  fold (handleStream events s).
  set (s1 := handleStream events s).
  assert (Hctx : isSet (currentContextId s) = true ∨ isSet contextId = true →
                 isSet (adopt contextId (currentContextId s1)) = true).
  { intros [Hc|Hc].
    - apply adopt_isSet. by apply handleStream_context.
    - by rewrite adopt_set. }
  assert (Hadopt : adopt (Some taskId) (currentTaskId s1) = Some taskId)
    by (by apply adopt_set).
  unfold handleEvent, messagePayload. rewrite Hadopt.
  destruct (String.eqb state "input-required"); cbn.
  - rewrite Ht. split; [|done]. intros H. apply Hctx in H. by rewrite H.
  - split; [|done]. intros H. apply Hctx in H. by rewrite H.
Qed.

Lemma resume_keeps_context fetchHistory getTask s :
  ClientCli.currentContextId
    (ClientCli.resumeLastTaskInContext fetchHistory getTask s)
    = ClientCli.currentContextId s.
Proof.
  unfold ClientCli.resumeLastTaskInContext. by repeat case_match.
Qed.

Lemma find_reverse_last {A} (f : A → bool) (earlier later : list A) m :
  f m = true → Forall (λ x, f x = false) later →
  List.find f (reverse (earlier ++ m :: later)) = Some m.
Proof.
  intros Hm Hl. rewrite reverse_app, reverse_cons, <- app_assoc.
  rewrite <- Forall_reverse in Hl. revert Hl. generalize (reverse later).
  intros l Hl.
  induction Hl as [|x l Hx _ IH]; cbn [app List.find];
    [by rewrite Hm|by rewrite Hx].
Qed.

(** What [resumeLastTaskInContext] leaves in the session.  The context
    id stays.  In a session with a context the task id becomes [taskId]
    exactly when the history answer is an ok response with a list of
    messages, the last message of the list that has a task id names
    [taskId], and [getTask] reports that task as input-required or
    working; in every other case the task id is null. *)
Theorem resume_picks_in_flight fetchHistory getTask s contextId :
  currentContextId s = Some contextId → truthy contextId = true →
  let s' := resumeLastTaskInContext fetchHistory getTask s in
  let inFlight taskId :=
    ∃ response earlier m later taskStatus,
      fetchHistory contextId = FetchResponds response ∧
      ok response = true ∧
      App.body response = App.HistoryBody (earlier ++ m :: later) ∧
      msg_taskId m = Some taskId ∧ truthy taskId = true ∧
      Forall (λ m', isSet (msg_taskId m') = false) later ∧
      getTask taskId = TaskDetails taskStatus ∧
      (taskStatus = "input-required" ∨ taskStatus = "working") in
  currentContextId s' = Some contextId ∧
  (∀ taskId, currentTaskId s' = Some taskId ↔ inFlight taskId) ∧
  (currentTaskId s' = None ↔ ¬ ∃ taskId, inFlight taskId).
Proof.
  intros Hc Ht. cbv zeta.
  assert (Hfwd :
    currentContextId (resumeLastTaskInContext fetchHistory getTask s)
      = Some contextId ∧
    ∀ taskId,
      currentTaskId (resumeLastTaskInContext fetchHistory getTask s)
        = Some taskId →
      ∃ response earlier m later taskStatus,
        fetchHistory contextId = FetchResponds response ∧
        ok response = true ∧
        App.body response = App.HistoryBody (earlier ++ m :: later) ∧
        msg_taskId m = Some taskId ∧ truthy taskId = true ∧
        Forall (λ m', isSet (msg_taskId m') = false) later ∧
        getTask taskId = TaskDetails taskStatus ∧
        (taskStatus = "input-required" ∨ taskStatus = "working")).
  { unfold resumeLastTaskInContext. rewrite Hc, Ht. cbn [negb].
    destruct (fetchHistory contextId) as [|response] eqn:Hf; [by split|].
    destruct (ok response) eqn:Hok; [|by split]. cbn [negb].
    destruct (App.body response) as [history|] eqn:Hb; [|by split].
    case_bool_decide; [by split|].
    destruct (List.find _ _) as [m|] eqn:Hfind; [|by split].
    apply find_reverse in Hfind as (earlier & later & -> & Hm & Hl).
    destruct (msg_taskId m) as [taskId|] eqn:Hmt; [|by split].
    destruct (getTask taskId) as [| |taskStatus] eqn:Hg; [by split..|].
    destruct (String.eqb taskStatus "input-required") eqn:E1;
      [|destruct (String.eqb taskStatus "working") eqn:E2]; cbn;
      [| |by split].
    - apply String.eqb_eq in E1. split; [done|]. intros ? [= <-].
      by eexists response, earlier, m, later, taskStatus; eauto 10.
    - apply String.eqb_eq in E2. split; [done|]. intros ? [= <-].
      by eexists response, earlier, m, later, taskStatus; eauto 10. }
  assert (Hbwd : ∀ taskId,
    (∃ response earlier m later taskStatus,
        fetchHistory contextId = FetchResponds response ∧
        ok response = true ∧
        App.body response = App.HistoryBody (earlier ++ m :: later) ∧
        msg_taskId m = Some taskId ∧ truthy taskId = true ∧
        Forall (λ m', isSet (msg_taskId m') = false) later ∧
        getTask taskId = TaskDetails taskStatus ∧
        (taskStatus = "input-required" ∨ taskStatus = "working")) →
    currentTaskId (resumeLastTaskInContext fetchHistory getTask s)
      = Some taskId).
  { intros taskId
      (response & earlier & m & later & st & Hf & Hok & Hb & Hm & Htid & Hl
         & Hg & Hst).
    unfold resumeLastTaskInContext. rewrite Hc, Ht, Hf, Hok, Hb. cbn [negb].
    rewrite bool_decide_false
      by (rewrite length_app; cbn; lia).
    rewrite (find_reverse_last (λ m, isSet (msg_taskId m)) earlier later m)
      by (done || by rewrite Hm).
    rewrite Hm, Hg. by destruct Hst as [-> | ->]. }
  destruct Hfwd as [Hctx Hfwd]. split; [done|]. split.
  - intros taskId. split; [apply Hfwd|apply Hbwd].
  - split.
    + intros Hn [taskId Hin]. apply Hbwd in Hin. congruence.
    + intros Hn.
      destruct (currentTaskId (resumeLastTaskInContext fetchHistory getTask s))
        as [taskId|] eqn:Hs; [|done].
      exfalso. apply Hn. exists taskId. by apply Hfwd.
Qed.

(** Entering a context on a server without a [GCSTaskStore].  When the
    history request reaches the route of a server that runs on the
    in-memory store, [/enter] sets the context and always clears the task
    id, whatever the tasks of the context are; with a [GCSTaskStore] whose
    bucket answers, what it examines is the context log of the bucket. *)
Theorem enter_against_server taskStore w fetchHistory getTask s contextId :
  truthy contextId = true →
  fetchHistory contextId
    = FetchResponds (App.historyRoute taskStore contextId w).2 →
  let s' := enter (Some contextId) fetchHistory getTask s in
  currentContextId s' = Some contextId ∧
  match taskStore with
  | App.InMemoryStore => currentTaskId s' = None
  | App.GCSStore =>
      bucketInitialized w = None → faults w = [] →
      s' = resumeLastTaskInContext
             (λ _, FetchResponds
                     (App.mkResponse 200
                        (App.HistoryBody (contextLog contextId w))))
             getTask (mkSession (currentTaskId s) (Some contextId))
  end.
Proof.
  intros Ht Hf. cbv zeta. unfold enter. cbn [isSet]. rewrite Ht. cbn [negb].
  split.
  - by rewrite resume_keeps_context.
  - destruct taskStore.
    + intros Hb Hfl.
      pose proof (history_route_facts contextId w Hb Hfl) as Hr.
      unfold resumeLastTaskInContext. cbn [currentContextId].
      by rewrite Ht, Hf, Hr.
    + unfold resumeLastTaskInContext. cbn [currentContextId].
      by rewrite Ht, Hf.
Qed.

End Client.

(** The route on the bucket that holds the log of C1. *)
Lemma history_route_answers_witness :
  (App.historyRoute App.GCSStore "C1" world6).2
    = App.mkResponse 200 (App.HistoryBody historyOfC1).
Proof.
  destruct (history_route_answers App.GCSStore "C1" world6) as (_ & _ & H).
  exact (proj1 (H eq_refl) eq_refl eq_refl).
Defined.

(** A stream that ends with T1 completed, in a session without context. *)
Lemma final_status_decides_next_message_witness :
  let payload :=
    ClientCli.messagePayload "id1" "next" "/home"
      (ClientCli.handleStream
         ([ClientCli.TaskEvent "T1" (Some "C1")]
            ++ [ClientCli.StatusUpdateEvent (Some "T1") (Some "C1")
                  "completed" true])
         (ClientCli.mkSession None None)) in
  ClientCli.payloadTaskId payload = None ∧
  ClientCli.payloadCoderAgent payload
    = Some (ClientCli.mkSettings "agent-settings" "/home").
Proof.
  exact (proj2 (final_status_decides_next_message
                  [ClientCli.TaskEvent "T1" (Some "C1")] "T1" (Some "C1")
                  "completed" (ClientCli.mkSession None None) "id1" "next"
                  "/home" eq_refl)).
Defined.

Lemma historyOfC1_split :
  historyOfC1
    = [mkMessage "m1" user "hello" (Some "T0") (Some "C1") None]
        ++ mkMessage "m2" agent "done" (Some "T1") (Some "C1") None
        :: [mkMessage "m3" agent "note" None (Some "C1") None].
Proof. reflexivity. Qed.

(** Resuming in C1 when T1 is reported as working. *)
Lemma resume_picks_in_flight_witness :
  ClientCli.resumeLastTaskInContext
    (λ _, ClientCli.FetchResponds
            (App.mkResponse 200 (App.HistoryBody historyOfC1)))
    (λ _, ClientCli.TaskDetails "working") sessionC1
    = ClientCli.mkSession (Some "T1") (Some "C1").
Proof.
  destruct (resume_picks_in_flight
              (λ _, ClientCli.FetchResponds
                      (App.mkResponse 200 (App.HistoryBody historyOfC1)))
              (λ _, ClientCli.TaskDetails "working") sessionC1 "C1"
              eq_refl eq_refl) as (Hctx & Htask & _).
  pose proof (proj2 (Htask "T1")) as Hresume.
  destruct (ClientCli.resumeLastTaskInContext _ _ sessionC1) as [tid cid].
  cbn in Hctx, Hresume. rewrite Hctx, Hresume; [done|].
  eexists _, _, _, _, "working".
  split; [reflexivity|]. split; [reflexivity|].
  split; [cbn [App.body]; by rewrite historyOfC1_split|].
  split; [reflexivity|]. split; [reflexivity|].
  split; [by repeat constructor|]. split; [reflexivity|]. by right.
Defined.

(** Entering C1 on a server with the in-memory store. *)
Lemma enter_against_server_witness :
  ClientCli.currentTaskId
    (ClientCli.enter (Some "C1")
       (λ c, ClientCli.FetchResponds
               (App.historyRoute App.InMemoryStore c world6).2)
       (λ _, ClientCli.TaskDetails "working")
       (ClientCli.mkSession (Some "T1") None))
    = None.
Proof.
  exact (proj2 (enter_against_server App.InMemoryStore world6
                  (λ c, ClientCli.FetchResponds
                          (App.historyRoute App.InMemoryStore c world6).2)
                  (λ _, ClientCli.TaskDetails "working")
                  (ClientCli.mkSession (Some "T1") None) "C1"
                  eq_refl eq_refl)).
Defined.
